(** * Qtanon: the entity/placeholder substitution engine

    A shallow embedding of the text-processing core of [Qtanon.py] (and of
    its command-line predecessor [fake-plates.py]): the placeholder
    assigner [extract_entities_to_csv_data], the two substitution
    directions [anonymize_text_logic] and [de_anonymize_text_logic], and
    the mapping loader [read_csv_mapping_for_gui].

    Python strings are modelled as lists of characters whose code points
    lie below 256 (the Latin-1 range of [str]); on that range the character
    classes used by [str.strip], [str.split], [str.lower], [str.isnumeric]
    and by the regular-expression engine ([\w], [\b], IGNORECASE) are the
    ones written out below. *)

From Stdlib Require Import List Ascii Arith NArith Lia Bool Sorting.Permutation Sorting.Sorted.
From Stdlib Require Strings.Byte Strings.String.
From Stdlib Require DecimalString DecimalNat.
Import ListNotations.

Set Implicit Arguments.

(** ** Strings *)

Definition str := list ascii.

Inductive str_literal : Set :=
| LitNil
| LitCons (c : ascii) (l : str_literal).

Fixpoint literal_of_bytes (l : list Byte.byte) : str_literal :=
  match l with
  | [] => LitNil
  | b :: l => LitCons (ascii_of_byte b) (literal_of_bytes l)
  end.

Fixpoint bytes_of_literal (s : str_literal) : list Byte.byte :=
  match s with
  | LitNil => []
  | LitCons c l => byte_of_ascii c :: bytes_of_literal l
  end.

Declare Scope str_scope.
Delimit Scope str_scope with str.
#[warnings="-via-type-mismatch,-via-type-remapping"]
String Notation str literal_of_bytes bytes_of_literal
  (via str_literal mapping [[nil] => LitNil, [cons] => LitCons]) : str_scope.
Open Scope str_scope.
Open Scope list_scope.

Definition str_eqb (a b : str) : bool :=
  if list_eq_dec ascii_dec a b then true else false.

Definition mem (x : str) (l : list str) : bool := existsb (str_eqb x) l.

(** ** Python's [str] methods on the Latin-1 range *)

Module PyStr.

Definition code (c : ascii) : nat := nat_of_ascii c.

Definition in_range (lo hi : nat) (c : ascii) : bool :=
  (lo <=? code c) && (code c <=? hi).

Definition one_of (l : list nat) (c : ascii) : bool :=
  existsb (Nat.eqb (code c)) l.

(** [str.isspace] for one character. *)
Definition is_space (c : ascii) : bool :=
  in_range 9 13 c || in_range 28 32 c || one_of [133; 160] c.

(** Characters that [str.lower] changes: A-Z and the accented capitals. *)
Definition is_upper (c : ascii) : bool :=
  in_range 65 90 c || in_range 192 214 c || in_range 216 222 c.

Definition lower_char (c : ascii) : ascii :=
  if is_upper c then ascii_of_nat (code c + 32) else c.

(** [str.isnumeric] for one character: digits, superscripts, fractions. *)
Definition is_numeric_char (c : ascii) : bool :=
  in_range 48 57 c || one_of [178; 179; 185; 188; 189; 190] c.

Definition is_alpha_char (c : ascii) : bool :=
  in_range 65 90 c || in_range 97 122 c || one_of [170; 181; 186] c
  || in_range 192 214 c || in_range 216 246 c || in_range 248 255 c.

(** [s.lower()]. On the Latin-1 range it changes one character at a time
    and keeps the length; beyond that range Python's does not (U+0130
    becomes two characters). *)
Definition lower (s : str) : str := map lower_char s.

Fixpoint lstrip (s : str) : str :=
  match s with
  | c :: s' => if is_space c then lstrip s' else s
  | [] => []
  end.

(** [s.strip()] *)
Definition strip (s : str) : str := rev (lstrip (rev (lstrip s))).

(** [s.split()]: the maximal runs of non-space characters; [cur] is the
    run being read, most recent character first. *)
Fixpoint split_from (cur : str) (s : str) : list str :=
  match s with
  | [] => match cur with [] => [] | _ => [rev cur] end
  | c :: s' =>
      if is_space c
      then match cur with
           | [] => split_from [] s'
           | _ => rev cur :: split_from [] s'
           end
      else split_from (c :: cur) s'
  end.

Definition split (s : str) : list str := split_from [] s.

(** [s.isnumeric()] *)
Definition isnumeric (s : str) : bool :=
  match s with
  | [] => false
  | _ => forallb is_numeric_char s
  end.

(** [s.startswith(prefix)] *)
Fixpoint startswith (s prefix : str) : bool :=
  match prefix, s with
  | [], _ => true
  | a :: prefix', c :: s' => Ascii.eqb a c && startswith s' prefix'
  | _ :: _, [] => false
  end.

(** [str(n)] and [f"{n:03d}"] *)
Definition decimal (n : nat) : str :=
  String.list_ascii_of_string (DecimalString.NilZero.string_of_uint (Nat.to_uint n)).

Definition decimal_03 (n : nat) : str :=
  let d := decimal n in
  repeat "0"%char (3 - length d) ++ d.

(** [s.endswith(suffix)] *)
Definition endswith (s suffix : str) : bool := startswith (rev s) (rev suffix).

(** [sub in s] *)
Fixpoint contains (s sub : str) : bool :=
  startswith s sub
  || match s with
     | [] => false
     | _ :: s' => contains s' sub
     end.

(** [s.rfind(c)] for a single character: the last index where it stands,
    [None] for Python's -1. *)
Fixpoint rfind (s : str) (c : ascii) : option nat :=
  match s with
  | [] => None
  | d :: s' =>
      match rfind s' c with
      | Some i => Some (S i)
      | None => if Ascii.eqb d c then Some 0 else None
      end
  end.

(** [s.rstrip(c)] for a single character. *)
Fixpoint lstrip_char (c : ascii) (s : str) : str :=
  match s with
  | d :: s' => if Ascii.eqb d c then lstrip_char c s' else s
  | [] => []
  end.

Definition rstrip_char (c : ascii) (s : str) : str := rev (lstrip_char c (rev s)).

(** [s.split(sep)] for a single character: the pieces between its
    occurrences (one piece, maybe empty, when there is none); [cur] is the
    piece being read, most recent character first. *)
Fixpoint split_at (sep : ascii) (cur : str) (s : str) : list str :=
  match s with
  | [] => [rev cur]
  | c :: s' =>
      if Ascii.eqb c sep
      then rev cur :: split_at sep [] s'
      else split_at sep (c :: cur) s'
  end.

Definition split_sep (s : str) (sep : ascii) : list str := split_at sep [] s.

(** [sep.join(l)] *)
Fixpoint join (sep : str) (l : list str) : str :=
  match l with
  | [] => []
  | [x] => x
  | x :: l' => x ++ sep ++ join sep l'
  end.

(** [s.replace(old, new)], from left to right over non-overlapping
    occurrences; [skip] counts the characters of the current occurrence
    still to be passed. With an empty [old], [new] is put before every
    character and at the end. *)
Fixpoint replace_from (old new : str) (skip : nat) (s : str) : str :=
  match s with
  | [] => []
  | c :: s' =>
      match skip with
      | S k => replace_from old new k s'
      | O =>
          if startswith s old
          then new ++ replace_from old new (length old - 1) s'
          else c :: replace_from old new 0 s'
      end
  end.

Definition replace (s old new : str) : str :=
  match old with
  | [] => new ++ flat_map (fun c => c :: new) s
  | _ => replace_from old new 0 s
  end.

End PyStr.

(** ** Outcomes: a call returns a value or raises *)

Inductive exn : Set :=
| ReError      (* re.error *)
| IndexError.  (* raised by the template parser for an unknown group name *)

Inductive outcome (A : Type) : Type :=
| Returned (a : A)
| Raised (e : exn).

Arguments Returned {A} a.
Arguments Raised {A} e.

(** ** The part of Python's [re] module the program uses

    Both directions build their pattern from an escaped literal:
    [r'\b' + re.escape(entity) + r'\b'] and
    [r'\*\*' + re.escape(placeholder) + r'\*\*'], always compiled with
    [re.IGNORECASE], and hand it to [re.sub]. A pattern is therefore a
    literal (never empty at the call sites) with or without the two word
    boundaries. *)

Module Re.
Import PyStr.

Record pattern : Set := { word_bounded : bool; literal : str }.

(** [\w] *)
Definition is_word (c : ascii) : bool :=
  is_alpha_char c || is_numeric_char c || Ascii.eqb c "_".

Definition wordish (o : option ascii) : bool :=
  match o with Some c => is_word c | None => false end.

(** [\b] between the characters [before] and [after] (absent at the ends
    of the text). *)
Definition boundary (before after : option ascii) : bool :=
  xorb (wordish before) (wordish after).

(** The literal read at the start of [s], ignoring case. On the Latin-1
    range IGNORECASE takes two characters for one another when their
    lowercase forms are equal; beyond that range it also does so for a few
    pairs whose lowercase forms differ (i and U+0131, s and U+017F, k and
    U+212A). *)
Fixpoint prefix_ci (lit s : str) : bool :=
  match lit, s with
  | [], _ => true
  | a :: lit', c :: s' => Ascii.eqb (lower_char a) (lower_char c) && prefix_ci lit' s'
  | _ :: _, [] => false
  end.

(** Does the pattern match at the start of [s], [prev] being the character
    just before it? *)
Definition match_here (p : pattern) (prev : option ascii) (s : str) : bool :=
  let n := length (literal p) in
  match n with
  | 0 => false
  | S k =>
      prefix_ci (literal p) s
      && (negb (word_bounded p)
          || (boundary prev (hd_error s)
              && boundary (nth_error s k) (nth_error s n)))
  end.

(** [re.sub] proper: one pass from left to right over non-overlapping
    matches. [skip] counts the characters of the current match still to be
    consumed; [repl] is the replacement callback, threaded with its own
    state and called once per match, in order, with the matched text. *)
Section Scan.
Variable St : Type.
Variable p : pattern.
Variable repl : St -> str -> str * St.

Fixpoint scan (prev : option ascii) (skip : nat) (st : St) (s : str) : str :=
  match s with
  | [] => []
  | c :: s' =>
      match skip with
      | S k => scan (Some c) k st s'
      | O =>
          if match_here p prev s
          then let (r, st') := repl st (firstn (length (literal p)) s) in
               r ++ scan (Some c) (length (literal p) - 1) st' s'
          else c :: scan (Some c) O st s'
      end
  end.
End Scan.

(** [re.sub(pattern, callable, content)] *)
Definition sub_callable (St : Type) (p : pattern) (repl : St -> str -> str * St)
           (st : St) (content : str) : str :=
  scan p repl None 0 st content.

(** *** Replacement templates

    A replacement given as a string is a template: it is parsed before
    the search starts, and a backslash in it introduces an escape. The
    patterns here have no groups, so only group 0 can be referred to. The
    parser is the one of CPython 3.12 ([re._parser.parse_template]). *)

Inductive template_item : Set :=
| Chars (s : str)
| WholeMatch.            (* \g<0> *)

Definition is_digit (c : ascii) : bool := in_range 48 57 c.
Definition is_octdigit (c : ascii) : bool := in_range 48 55 c.
Definition digit_val (c : ascii) : nat := code c - 48.
Definition is_ascii_letter (c : ascii) : bool := in_range 65 90 c || in_range 97 122 c.

(** [str.isidentifier] *)
Definition is_identifier (s : str) : bool :=
  match s with
  | [] => false
  | c :: s' =>
      (is_alpha_char c || Ascii.eqb c "_")
      && forallb (fun d => is_alpha_char d || is_digit d || Ascii.eqb d "_" || one_of [183] d) s'
  end.

Definition escape_char (c : ascii) : option ascii :=
  match c with
  | "a"%char => Some (ascii_of_nat 7)
  | "b"%char => Some (ascii_of_nat 8)
  | "f"%char => Some (ascii_of_nat 12)
  | "n"%char => Some (ascii_of_nat 10)
  | "r"%char => Some (ascii_of_nat 13)
  | "t"%char => Some (ascii_of_nat 9)
  | "v"%char => Some (ascii_of_nat 11)
  | "\"%char => Some "\"%char
  | _ => None
  end.

(** The text up to the first [stop], and what follows it. *)
Fixpoint getuntil (stop : ascii) (s : str) : option (str * str) :=
  match s with
  | [] => None
  | c :: s' =>
      if Ascii.eqb c stop then Some ([], s')
      else match getuntil stop s' with
           | Some (name, rest) => Some (c :: name, rest)
           | None => None
           end
  end.

Definition then_items (i : template_item) (r : outcome (list template_item))
  : outcome (list template_item) :=
  match r with
  | Returned l => Returned (i :: l)
  | Raised e => Raised e
  end.

Fixpoint parse_template_from (fuel : nat) (s : str) : outcome (list template_item) :=
  match fuel with
  | O => Raised ReError
  | S fuel =>
      match s with
      | [] => Returned []
      | "\"%char :: [] => Raised ReError                   (* bad escape (end of pattern) *)
      | "\"%char :: "g"%char :: rest =>
          match rest with
          | "<"%char :: rest1 =>
              match getuntil ">" rest1 with
              | None => Raised ReError                     (* unterminated name *)
              | Some ([], _) => Raised ReError             (* missing group name *)
              | Some (name, rest2) =>
                  if forallb is_digit name
                  then if forallb (Ascii.eqb "0") name
                       then then_items WholeMatch (parse_template_from fuel rest2)
                       else Raised ReError                 (* invalid group reference *)
                  else if is_identifier name
                       then match rest2 with
                            | ["\"%char] => Raised ReError  (* bad escape, read ahead *)
                            | _ => Raised IndexError       (* unknown group name *)
                            end
                       else Raised ReError                 (* bad character in group name *)
              end
          | _ => Raised ReError                            (* missing < *)
          end
      | "\"%char :: "0"%char :: rest =>
          match rest with
          | d1 :: d2 :: rest2 =>
              if is_octdigit d1
              then if is_octdigit d2
                   then then_items (Chars [ascii_of_nat ((digit_val d1 * 8 + digit_val d2) mod 256)])
                                   (parse_template_from fuel rest2)
                   else then_items (Chars [ascii_of_nat (digit_val d1)])
                                   (parse_template_from fuel (d2 :: rest2))
              else then_items (Chars [zero]) (parse_template_from fuel rest)
          | [d1] =>
              if is_octdigit d1
              then Returned [Chars [ascii_of_nat (digit_val d1)]]
              else then_items (Chars [zero]) (parse_template_from fuel rest)
          | [] => Returned [Chars [zero]]
          end
      | "\"%char :: c :: rest =>
          if is_digit c
          then match rest with
               | d1 :: d2 :: rest2 =>
                   if is_octdigit c && is_octdigit d1 && is_octdigit d2
                   then let v := digit_val c * 64 + digit_val d1 * 8 + digit_val d2 in
                        if 255 <? v
                        then Raised ReError                (* octal escape out of range *)
                        else then_items (Chars [ascii_of_nat v]) (parse_template_from fuel rest2)
                   else Raised ReError                     (* invalid group reference *)
               | _ => Raised ReError                       (* invalid group reference *)
               end
          else match escape_char c with
               | Some ch => then_items (Chars [ch]) (parse_template_from fuel rest)
               | None =>
                   if is_ascii_letter c
                   then Raised ReError                     (* bad escape *)
                   else then_items (Chars ["\"%char; c]) (parse_template_from fuel rest)
               end
      | c :: rest => then_items (Chars [c]) (parse_template_from fuel rest)
      end
  end.

Definition parse_template (repl : str) : outcome (list template_item) :=
  parse_template_from (S (length repl)) repl.

Fixpoint expand (t : list template_item) (matched : str) : str :=
  match t with
  | [] => []
  | Chars s :: t' => s ++ expand t' matched
  | WholeMatch :: t' => matched ++ expand t' matched
  end.

(** [re.sub(pattern, repl, content, flags=re.IGNORECASE)] with [repl] a
    string. *)
Definition sub (p : pattern) (repl : str) (content : str) : outcome str :=
  match parse_template repl with
  | Raised e => Raised e
  | Returned t =>
      Returned (scan p (fun (_ : unit) m => (expand t m, tt)) None 0 tt content)
  end.

End Re.

(** ** The fixed patterns of [clean_text_from_markdown]

    Each function below is [re.sub] for one pattern and one replacement,
    named in its comment. In all of them a greedy class is followed by a
    character outside the class, so that giving characters back never
    helps: the class takes its longest run or the attempt fails. *)

Module Patterns.
Import PyStr.

(** The longest run of characters satisfying [f] at the start of [s], and
    what follows it. *)
Fixpoint span (f : ascii -> bool) (s : str) : str * str :=
  match s with
  | c :: s' => if f c then let (run, rest) := span f s' in (c :: run, rest) else ([], s)
  | [] => ([], [])
  end.

Definition is_not (c : ascii) (d : ascii) : bool := negb (Ascii.eqb d c).

(** [re.sub(r'<[^>]+>', '', s)]; [skip] counts the characters of the
    current match still to be passed. *)
Fixpoint strip_tags_from (skip : nat) (s : str) : str :=
  match s with
  | [] => []
  | c :: s' =>
      match skip with
      | S k => strip_tags_from k s'
      | O =>
          if Ascii.eqb c "<"
          then match span (is_not ">") s' with
               | ((_ :: _) as inside, ">"%char :: _) => strip_tags_from (length inside + 1) s'
               | _ => c :: strip_tags_from 0 s'
               end
          else c :: strip_tags_from 0 s'
      end
  end.

Definition strip_tags (s : str) : str := strip_tags_from 0 s.

(** [re.sub(r'[ \t]+', ' ', s)]; [in_run] tells that the run being read
    has already given its space. *)
Definition is_blank (c : ascii) : bool := Ascii.eqb c " " || Ascii.eqb c "009".

Fixpoint squeeze_blanks_from (in_run : bool) (s : str) : str :=
  match s with
  | [] => []
  | c :: s' =>
      if is_blank c
      then if in_run then squeeze_blanks_from true s'
           else " "%char :: squeeze_blanks_from true s'
      else c :: squeeze_blanks_from false s'
  end.

Definition squeeze_blanks (s : str) : str := squeeze_blanks_from false s.

(** [re.sub(r'\n\s*\n', '\n\n', s)]: from a line feed, [\s*] takes the
    whole run of white space and gives back what follows its last line
    feed. *)
Fixpoint squeeze_blank_lines_from (skip : nat) (s : str) : str :=
  match s with
  | [] => []
  | c :: s' =>
      match skip with
      | S k => squeeze_blank_lines_from k s'
      | O =>
          if Ascii.eqb c "010"
          then match rfind (fst (span is_space s')) "010" with
               | Some i => "010"%char :: "010"%char :: squeeze_blank_lines_from (i + 1) s'
               | None => c :: squeeze_blank_lines_from 0 s'
               end
          else c :: squeeze_blank_lines_from 0 s'
      end
  end.

Definition squeeze_blank_lines (s : str) : str := squeeze_blank_lines_from 0 s.

(** [re.sub(r'\[([^\]]+)\]\([^\)]+\)', r'\1', s)]: a link is replaced by
    its text, the first group. *)
Fixpoint link_text_from (skip : nat) (s : str) : str :=
  match s with
  | [] => []
  | c :: s' =>
      match skip with
      | S k => link_text_from k s'
      | O =>
          if Ascii.eqb c "["
          then match span (is_not "]") s' with
               | ((_ :: _) as label, "]"%char :: "("%char :: s2) =>
                   match span (is_not ")") s2 with
                   | ((_ :: _) as target, ")"%char :: _) =>
                       label ++ link_text_from (length label + 2 + length target + 1) s'
                   | _ => c :: link_text_from 0 s'
                   end
               | _ => c :: link_text_from 0 s'
               end
          else c :: link_text_from 0 s'
      end
  end.

Definition link_text (s : str) : str := link_text_from 0 s.

(** [re.sub(r'[*#`_~]', '', s)] *)
Definition is_markup (c : ascii) : bool :=
  Ascii.eqb c "*" || Ascii.eqb c "#" || Ascii.eqb c "`" || Ascii.eqb c "_" || Ascii.eqb c "~".

Definition drop_markup (s : str) : str := filter (fun c => negb (is_markup c)) s.

End Patterns.

(** ** [os.path], as [posixpath] defines it *)

Module PosixPath.
Import PyStr.

Definition sep : ascii := "/".
Definition extsep : ascii := ".".

(** [p.rfind(sep) + 1] *)
Definition after_last_sep (p : str) : nat :=
  match rfind p sep with Some i => i + 1 | None => 0 end.

(** [os.path.split(p)]: the head loses its trailing slashes unless it is
    made of slashes only. *)
Definition split (p : str) : str * str :=
  let i := after_last_sep p in
  let head := firstn i p in
  let tail := skipn i p in
  let head :=
    match head with
    | [] => head
    | _ => if str_eqb head (repeat sep (length head)) then head else rstrip_char sep head
    end in
  (head, tail).

Definition dirname (p : str) : str := fst (split p).
Definition basename (p : str) : str := skipn (after_last_sep p) p.

(** [os.path.splitext(p)]: the extension starts at the last dot of the
    last component, provided a character other than a dot stands before it
    in that component. *)
Definition splitext (p : str) : str * str :=
  let filenameIndex := after_last_sep p in
  match rfind p extsep with
  | Some dotIndex =>
      if (filenameIndex <=? dotIndex)
         && existsb (fun c => negb (Ascii.eqb c extsep))
                    (firstn (dotIndex - filenameIndex) (skipn filenameIndex p))
      then (firstn dotIndex p, skipn dotIndex p)
      else (p, [])
  | None => (p, [])
  end.

(** [os.path.join(a, b)] *)
Definition join (a b : str) : str :=
  if startswith b [sep] then b
  else match a with
       | [] => b
       | _ => if endswith a [sep] then a ++ b else a ++ [sep] ++ b
       end.

End PosixPath.

(** ** Dictionaries and sorting *)

(** A Python [dict] with string keys: an association list in insertion
    order; assigning to a present key keeps its position. *)
Definition dict (V : Type) := list (str * V).

Fixpoint dict_get (V : Type) (d : dict V) (k : str) : option V :=
  match d with
  | [] => None
  | (k', v) :: d' => if str_eqb k k' then Some v else dict_get d' k
  end.

Definition dict_get_default (V : Type) (d : dict V) (k : str) (dflt : V) : V :=
  match dict_get d k with Some v => v | None => dflt end.

Definition dict_has (V : Type) (d : dict V) (k : str) : bool :=
  match dict_get d k with Some _ => true | None => false end.

Fixpoint dict_set (V : Type) (d : dict V) (k : str) (v : V) : dict V :=
  match d with
  | [] => [(k, v)]
  | (k', v') :: d' => if str_eqb k k' then (k', v) :: d' else (k', v') :: dict_set d' k v
  end.

(** [del d[k]], for a key that is present *)
Fixpoint dict_del (V : Type) (d : dict V) (k : str) : dict V :=
  match d with
  | [] => []
  | (k', v') :: d' => if str_eqb k k' then d' else (k', v') :: dict_del d' k
  end.

(** [l.sort(key=key, reverse=True)]: the stable sort by decreasing key, as
    the list it leaves behind. *)
Fixpoint insert_desc (A : Type) (key : A -> nat) (x : A) (l : list A) : list A :=
  match l with
  | [] => [x]
  | y :: l' => if key x <? key y then y :: insert_desc key x l' else x :: y :: l'
  end.

Fixpoint sort_desc (A : Type) (key : A -> nat) (l : list A) : list A :=
  match l with
  | [] => []
  | x :: l' => insert_desc key x (sort_desc key l')
  end.

(** A row of the mapping: [(placeholder, real_entity)]. *)
Definition entry : Set := (str * str)%type.

(** A span found by the recognizer: [ent.text] and [ent.label_]. *)
Record ent : Set := { text : str; label_ : str }.

(** The two dictionaries the extraction loop fills. *)
Record extraction : Type := {
  extracted_map : dict str;   (* entity text -> placeholder *)
  counts : dict nat           (* category -> last number given *)
}.

(** ** Qtanon.py *)

Module Qtanon.
Import PyStr.

Definition OTHER_TYPE_SPACY_LABELS : list str :=
  ["TIME"; "PERCENT"; "QUANTITY"; "ORDINAL"; "CARDINAL"; "LANGUAGE"; "LAW"].

(** *** 1. Entity extraction *)

Definition placeholder_prefix_map : dict str :=
  [("PERSON", "person"); ("ORG", "org"); ("GPE", "place"); ("LOC", "place");
   ("FAC", "place"); ("PRODUCT", "thing"); ("EVENT", "thing");
   ("WORK_OF_ART", "thing"); ("LAW", "thing"); ("LANGUAGE", "thing")].

Definition initial_extraction : extraction :=
  {| extracted_map := [];
     counts := [("person", 0); ("org", 0); ("place", 0); ("thing", 0); ("misc", 0)] |}.

(** One turn of [for ent in doc.ents]. *)
Definition extract_step (selected_spacy_labels : list str) (st : extraction) (e : ent)
  : extraction :=
  if negb (mem (label_ e) selected_spacy_labels)
     && negb (mem "OTHER_TYPES" selected_spacy_labels
              && mem (label_ e) OTHER_TYPE_SPACY_LABELS)
  then st
  else
    let entity_text := strip (text e) in
    let label_prefix := dict_get_default placeholder_prefix_map (label_ e) "misc" in
    if (match entity_text with [] => true | _ => false end) || (length entity_text <? 2)
    then st
    else
      let label_prefix :=
        if isnumeric entity_text && mem label_prefix ["person"; "org"; "place"; "thing"]
        then "misc" else label_prefix in
      if negb (dict_has (extracted_map st) entity_text)
      then
        let n := dict_get_default (counts st) label_prefix 0 + 1 in
        let base_placeholder := label_prefix ++ "_" ++ decimal_03 n in
        {| extracted_map := dict_set (extracted_map st) entity_text base_placeholder;
           counts := dict_set (counts st) label_prefix n |}
      else st.

Definition extract_loop (selected_spacy_labels : list str) (ents : list ent) : extraction :=
  fold_left (extract_step selected_spacy_labels) ents initial_extraction.

(** [nlp] is what [SpacyModelManager.get_model] gave ([None] when the model
    cannot be loaded), applied to the cleaned text to get [doc.ents];
    [clean_text_from_markdown] depends on the optional Markdown package.
    [selected_spacy_labels] defaults to [["PERSON"]]. *)
Definition extract_entities_to_csv_data
           (nlp : option (str -> list ent)) (clean_text_from_markdown : str -> str)
           (text_content : str) (selected_spacy_labels : list str)
  : option (list entry) :=
  match nlp with
  | None => None
  | Some nlp =>
      let cleaned_text := clean_text_from_markdown text_content in
      match cleaned_text, strip cleaned_text with
      | [], _ | _, [] => None
      | _, _ =>
          let st := extract_loop selected_spacy_labels (nlp cleaned_text) in
          Some (map (fun '(entity, placeholder) => (placeholder, entity)) (extracted_map st))
      end
  end.

(** *** 2. Anonymization *)

(** The body of [for base_placeholder, entity_to_find in replacements_data]. *)
Definition anonymize_step (exclusions_lower : list str) (content : str) (row : entry)
  : outcome str :=
  let '(base_placeholder, entity_to_find) := row in
  if mem (lower entity_to_find) exclusions_lower
  then Returned content
  else
    let bold_placeholder := "**" ++ base_placeholder ++ "**" in
    match entity_to_find with
    | [] => Returned content
    | _ =>
        match Re.sub {| Re.word_bounded := true; Re.literal := entity_to_find |}
                     bold_placeholder content with
        | Returned content' => Returned content'
        | Raised ReError => Returned content       (* except re.error: continue *)
        | Raised e => Raised e
        end
    end.

Fixpoint for_each (step : str -> entry -> outcome str) (rows : list entry) (content : str)
  : outcome str :=
  match rows with
  | [] => Returned content
  | row :: rows' =>
      match step content row with
      | Returned content' => for_each step rows' content'
      | Raised e => Raised e
      end
  end.

(** The result of the call, and the caller's list as the call leaves it
    ([replacements_data.sort] sorts the argument itself). *)
Definition anonymize_text_logic (content : str) (replacements_data : list entry)
           (exclusions : list str) : outcome str * list entry :=
  let exclusions_lower := map lower exclusions in
  let replacements_data := sort_desc (fun x : entry => length (snd x)) replacements_data in
  (for_each (anonymize_step exclusions_lower) replacements_data content, replacements_data).

(** *** 3. De-anonymization *)

Record PersonNameReplacer : Set := {
  full_name : str;
  last_name : str;
  count : nat
}.

Definition PersonNameReplacer_init (full_name_val last_name_val : str) : PersonNameReplacer :=
  {| full_name := full_name_val; last_name := last_name_val; count := 0 |}.

(** [__call__]: the replacement, and the object with its counter advanced. *)
Definition PersonNameReplacer_call (self : PersonNameReplacer) (matchobj : str)
  : str * PersonNameReplacer :=
  let self := {| full_name := full_name self; last_name := last_name self;
                 count := count self + 1 |} in
  (if count self =? 1 then full_name self else last_name self, self).

Definition known_prefixes : list str :=
  ["org_"; "place_"; "thing_"; "misc_"; "group_"].

Definition de_anonymize_step (content : str) (row : entry) : outcome str :=
  let '(base_placeholder, real_entity) := row in
  match base_placeholder with
  | [] => Returned content
  | _ =>
      let bold_placeholder_pattern :=
        {| Re.word_bounded := false; Re.literal := "**" ++ base_placeholder ++ "**" |} in
      let replaced :=
        if startswith base_placeholder "person_"
        then
          let name_parts := split real_entity in
          let last_name := last name_parts real_entity in
          match name_parts with
          | [] | [_] => Re.sub bold_placeholder_pattern real_entity content
          | _ =>
              let replacer_instance := PersonNameReplacer_init real_entity last_name in
              Returned (Re.sub_callable bold_placeholder_pattern PersonNameReplacer_call
                                        replacer_instance content)
          end
        else if existsb (startswith base_placeholder) known_prefixes
        then Re.sub bold_placeholder_pattern real_entity content
        else Re.sub bold_placeholder_pattern real_entity content in
      match replaced with
      | Returned content' => Returned content'
      | Raised ReError => Returned content       (* except re.error: continue *)
      | Raised e => Raised e
      end
  end.

Definition de_anonymize_text_logic (content : str) (replacements_data : list entry)
  : outcome str * list entry :=
  let replacements_data := sort_desc (fun x : entry => length (fst x)) replacements_data in
  (for_each de_anonymize_step replacements_data content, replacements_data).

(** *** File operations *)

(** What opening and reading the CSV file gives: no such file, or the rows
    [csv.reader] yields, after which the iteration ends or raises (an
    undecodable byte, a field larger than the field limit; a file that
    cannot be opened at all yields no row and raises). *)
Inductive csv_source : Set :=
| Missing
| Stream (rows : list (list str)) (raises : bool).

(** [csv.field_size_limit()]: the program leaves it at its default. *)
Definition field_size_limit : N := 131072.

Definition within_field_limit (record : list str) : bool :=
  forallb (fun field => (N.of_nat (length field) <=? field_size_limit)%N) record.

(** [csv.reader] over the records of a decoded text: it yields them in
    order up to the first one that holds a field larger than the limit, at
    which it raises [csv.Error]. *)
Fixpoint csv_reader (records : list (list str)) : list (list str) * bool :=
  match records with
  | [] => ([], false)
  | record :: records' =>
      if within_field_limit record
      then let '(rows, raises) := csv_reader records' in (record :: rows, raises)
      else ([], true)
  end.

(** What stands at [csv_path]: nothing; a file that [open] refuses
    (PermissionError); a file with a byte that is not UTF-8, after the
    records that come before it; a file of text, given by its records. *)
Inductive csv_file : Set :=
| NoSuchFile
| NotPermitted
| Undecodable (records : list (list str))
| Text (records : list (list str)).

(** [open(csv_path, mode='r', newline='', encoding='utf-8')] and
    [csv.reader(csvfile)]. *)
Definition open_csv (f : csv_file) : csv_source :=
  match f with
  | NoSuchFile => Missing
  | NotPermitted => Stream [] true
  | Undecodable records => Stream (fst (csv_reader records)) true
  | Text records => let '(rows, raises) := csv_reader records in Stream rows raises
  end.

Inductive log_line : Set :=
| HeaderSkipped
| WarnEmptyAfterHeader
| WarnEmptyField (rn : nat)
| WarnInsufficientColumns (rn : nat)
| WarnNoValidRows
| ErrorNotFound
| ErrorReading.

(** [for i, row in enumerate(reader)], from index [i] on. *)
Fixpoint read_rows (has_header : bool) (i : nat) (rows : list (list str))
         (replacements_map : list entry) (log : list log_line)
  : list entry * list log_line :=
  match rows with
  | [] => (replacements_map, log)
  | row :: rows' =>
      let rn := if has_header then i + 2 else i + 1 in
      match row with
      | c1 :: c2 :: _ =>
          let col1 := strip c1 in
          let col2 := strip c2 in
          match col1, col2 with
          | [], _ | _, [] =>
              read_rows has_header (S i) rows' replacements_map (log ++ [WarnEmptyField rn])
          | _, _ =>
              read_rows has_header (S i) rows' (replacements_map ++ [(col1, col2)]) log
          end
      | _ =>
          read_rows has_header (S i) rows' replacements_map
                    (log ++ [WarnInsufficientColumns rn])
      end
  end.

(** The value returned ([None] is Python's [None]) and the lines logged. *)
Definition read_csv_mapping_for_gui (csvfile : csv_source) (has_header : bool)
  : option (list entry) * list log_line :=
  match csvfile with
  | Missing => (None, [ErrorNotFound])
  | Stream rows raises =>
      let after_header :=
        if has_header
        then match rows with
             | _ :: rows' => Some (rows', [HeaderSkipped])
             | [] => if raises then None else Some ([], [WarnEmptyAfterHeader])
             end
        else Some (rows, []) in
      match after_header with
      | None => (None, [ErrorReading])
      | Some (rows, log) =>
          let '(replacements_map, log) := read_rows has_header 0 rows [] log in
          if raises
          then (None, log ++ [ErrorReading])
          else
            match replacements_map with
            | [] => (Some replacements_map, log ++ [WarnNoValidRows])
            | _ => (Some replacements_map, log)
            end
      end
  end.

(** *** Markdown cleaning *)

(** What [markdown.markdown(text, extensions=['nl2br', 'extra'])] does:
    it returns the HTML or raises, an ImportError (a missing extension)
    being told apart from the other exceptions. *)
Inductive markdown_outcome : Set :=
| MarkdownHtml (html : str)
| MarkdownImportError
| MarkdownException.

(** The two packages the cleaner imports: [markdown] and [html] are [None]
    when their import raises ImportError. ([import markdown] raising
    anything else ends as a converter that always raises
    [MarkdownException] does.) *)
Record packages : Set := {
  markdown : option (str -> markdown_outcome);
  html_unescape : option (str -> str)
}.

(** The branch [except ImportError]. *)
Definition clean_without_markdown (raw_text : str) : str :=
  let text_no_comments := raw_text in       (* re.sub(r'', '', raw_text): nothing changes *)
  let plain_text := Patterns.link_text text_no_comments in
  let plain_text := Patterns.drop_markup plain_text in
  strip plain_text.

Definition clean_text_from_markdown (pk : packages) (raw_text : str) : str :=
  match markdown pk with
  | None => clean_without_markdown raw_text
  | Some markdown_markdown =>
      let text_no_comments := raw_text in   (* re.sub(r'', '', raw_text): nothing changes *)
      match markdown_markdown text_no_comments with
      | MarkdownImportError => clean_without_markdown raw_text
      | MarkdownException => strip raw_text
      | MarkdownHtml html =>
          let html := replace (replace (replace html "<br />" ["010"%char]) "<br>" ["010"%char])
                              "</p>" ("</p>" ++ ["010"%char]) in
          let plain_text := Patterns.strip_tags html in
          let plain_text := Patterns.squeeze_blanks plain_text in
          let plain_text := Patterns.squeeze_blank_lines plain_text in
          let plain_text :=
            match html_unescape pk with
            | Some unescape => unescape plain_text
            | None => plain_text
            end in
          strip plain_text
      end
  end.

(** *** Reading a document *)

(** What the function reads from: [read_text] is [open(...).read()] with
    the UTF-8 codec, [docx_paragraphs] the texts of
    [docx.Document(path).paragraphs] and [odt_paragraphs] the texts
    extracted from the [text:p] elements of [odf_load(path)]; [None] is a
    call that raises, and for the two packages an import that failed. *)
Record file_readers : Type := {
  read_text : str -> option str;
  docx_paragraphs : option (str -> option (list str));
  odt_paragraphs : option (str -> option (list str))
}.

(** The value returned; what is logged and shown in message boxes is left
    out. *)
Definition read_document_content (r : file_readers) (file_path : str) : option str :=
  let file_extension := lower (snd (PosixPath.splitext file_path)) in
  if mem file_extension [".txt"; ".md"]
  then read_text r file_path
  else if str_eqb file_extension ".docx"
  then match docx_paragraphs r with
       | None => None
       | Some paragraphs =>
           match paragraphs file_path with
           | Some full_text => Some (join ["010"%char] full_text)
           | None => None
           end
       end
  else if str_eqb file_extension ".odt"
  then match odt_paragraphs r with
       | None => None
       | Some paragraphs =>
           match paragraphs file_path with
           | Some texts => Some (join ["010"%char] texts)
           | None => None
           end
       end
  else if str_eqb file_extension ".doc"
  then None
  else read_text r file_path.

(** *** The model cache and the download sequence *)

Section SpacyModelManager.
Variable Model : Type.

(** [spacy.load(model_name)] *)
Inductive load_outcome : Type :=
| Loaded (nlp : Model)
| LoadOSError
| LoadException.

(** [_model_cache]: a name is bound to a model or to [None]. [get_model]
    returns its value and leaves the cache changed. *)
Definition get_model (_model_cache : dict (option Model)) (spacy_load : str -> load_outcome)
           (model_name : str) : option Model * dict (option Model) :=
  let cached := dict_get_default _model_cache model_name None in
  if negb (dict_has _model_cache model_name)
     || match cached with None => true | Some _ => false end
  then match spacy_load model_name with
       | Loaded nlp =>
           let _model_cache := dict_set _model_cache model_name (Some nlp) in
           (dict_get_default _model_cache model_name None, _model_cache)
       | LoadOSError | LoadException =>
           (None, dict_set _model_cache model_name None)
       end
  else (dict_get_default _model_cache model_name None, _model_cache).

(** What the download of one model ends with: the worker's
    [finished_signal] with its success flag, or no signal at all when the
    worker was stopped. The [k]-th download started is given as [worker k]. *)
Definition download_worker : Type := nat -> str -> option bool.

(** [download_finished_signal.emit(success, model_name)] *)
Inductive download_finished : Set :=
| DownloadFinished (success : bool) (model_name : str).

(** The state a sequence ends in: the signal emitted if any, the cache,
    and the models whose download was started, in order. *)
Definition download_result : Type :=
  (option download_finished * dict (option Model) * list str)%type.

(** [next] is what [self.download_model_sequence(remaining_models_on_fail)]
    leads to. *)
Definition _handle_download_worker_finished
           (next : download_result)
           (_model_cache : dict (option Model))
           (success : bool) (model_name : str) (remaining_models_on_fail : list str)
  : download_result :=
  if success
  then (Some (DownloadFinished true model_name),
        if dict_has _model_cache model_name then dict_del _model_cache model_name
        else _model_cache,
        [])
  else match remaining_models_on_fail with
       | [] => (Some (DownloadFinished false model_name), _model_cache, [])
       | _ => next
       end.

(** [download_model_sequence]: each download runs in a thread of its own and
    its [finished_signal] calls the handler, which starts the next one; the
    sequence is followed from signal to signal, nothing else touching the
    cache in between. *)
Fixpoint download_model_sequence (worker : download_worker) (k : nat)
         (_model_cache : dict (option Model)) (models_to_try : list str) : download_result :=
  match models_to_try with
  | [] => (Some (DownloadFinished false "None"), _model_cache, [])
  | model_to_download :: remaining_models =>
      let '(signal, cache, started) :=
        match worker k model_to_download with
        | Some success =>
            _handle_download_worker_finished
              (download_model_sequence worker (S k) _model_cache remaining_models) _model_cache
              success model_to_download (if success then [] else remaining_models)
        | None => (None, _model_cache, [])
        end in
      (signal, cache, model_to_download :: started)
  end.

End SpacyModelManager.

(** *** The forms of the window *)

(** [run_anonymize]: the exclusions read from the line of the form. *)
Definition exclusions_of_form (exclusions_str : str) : list str :=
  match exclusions_str with
  | [] => []
  | _ =>
      map strip
          (filter (fun term => negb (match strip term with [] => true | _ => false end))
                  (split_sep exclusions_str ","))
  end.

Definition SPACY_ENTITY_LABELS_FOR_UI : list str :=
  ["PERSON"; "ORG"; "GPE"; "LOC"; "FAC"; "NORP"; "PRODUCT"; "EVENT"; "WORK_OF_ART";
   "DATE"; "MONEY"; "OTHER_TYPES"].

(** [run_generate_csv]: the labels gathered from the check boxes, in the
    order of the form; the extraction is then given [list(set(...))], the
    same labels without repetition in an order that is not fixed. *)
Definition selected_labels_for_extraction (isChecked : str -> bool) : list str :=
  flat_map (fun spacy_label =>
              if isChecked spacy_label
              then if str_eqb spacy_label "OTHER_TYPES"
                   then OTHER_TYPE_SPACY_LABELS
                   else [spacy_label]
              else [])
           SPACY_ENTITY_LABELS_FOR_UI.

(** [handle_generate_csv_finished_from_worker]: the rows handed to
    [csv.writer], the header first. *)
Definition rows_written (entity_data_for_csv : list entry) : list (list str) :=
  ["base_placeholder"; "real_entity_name"]
  :: map (fun '(placeholder, entity) => [placeholder; entity]) entity_data_for_csv.

(** [browse_file]: the output path suggested once an input file has been
    chosen in the anonymize tab ([suffix] "_anonymized") or in the
    de-anonymize tab ("_de-anonymized"). *)
Definition suggested_output (file_path suffix : str) : str :=
  let '(base_name, orig_ext) := PosixPath.splitext (PosixPath.basename file_path) in
  let input_dir := PosixPath.dirname file_path in
  PosixPath.join input_dir
                 (base_name ++ suffix ++ (if str_eqb (lower orig_ext) ".md" then ".md" else ".txt")).

(** [on_tab_changed]: the one suggested when the anonymize tab is filled
    from the last generated map. *)
Definition suggested_output_on_tab (last_original_doc_path_for_csv : str) : str :=
  PosixPath.join
    (PosixPath.dirname last_original_doc_path_for_csv)
    (fst (PosixPath.splitext (PosixPath.basename last_original_doc_path_for_csv))
     ++ "_anonymized"
     ++ (if endswith (lower last_original_doc_path_for_csv) ".md" then ".md" else ".txt")).

End Qtanon.

(** ** fake-plates.py

    The command-line predecessor. Its [anonymize_text], [de_anonymize_text]
    and [read_csv_mapping] differ from the functions above in what they
    print only (and, for [de_anonymize_text], in the list of known
    prefixes, which selects between two identical replacements); its
    extraction differs in substance. *)

Module FakePlates.
Import PyStr.

Definition target_labels_map : dict str :=
  [("PERSON", "person"); ("ORG", "org"); ("GPE", "place"); ("LOC", "place");
   ("FAC", "place"); ("NORP", "group"); ("EVENT", "event")].

Definition numeric_labels : list str :=
  ["MONEY"; "DATE"; "TIME"; "PERCENT"; "QUANTITY"; "ORDINAL"; "CARDINAL"].

Definition initial_extraction : extraction :=
  {| extracted_map := [];
     counts := [("person", 0); ("org", 0); ("place", 0); ("group", 0);
                ("event", 0); ("misc", 0)] |}.

(** One turn of [for ent in doc.ents]. [counts[label_prefix]] cannot raise
    KeyError: every prefix of [target_labels_map], and "misc", is a key
    from the start. *)
Definition extract_step (st : extraction) (e : ent) : extraction :=
  let entity_text := strip (text e) in
  let label_prefix := dict_get_default target_labels_map (label_ e) "misc" in
  if (match entity_text with [] => true | _ => false end) || (length entity_text <? 2)
  then st
  else if isnumeric entity_text && negb (mem (label_ e) numeric_labels)
  then st
  else if negb (dict_has (extracted_map st) entity_text)
  then
    let n := dict_get_default (counts st) label_prefix 0 + 1 in
    let base_placeholder := label_prefix ++ "_" ++ decimal n in
    {| extracted_map := dict_set (extracted_map st) entity_text base_placeholder;
       counts := dict_set (counts st) label_prefix n |}
  else st.

Definition extract_loop (ents : list ent) : extraction :=
  fold_left extract_step ents initial_extraction.

(** [nlp] is [None] when [spacy.load] raises OSError. *)
Definition extract_entities_to_csv_data
           (nlp : option (str -> list ent)) (clean_text_from_markdown : str -> str)
           (text_content : str) : option (list entry) :=
  match nlp with
  | None => None
  | Some nlp =>
      let cleaned_text := clean_text_from_markdown text_content in
      match cleaned_text, strip cleaned_text with
      | [], _ | _, [] => None
      | _, _ =>
          let st := extract_loop (nlp cleaned_text) in
          Some (map (fun '(entity, placeholder) => (placeholder, entity)) (extracted_map st))
      end
  end.

Definition anonymize_text (content : str) (replacements_data : list entry)
           (exclusions : list str) : outcome str * list entry :=
  let exclusions_lower := map lower exclusions in
  let replacements_data := sort_desc (fun x : entry => length (snd x)) replacements_data in
  (Qtanon.for_each (Qtanon.anonymize_step exclusions_lower) replacements_data content,
   replacements_data).

(** [PersonNameReplacer] is the class of Qtanon.py, word for word. *)
Definition known_prefixes : list str :=
  ["org_"; "place_"; "group_"; "misc_"; "entity_"; "fac_"; "event_"].

Definition de_anonymize_step (content : str) (row : entry) : outcome str :=
  let '(base_placeholder, real_entity) := row in
  match base_placeholder with
  | [] => Returned content
  | _ =>
      let bold_placeholder_pattern :=
        {| Re.word_bounded := false; Re.literal := "**" ++ base_placeholder ++ "**" |} in
      let replaced :=
        if startswith base_placeholder "person_"
        then
          let name_parts := split real_entity in
          let last_name := last name_parts real_entity in
          if match name_parts with [] => true | _ => false end || (length name_parts =? 1)
          then Re.sub bold_placeholder_pattern real_entity content
          else
            let replacer_instance := Qtanon.PersonNameReplacer_init real_entity last_name in
            Returned (Re.sub_callable bold_placeholder_pattern Qtanon.PersonNameReplacer_call
                                      replacer_instance content)
        else if existsb (startswith base_placeholder) known_prefixes
        then Re.sub bold_placeholder_pattern real_entity content
        else Re.sub bold_placeholder_pattern real_entity content in
      match replaced with
      | Returned content' => Returned content'
      | Raised ReError => Returned content       (* except re.error: continue *)
      | Raised e => Raised e
      end
  end.

Definition de_anonymize_text (content : str) (replacements_data : list entry)
  : outcome str * list entry :=
  let replacements_data := sort_desc (fun x : entry => length (fst x)) replacements_data in
  (Qtanon.for_each de_anonymize_step replacements_data content, replacements_data).

(** [read_csv_mapping]: the loop and the log lines are those of
    [read_csv_mapping_for_gui], worded differently. *)
Definition read_csv_mapping (csvfile : Qtanon.csv_source) (has_header : bool)
  : option (list entry) * list Qtanon.log_line :=
  match csvfile with
  | Qtanon.Missing => (None, [Qtanon.ErrorNotFound])
  | Qtanon.Stream rows raises =>
      let after_header :=
        if has_header
        then match rows with
             | _ :: rows' => Some (rows', [Qtanon.HeaderSkipped])
             | [] => if raises then None else Some ([], [Qtanon.WarnEmptyAfterHeader])
             end
        else Some (rows, []) in
      match after_header with
      | None => (None, [Qtanon.ErrorReading])
      | Some (rows, log) =>
          let '(replacements_map, log) := Qtanon.read_rows has_header 0 rows [] log in
          if raises
          then (None, log ++ [Qtanon.ErrorReading])
          else
            match replacements_map with
            | [] => (Some replacements_map, log ++ [Qtanon.WarnNoValidRows])
            | _ => (Some replacements_map, log)
            end
      end
  end.

(** [main]: the exclusions read from the line typed at the prompt. *)
Definition exclusions_of_input (line : str) : list str :=
  let exclusions_input := strip line in
  match exclusions_input with
  | [] => []
  | _ => map strip (split_sep exclusions_input ",")
  end.

(** [main], mode 1: the rows handed to [csv.writer], the header first. *)
Definition rows_written (entity_data_for_csv : list entry) : list (list str) :=
  ["base_placeholder"; "real_entity_name"]
  :: map (fun '(placeholder, entity) => [placeholder; entity]) entity_data_for_csv.

(** [get_file_path]: [lines] are the lines the user types at the prompt,
    one for each turn of the loop; [None] when they run out before an
    acceptable one (then [input] raises EOFError). *)
Fixpoint get_file_path (isfile : str -> bool) (prompt_message : str) (lines : list str)
  : option str :=
  match lines with
  | [] => None
  | line :: lines' =>
      let file_path := strip line in
      match file_path with
      | [] => get_file_path isfile prompt_message lines'
      | _ =>
          if negb (contains (lower prompt_message) "output")
             && negb (contains (lower prompt_message) "csv entity map")
             && negb (isfile file_path)
          then get_file_path isfile prompt_message lines'
          else Some file_path
      end
  end.

(** The prompts [main] calls [get_file_path] with. *)
Definition input_prompts : list str :=
  ["Enter path to the original text/Markdown file to extract entities from: ";
   "Enter path to the CSV mapping file: ";
   "Enter path to the original text file (to be anonymized): ";
   "Enter path to the anonymized text file (containing bold placeholders): "].

Definition suffix_map : dict str :=
  [("anonymize", "_anonymized_output"); ("de_anonymize", "_de-anonymized_output");
   ("generate_csv", "_entity_map.csv")].

(** [get_output_file_path]: [answer] is [None] when [prompt_user] is
    false, and the line typed at the prompt when it is true. *)
Definition get_output_file_path (input_text_file_path operation_mode : str)
           (answer : option str) : str :=
  let '(input_dir, input_filename) := PosixPath.split input_text_file_path in
  let '(input_name_part, input_ext_part) := PosixPath.splitext input_filename in
  let suggested_output_dir := match input_dir with [] => "." | _ => input_dir end in
  let filename_suffix := dict_get_default suffix_map operation_mode "_processed_output" in
  let actual_ext := if str_eqb operation_mode "generate_csv" then ".csv" else input_ext_part in
  let suggested_filename :=
    PosixPath.join suggested_output_dir (input_name_part ++ filename_suffix ++ actual_ext) in
  match answer with
  | Some line =>
      match strip line with
      | [] => suggested_filename
      | user_path => user_path
      end
  | None => suggested_filename
  end.

End FakePlates.

(** ** Vocabulary of the properties *)

(** Decreasing key order: nothing is placed before something of a larger key. *)
Definition longest_first (A : Type) (key : A -> nat) (l : list A) : Prop :=
  StronglySorted (fun a b => key b <= key a) l.

Definition entity_length (x : entry) : nat := length (snd x).
Definition placeholder_length (x : entry) : nat := length (fst x).

(** What a CSV row contributes, following the description of the mapping
    file: two columns at least, both non-empty once trimmed. *)
Definition row_entry (row : list str) : option entry :=
  match row with
  | c1 :: c2 :: _ =>
      match PyStr.strip c1, PyStr.strip c2 with
      | [], _ | _, [] => None
      | col1, col2 => Some (col1, col2)
      end
  | _ => None
  end.

Fixpoint valid_entries (rows : list (list str)) : list entry :=
  match rows with
  | [] => []
  | row :: rows' =>
      match row_entry row with
      | Some e => e :: valid_entries rows'
      | None => valid_entries rows'
      end
  end.

Definition dropped_rows (rows : list (list str)) : nat :=
  length (filter (fun row => match row_entry row with None => true | Some _ => false end) rows).

Definition is_row_warning (l : Qtanon.log_line) : bool :=
  match l with
  | Qtanon.WarnEmptyField _ | Qtanon.WarnInsufficientColumns _ => true
  | _ => false
  end.

Definition row_warnings (log : list Qtanon.log_line) : nat :=
  length (filter is_row_warning log).

(** An unreadable file, in the words of the specification: a missing
    file, a permission that is refused, a decode error. *)
Definition unreadable (f : Qtanon.csv_file) : Prop :=
  match f with
  | Qtanon.NoSuchFile | Qtanon.NotPermitted | Qtanon.Undecodable _ => True
  | Qtanon.Text _ => False
  end.

(** A file one of whose records holds a field larger than the limit of
    [csv.reader]. *)
Definition exceeds_field_limit (f : Qtanon.csv_file) : bool :=
  match f with
  | Qtanon.NoSuchFile | Qtanon.NotPermitted => false
  | Qtanon.Undecodable records | Qtanon.Text records =>
      negb (forallb Qtanon.within_field_limit records)
  end.

(** The invariant of the extraction loop, for a number format [fmt]: the
    placeholders handed out so far are pairwise distinct, and each is a
    category followed by a number that its counter has already reached. *)
Definition numbered (fmt : nat -> str) (st : extraction) : Prop :=
  NoDup (map snd (extracted_map st))
  /\ forall t ph, In (t, ph) (extracted_map st) ->
       exists c k, ph = c ++ "_" ++ fmt k /\ k <= dict_get_default (counts st) c 0.

(** Reading a decimal numeral back. *)
Definition decimal_value (s : str) : option nat :=
  option_map Nat.of_uint (DecimalString.NilEmpty.uint_of_string (String.string_of_list_ascii s)).

(** Is the literal found somewhere in [s], ignoring case? *)
Fixpoint occurs_ci (lit s : str) : bool :=
  Re.prefix_ci lit s
  || match s with
     | [] => false
     | _ :: s' => occurs_ci lit s'
     end.

(** An entry whose real entity, lowercased, is one of the lowercased
    exclusions. *)
Definition excluded (exclusions : list str) (row : entry) : bool :=
  mem (PyStr.lower (snd row)) (map PyStr.lower exclusions).

Definition empty_entity (row : entry) : bool :=
  match snd row with [] => true | _ => false end.

(** The character before the scanner once it has read [m], [prev] being
    the one before [m]. *)
Definition last_char (prev : option ascii) (m : str) : option ascii :=
  fold_left (fun _ c => Some c) m prev.

(** Where the literal is first found in [s], ignoring case. *)
Fixpoint first_occurrence (lit s : str) : option nat :=
  if Re.prefix_ci lit s then Some 0
  else match s with
       | [] => None
       | _ :: s' => option_map S (first_occurrence lit s')
       end.

(** A text cut at the occurrences of a literal, in document order: each
    pair holds the text before an occurrence and the occurrence itself;
    [tail] follows the last one. *)
Fixpoint text_with (occs : list (str * str)) (tail : str) : str :=
  match occs with
  | [] => tail
  | (pre, m) :: occs' => pre ++ m ++ text_with occs' tail
  end.

Fixpoint in_document_order (lit : str) (occs : list (str * str)) (tail : str) : bool :=
  match occs with
  | [] => negb (occurs_ci lit tail)
  | (pre, m) :: occs' =>
      (length m =? length lit)
      && match first_occurrence lit (pre ++ m) with
         | Some i => i =? length pre
         | None => false
         end
      && in_document_order lit occs' tail
  end.

(** The text with its first occurrence replaced by [first_time] and the
    others by [later]. *)
Fixpoint restored (occs : list (str * str)) (first_time later tail : str) : str :=
  match occs with
  | [] => tail
  | (pre, _) :: occs' => pre ++ first_time ++ restored occs' later later tail
  end.

(** The same cut, each occurrence replaced by what the callback returns
    for it. *)
Fixpoint replaced_by (St : Type) (repl : St -> str -> str * St) (st : St)
         (occs : list (str * str)) (tail : str) : str :=
  match occs with
  | [] => tail
  | (pre, m) :: occs' =>
      pre ++ fst (repl st m) ++ replaced_by repl (snd (repl st m)) occs' tail
  end.

Definition no_backslash (s : str) : bool :=
  forallb (fun c => negb (Ascii.eqb c "\")) s.

(** The pattern of de-anonymization for a placeholder. *)
Definition bold_pattern (placeholder : str) : Re.pattern :=
  {| Re.word_bounded := false; Re.literal := "**" ++ placeholder ++ "**" |}.

(** The template a replacement string without escapes parses to. *)
Definition literal_template (s : str) : list Re.template_item :=
  map (fun c => Re.Chars [c]) s.

(** The entries restored through [PersonNameReplacer]. *)
Definition multi_token_person (row : entry) : bool :=
  PyStr.startswith (fst row) "person_" && (2 <=? length (PyStr.split (snd row))).

(** *** Conditions of the round trip *)

(** No asterisk. *)
Definition plain (s : str) : bool :=
  forallb (fun c => negb (Ascii.eqb c "*")) s.

(** How many times the literal is found in [s], ignoring case. *)
Fixpoint count_ci (lit s : str) : nat :=
  (if Re.prefix_ci lit s then 1 else 0)
  + match s with
    | [] => 0
    | _ :: s' => count_ci lit s'
    end.

(** The pattern of anonymization for a real entity. *)
Definition entity_pattern (e : str) : Re.pattern :=
  {| Re.word_bounded := true; Re.literal := e |}.

(** Does the pattern match somewhere in [s], [prev] being the character
    before [s]? *)
Fixpoint found (p : Re.pattern) (prev : option ascii) (s : str) : bool :=
  Re.match_here p prev s
  || match s with
     | [] => false
     | c :: s' => found p (Some c) s'
     end.

(** Wherever the entity matches in [s] as a whole word, ignoring case, it
    is written there exactly as in [e]. *)
Fixpoint exact_words (e : str) (prev : option ascii) (s : str) : bool :=
  implb (Re.match_here (entity_pattern e) prev s) (PyStr.startswith s e)
  && match s with
     | [] => true
     | c :: s' => exact_words e (Some c) s'
     end.

Fixpoint distinct (l : list str) : bool :=
  match l with
  | [] => true
  | x :: l' => negb (mem x l') && distinct l'
  end.

(** Two strings that are equal when case is ignored: of the same length,
    and one read in the other by the matcher. *)
Definition equal_ci (a b : str) : bool :=
  (length a =? length b) && Re.prefix_ci a b.

(** No string of the list is equal to a later one when case is ignored. *)
Fixpoint distinct_ci (l : list str) : bool :=
  match l with
  | [] => true
  | x :: l' => negb (existsb (equal_ci x) l') && distinct_ci l'
  end.

Definition is_empty (s : str) : bool :=
  match s with [] => true | _ => false end.

(** What the round trip asks of one entry, for the text [T] and the whole
    list [E]: a placeholder that is not empty and holds no asterisk and no
    backslash, and does not occur in the text; a real entity without
    asterisk or backslash, written in the text as in the mapping wherever it
    matches as a whole word, and matching in no bolded placeholder; and,
    when the entry is restored through [PersonNameReplacer], at most one
    occurrence in the text. *)
Definition round_trip_entry (T : str) (E : list entry) (row : entry) : bool :=
  negb (is_empty (fst row)) && plain (fst row) && no_backslash (fst row)
  && negb (occurs_ci (fst row) T)
  && plain (snd row) && no_backslash (snd row)
  && exact_words (snd row) None T
  && forallb (fun q => negb (found (entity_pattern (snd row)) None ("**" ++ fst q ++ "**"))) E
  && (negb (multi_token_person row) || (count_ci (snd row) T <=? 1)).

(** [anon_of L A T]: the text [A] is [T] in which some occurrences of real
    entities of [L] are replaced by their bolded placeholders. *)
Inductive anon_of (L : list entry) : str -> str -> Prop :=
| anon_nil : anon_of L [] []
| anon_char (c : ascii) (A T : str) :
    anon_of L A T -> anon_of L (c :: A) (c :: T)
| anon_ph (p e A T : str) :
    In (p, e) L -> anon_of L A T -> anon_of L ("**" ++ p ++ "**" ++ A) (e ++ T).

(** The same, keeping track of word boundaries. An [edge] is what stands
    just before the point reached: nothing, a character of the text, or a
    placeholder, put for an entity that ended with [y]. *)
Inductive edge : Set :=
| AtStart
| AfterChar (c : ascii)
| AfterEntity (y : ascii).

(** The character before that point, in the original and in the
    anonymized text. *)
Definition seen_in_text (s : edge) : option ascii :=
  match s with
  | AtStart => None
  | AfterChar c => Some c
  | AfterEntity y => Some y
  end.

Definition seen_in_anon (s : edge) : option ascii :=
  match s with
  | AtStart => None
  | AfterChar c => Some c
  | AfterEntity _ => Some "*"%char
  end.

Definition after_run (s : edge) (m : str) : edge :=
  fold_left (fun _ c => AfterChar c) m s.

(** [words_of L s A T]: as [anon_of], and wherever a placeholder touches a
    character of the text, the entity it stands for had a word boundary
    with that character. *)
Inductive words_of (L : list entry) : edge -> str -> str -> Prop :=
| words_nil (s : edge) : words_of L s [] []
| words_char (s : edge) (c : ascii) (A T : str) :
    (forall y, s = AfterEntity y -> Re.boundary (Some y) (Some c) = true) ->
    words_of L (AfterChar c) A T ->
    words_of L s (c :: A) (c :: T)
| words_ph (s : edge) (p e A T : str) :
    In (p, e) L ->
    e <> [] ->
    (forall c, s = AfterChar c -> Re.boundary (Some c) (hd_error e) = true) ->
    words_of L (AfterEntity (last e "*"%char)) A T ->
    words_of L s ("**" ++ p ++ "**" ++ A) (e ++ T).

(** How the edge of the text being read relates to the edge of the text
    being written: the same, or a character that has just become the end
    of a replaced entity. *)
Inductive handover : edge -> edge -> str -> Prop :=
| same_edge (s : edge) (A : str) : handover s s A
| new_entity (y : ascii) (A : str) :
    Re.boundary (Some y) (hd_error A) = true ->
    handover (AfterChar y) (AfterEntity y) A.

(** The entries left once the placeholder [p] has been restored. *)
Definition other_placeholder (p : str) (row : entry) : bool :=
  negb (str_eqb (PyStr.lower (fst row)) (PyStr.lower p)).

(** *** The extraction loop *)

(** The strings of [l] in order, each kept the first time it comes;
    [seen] holds those that came before. *)
Fixpoint first_seen (seen l : list str) : list str :=
  match l with
  | [] => []
  | x :: l' => if mem x seen then first_seen seen l' else x :: first_seen (seen ++ [x]) l'
  end.

Definition trimmed_text (d : ent) : str := PyStr.strip (text d).

(** The detections the loop of Qtanon.py goes on with: a selected label,
    and two characters at least once trimmed. *)
Definition qtanon_takes (selected_spacy_labels : list str) (d : ent) : bool :=
  (mem (label_ d) selected_spacy_labels
   || (mem "OTHER_TYPES" selected_spacy_labels && mem (label_ d) Qtanon.OTHER_TYPE_SPACY_LABELS))
  && (2 <=? length (trimmed_text d)).

(** The category it files them under. *)
Definition qtanon_category (d : ent) : str :=
  let label_prefix := dict_get_default Qtanon.placeholder_prefix_map (label_ d) "misc" in
  if PyStr.isnumeric (trimmed_text d) && mem label_prefix ["person"; "org"; "place"; "thing"]
  then "misc" else label_prefix.

(** The same for fake-plates.py. *)
Definition fake_plates_takes (d : ent) : bool :=
  (2 <=? length (trimmed_text d))
  && negb (PyStr.isnumeric (trimmed_text d) && negb (mem (label_ d) FakePlates.numeric_labels)).

Definition fake_plates_category (d : ent) : str :=
  dict_get_default FakePlates.target_labels_map (label_ d) "misc".

(** A loop that gives every detection it takes, unless its text already
    has a placeholder, the next number of its category. *)
Definition assign (takes : ent -> bool) (category : ent -> str) (fmt : nat -> str)
           (st : extraction) (d : ent) : extraction :=
  if takes d && negb (dict_has (extracted_map st) (trimmed_text d))
  then
    let n := dict_get_default (counts st) (category d) 0 + 1 in
    {| extracted_map := dict_set (extracted_map st) (trimmed_text d)
                                 (category d ++ "_" ++ fmt n);
       counts := dict_set (counts st) (category d) n |}
  else st.

(** The placeholders of a category. *)
Definition of_category (c : str) (placeholder : str) : bool :=
  PyStr.startswith placeholder (c ++ "_").

Definition qtanon_categories : list str := ["person"; "org"; "place"; "thing"; "misc"].

Definition fake_plates_categories : list str :=
  ["person"; "org"; "place"; "group"; "event"; "misc"].

(** The placeholders of category [c] among [l], in order, are numbered
    1, 2, ... up to [k]. *)
Definition numbered_from_one (fmt : nat -> str) (c : str) (l : list str) (k : nat) : Prop :=
  filter (of_category c) l = map (fun i => c ++ "_" ++ fmt i) (seq 1 k).

(** Two selections that hold the same labels. *)
Definition same_labels (l1 l2 : list str) : Prop := forall x, mem x l1 = mem x l2.

(** Neither empty nor with white space at either end. *)
Definition trimmed (s : str) : Prop := s <> [] /\ PyStr.strip s = s.

(** *** What the anonymized text shows *)

(** The edge of the text being written, against the edge [prev] of the
    text [s] being read: the same, or the closing asterisk of a
    placeholder put for an entity that had a word boundary with [s]. *)
Definition written_edge (prev prev' : option ascii) (s : str) : Prop :=
  prev' = prev \/ (prev' = Some "*"%char /\ Re.boundary prev (hd_error s) = true).

(** Wherever the pattern [cand] matches in [s], [prev] being the character
    before [s], the pattern [pat] matches too. *)
Definition covered (cand pat : Re.pattern) (prev : option ascii) (s : str) : Prop :=
  forall a b,
    s = a ++ b ->
    Re.match_here cand (last_char prev a) b = true ->
    Re.match_here pat (last_char prev a) b = true.

(** The condition under which the anonymized text hides the real
    entities: no placeholder holds a backslash, no real entity holds an
    asterisk, and no real entity stands as a whole word inside a bolded
    placeholder of the list. *)
Definition hiding (replacements_data : list entry) : bool :=
  forallb (fun row => no_backslash (fst row)) replacements_data
  && forallb (fun row => plain (snd row)) replacements_data
  && forallb (fun row =>
                forallb (fun q => negb (found (entity_pattern (snd row)) None
                                              ("**" ++ fst q ++ "**")))
                        replacements_data)
             replacements_data.

(** *** The download sequence *)

(** The downloads started for [models], the first of them being the
    [k]-th, all end in failure. *)
Fixpoint all_fail (worker : Qtanon.download_worker) (k : nat) (models : list str) : bool :=
  match models with
  | [] => true
  | model :: models' =>
      match worker k model with
      | Some false => all_fail worker (S k) models'
      | _ => false
      end
  end.

(** * Properties *)

(** ** Sorting *)

Section SortDesc.
Variable A : Type.
Variable key : A -> nat.

Lemma insert_desc_perm (x : A) (l : list A) :
  Permutation (x :: l) (insert_desc key x l).
Proof.
  induction l as [|y l IH]; simpl; [reflexivity|].
  destruct (key x <? key y).
  - rewrite perm_swap. now apply perm_skip.
  - reflexivity.
Qed.

Lemma sort_desc_perm (l : list A) : Permutation l (sort_desc key l).
Proof.
  induction l as [|x l IH]; simpl; [constructor|].
  rewrite <- insert_desc_perm. now apply perm_skip.
Qed.

Lemma insert_desc_sorted (x : A) (l : list A) :
  longest_first key l -> longest_first key (insert_desc key x l).
Proof.
  unfold longest_first.
  induction l as [|y l IH]; simpl; intros Hs.
  - repeat constructor.
  - apply StronglySorted_inv in Hs as [Hs Hy].
    destruct (key x <? key y) eqn:E.
    + apply Nat.ltb_lt in E. constructor; [auto|].
      eapply Permutation_Forall; [apply insert_desc_perm|].
      constructor; [lia|assumption].
    + apply Nat.ltb_ge in E. constructor.
      * constructor; assumption.
      * constructor; [assumption|].
        eapply Forall_impl; [|exact Hy]. simpl. intros; lia.
Qed.

Lemma sort_desc_sorted (l : list A) : longest_first key (sort_desc key l).
Proof.
  induction l as [|x l IH]; simpl; [constructor|].
  now apply insert_desc_sorted.
Qed.

Lemma insert_desc_head (x : A) (l : list A) :
  Forall (fun z => key z <= key x) l -> insert_desc key x l = x :: l.
Proof.
  destruct l as [|y l]; simpl; [reflexivity|].
  intros H. inversion H; subst.
  destruct (key x <? key y) eqn:E; [apply Nat.ltb_lt in E; lia|reflexivity].
Qed.

Lemma insert_desc_filter (f : A -> bool) (x : A) (l : list A) :
  longest_first key l ->
  filter f (insert_desc key x l)
  = if f x then insert_desc key x (filter f l) else filter f l.
Proof.
  unfold longest_first.
  induction l as [|y l IH]; intros Hs.
  - simpl. destruct (f x); reflexivity.
  - apply StronglySorted_inv in Hs as [Hs Hy].
    simpl. destruct (key x <? key y) eqn:E.
    + simpl. rewrite (IH Hs).
      destruct (f y), (f x); simpl; try rewrite E; reflexivity.
    + apply Nat.ltb_ge in E.
      change (filter f (x :: y :: l)) with
        (if f x then x :: filter f (y :: l) else filter f (y :: l)).
      destruct (f x); [|reflexivity].
      symmetry. apply insert_desc_head.
      apply incl_Forall with (l1 := y :: l).
      * intros z Hz. apply filter_In in Hz. tauto.
      * constructor; [assumption|].
        eapply Forall_impl; [|exact Hy]. simpl. intros; lia.
Qed.

Lemma sort_desc_filter (f : A -> bool) (l : list A) :
  sort_desc key (filter f l) = filter f (sort_desc key l).
Proof.
  induction l as [|x l IH]; [reflexivity|].
  simpl. rewrite insert_desc_filter by apply sort_desc_sorted.
  destruct (f x); simpl; now rewrite IH.
Qed.

Lemma sort_desc_same_key (k : nat) (l : list A) :
  Forall (fun x => key x = k) l -> sort_desc key l = l.
Proof.
  induction l as [|x l IH]; intros H; [reflexivity|].
  inversion H as [|x' l' Hx Hl]; subst. simpl. rewrite (IH Hl).
  apply insert_desc_head. eapply Forall_impl; [|exact Hl].
  simpl. intros z Hz. lia.
Qed.

(** The sort is stable: elements of equal key keep their order. *)
Lemma sort_desc_stable (k : nat) (l : list A) :
  filter (fun x => key x =? k) (sort_desc key l) = filter (fun x => key x =? k) l.
Proof.
  rewrite <- sort_desc_filter. apply sort_desc_same_key with (k := k).
  apply Forall_forall. intros x Hx. apply filter_In in Hx as [_ Hx].
  now apply Nat.eqb_eq.
Qed.

End SortDesc.

(** ** Order of application and the caller's list *)

(** C4. [anonymize_text_logic] applies the entries in the order of the list
    it leaves behind, which holds the caller's entries rearranged so that no
    entry comes before one with a longer real entity; in "John Smith is
    here" the entity "John Smith" is therefore replaced whole and "Smith"
    finds nothing left to replace. The same holds for [anonymize_text] of
    fake-plates.py. *)
Theorem anonymize_longest_entity_first :
  (forall content replacements_data exclusions,
      let applied := snd (Qtanon.anonymize_text_logic content replacements_data exclusions) in
      fst (Qtanon.anonymize_text_logic content replacements_data exclusions)
      = Qtanon.for_each (Qtanon.anonymize_step (map PyStr.lower exclusions)) applied content
      /\ Permutation replacements_data applied
      /\ longest_first entity_length applied)
  /\ fst (Qtanon.anonymize_text_logic "John Smith is here"
            [("person_001", "Smith"); ("person_002", "John Smith")] [])
     = Returned "**person_002** is here"
  /\ fst (FakePlates.anonymize_text "John Smith is here"
            [("person_001", "Smith"); ("person_002", "John Smith")] [])
     = Returned "**person_002** is here".
Proof.
  split; [|split; reflexivity].
  intros content replacements_data exclusions applied. subst applied. simpl.
  split; [reflexivity|]. split.
  - apply sort_desc_perm.
  - apply sort_desc_sorted.
Qed.

(** C9. Both directions sort the list they are given: what the caller holds
    after the call is its list in decreasing order of entity length
    (anonymize) or of placeholder length (de-anonymize), entries of equal
    length in the order they had, and for some lists this is not the order
    the caller had put them in. *)
Theorem substitution_sorts_callers_list :
  (forall content replacements_data exclusions,
      snd (Qtanon.anonymize_text_logic content replacements_data exclusions)
      = sort_desc entity_length replacements_data)
  /\ (forall content replacements_data,
      snd (Qtanon.de_anonymize_text_logic content replacements_data)
      = sort_desc placeholder_length replacements_data)
  /\ (forall replacements_data,
      Permutation replacements_data (sort_desc entity_length replacements_data)
      /\ longest_first entity_length (sort_desc entity_length replacements_data)
      /\ Permutation replacements_data (sort_desc placeholder_length replacements_data)
      /\ longest_first placeholder_length (sort_desc placeholder_length replacements_data))
  /\ (forall replacements_data n,
      filter (fun x => entity_length x =? n) (sort_desc entity_length replacements_data)
      = filter (fun x => entity_length x =? n) replacements_data
      /\ filter (fun x => placeholder_length x =? n)
                (sort_desc placeholder_length replacements_data)
         = filter (fun x => placeholder_length x =? n) replacements_data)
  /\ snd (Qtanon.anonymize_text_logic "Ann met Robert"
            [("person_001", "Ann"); ("person_002", "Robert")] [])
     = [("person_002", "Robert"); ("person_001", "Ann")]
  /\ snd (Qtanon.de_anonymize_text_logic "**org_1** and **person_001**"
            [("org_1", "Acme"); ("person_001", "Ann")])
     = [("person_001", "Ann"); ("org_1", "Acme")].
Proof.
  split; [reflexivity|]. split; [reflexivity|].
  split; [|split; [|split; reflexivity]].
  - intros replacements_data.
    repeat split; first [apply sort_desc_perm | apply sort_desc_sorted].
  - intros replacements_data n. split; apply sort_desc_stable.
Qed.

(** C10. With no entry (and no exclusion) every text comes back unchanged,
    from either direction. *)
Theorem empty_mapping_changes_nothing (content : str) :
  fst (Qtanon.anonymize_text_logic content [] []) = Returned content
  /\ fst (Qtanon.de_anonymize_text_logic content []) = Returned content.
Proof.
  split; reflexivity.
Qed.

(** ** Loading the mapping *)

Lemma row_warnings_app (l1 l2 : list Qtanon.log_line) :
  row_warnings (l1 ++ l2) = row_warnings l1 + row_warnings l2.
Proof.
  unfold row_warnings. now rewrite filter_app, length_app.
Qed.

Lemma read_rows_spec (has_header : bool) (rows : list (list str)) :
  forall i replacements_map log,
    fst (Qtanon.read_rows has_header i rows replacements_map log)
    = replacements_map ++ valid_entries rows
    /\ row_warnings (snd (Qtanon.read_rows has_header i rows replacements_map log))
       = row_warnings log + dropped_rows rows.
Proof.
  unfold dropped_rows.
  induction rows as [|row rows IH]; intros i acc log; simpl.
  - now rewrite app_nil_r, Nat.add_0_r.
  - destruct row as [|c1 [|c2 row]]; simpl.
    + destruct (IH (S i) acc (log ++ [Qtanon.WarnInsufficientColumns
                                         (if has_header then i + 2 else i + 1)])) as [E1 E2].
      rewrite E1, E2, row_warnings_app. split; [reflexivity|].
      unfold row_warnings; simpl; lia.
    + destruct (IH (S i) acc (log ++ [Qtanon.WarnInsufficientColumns
                                         (if has_header then i + 2 else i + 1)])) as [E1 E2].
      rewrite E1, E2, row_warnings_app. split; [reflexivity|].
      unfold row_warnings; simpl; lia.
    + destruct (PyStr.strip c1) as [|a col1] eqn:S1.
      * destruct (IH (S i) acc (log ++ [Qtanon.WarnEmptyField
                                           (if has_header then i + 2 else i + 1)])) as [E1 E2].
        rewrite E1, E2, row_warnings_app. split; [reflexivity|].
      unfold row_warnings; simpl; lia.
      * destruct (PyStr.strip c2) as [|b col2] eqn:S2.
        -- destruct (IH (S i) acc (log ++ [Qtanon.WarnEmptyField
                                             (if has_header then i + 2 else i + 1)])) as [E1 E2].
           rewrite E1, E2, row_warnings_app. split; [reflexivity|].
      unfold row_warnings; simpl; lia.
        -- destruct (IH (S i) (acc ++ [(a :: col1, b :: col2)]) log) as [E1 E2].
           split; [etransitivity; [exact E1|now rewrite <- app_assoc] | exact E2].
Qed.

Lemma read_stream_ends (rows : list (list str)) (has_header : bool) :
  let body := if has_header then tl rows else rows in
  let loaded := Qtanon.read_csv_mapping_for_gui (Qtanon.Stream rows false) has_header in
  fst loaded = Some (valid_entries body)
  /\ row_warnings (snd loaded) = dropped_rows body
  /\ (valid_entries body = [] -> In Qtanon.WarnNoValidRows (snd loaded)).
Proof.
  intros body loaded. subst loaded.
  unfold Qtanon.read_csv_mapping_for_gui.
  set (log0 := if has_header
               then match rows with [] => [Qtanon.WarnEmptyAfterHeader]
                               | _ => [Qtanon.HeaderSkipped] end
               else []).
  assert (E : (if has_header
               then match rows with
                    | _ :: rows' => Some (rows', [Qtanon.HeaderSkipped])
                    | [] => if false then None else Some ([], [Qtanon.WarnEmptyAfterHeader])
                    end
               else Some (rows, [])) = Some (body, log0)).
  { subst body log0. destruct has_header; [destruct rows|]; reflexivity. }
  rewrite E.
  destruct (read_rows_spec has_header body 0 [] log0) as [E1 E2].
  destruct (Qtanon.read_rows has_header 0 body [] log0) as [m log] eqn:R.
  simpl in E1, E2. subst m.
  assert (W0 : row_warnings log0 = 0).
  { subst log0. destruct has_header; [destruct rows|]; reflexivity. }
  destruct (valid_entries body) as [|e es] eqn:V; simpl.
  - split; [reflexivity|]. split.
    + rewrite row_warnings_app, E2, W0. unfold row_warnings; simpl; lia.
    + intros _. apply in_or_app. right. now left.
  - split; [reflexivity|]. split; [lia|discriminate].
Qed.

Lemma read_stream_raises (rows : list (list str)) (has_header : bool) :
  fst (Qtanon.read_csv_mapping_for_gui (Qtanon.Stream rows true) has_header) = None.
Proof.
  unfold Qtanon.read_csv_mapping_for_gui.
  destruct has_header; [destruct rows|]; cbn [fst];
    try reflexivity;
    match goal with
    | |- context [Qtanon.read_rows ?h ?i ?r ?m ?l] =>
        destruct (Qtanon.read_rows h i r m l); reflexivity
    end.
Qed.

Lemma csv_reader_raises (records : list (list str)) :
  snd (Qtanon.csv_reader records) = negb (forallb Qtanon.within_field_limit records).
Proof.
  induction records as [|record records IH]; [reflexivity|].
  cbn [Qtanon.csv_reader forallb].
  destruct (Qtanon.within_field_limit record); [|reflexivity].
  destruct (Qtanon.csv_reader records) as [rows raises]. exact IH.
Qed.

Lemma csv_reader_within (records : list (list str)) :
  forallb Qtanon.within_field_limit records = true ->
  Qtanon.csv_reader records = (records, false).
Proof.
  induction records as [|record records IH]; [reflexivity|].
  cbn [Qtanon.csv_reader forallb]. intros H. apply andb_prop in H as [H1 H2].
  now rewrite H1, (IH H2).
Qed.

Lemma open_text_within (records : list (list str)) :
  forallb Qtanon.within_field_limit records = true ->
  Qtanon.open_csv (Qtanon.Text records) = Qtanon.Stream records false.
Proof.
  intros H. unfold Qtanon.open_csv. now rewrite csv_reader_within.
Qed.

(** C7, as stated, fails: a file of text whose second record holds a field
    of 131073 characters is not unreadable, yet the loader returns [None]
    for it: [csv.reader] yields the first row, which is valid, and raises
    [csv.Error] at the second. *)
Lemma readable_file_fails_to_load :
  ~ unreadable
      (Qtanon.Text [["person_001"; "Jane Doe"];
                    ["org_001"; repeat "a"%char (N.to_nat 131073)]])
  /\ Qtanon.open_csv
       (Qtanon.Text [["person_001"; "Jane Doe"];
                     ["org_001"; repeat "a"%char (N.to_nat 131073)]])
     = Qtanon.Stream [["person_001"; "Jane Doe"]] true
  /\ Qtanon.read_csv_mapping_for_gui
       (Qtanon.open_csv
          (Qtanon.Text [["person_001"; "Jane Doe"];
                        ["org_001"; repeat "a"%char (N.to_nat 131073)]]))
       false
     = (None, [Qtanon.ErrorReading]).
Proof.
  split; [intros H; exact H|].
  split; vm_compute; reflexivity.
Qed.

(** C7, amended. For a file of text none of whose fields is larger than
    the limit of [csv.reader], the loader returns exactly the entries of
    the well-formed rows, in order, and logs one warning per dropped row. It
    returns [None] exactly when opening or reading raises: when the file is
    unreadable (missing, not permitted, not decodable) or when one of its
    records holds a field larger than the limit. An empty file of text
    gives the empty list and a warning. One single-column row and two valid
    rows load as the two valid entries. *)
Theorem csv_loading_drops_bad_rows_only :
  (forall (records : list (list str)) (has_header : bool),
      forallb Qtanon.within_field_limit records = true ->
      let body := if has_header then tl records else records in
      let loaded :=
        Qtanon.read_csv_mapping_for_gui (Qtanon.open_csv (Qtanon.Text records)) has_header in
      fst loaded = Some (valid_entries body)
      /\ row_warnings (snd loaded) = dropped_rows body
      /\ (valid_entries body = [] -> In Qtanon.WarnNoValidRows (snd loaded)))
  /\ (forall f has_header,
      fst (Qtanon.read_csv_mapping_for_gui (Qtanon.open_csv f) has_header) = None
      <-> unreadable f \/ exceeds_field_limit f = true)
  /\ (forall has_header,
      fst (Qtanon.read_csv_mapping_for_gui (Qtanon.open_csv (Qtanon.Text [])) has_header)
      = Some []
      /\ In Qtanon.WarnNoValidRows
            (snd (Qtanon.read_csv_mapping_for_gui (Qtanon.open_csv (Qtanon.Text []))
                                                  has_header)))
  /\ Qtanon.read_csv_mapping_for_gui
       (Qtanon.open_csv
          (Qtanon.Text [["person_001"]; ["person_002"; " Jane Doe "]; ["org_001"; "Acme"]]))
       false
     = (Some [("person_002", "Jane Doe"); ("org_001", "Acme")],
        [Qtanon.WarnInsufficientColumns 1]).
Proof.
  split; [|split; [|split]].
  - intros records has_header H. rewrite open_text_within by exact H.
    apply read_stream_ends.
  - intros f has_header. destruct f as [| |records|records]; cbn [unreadable exceeds_field_limit].
    + split; [intros _; now left|reflexivity].
    + split; [intros _; now left|intros _; apply read_stream_raises].
    + split; [intros _; now left|intros _; apply read_stream_raises].
    + unfold Qtanon.open_csv.
      pose proof (csv_reader_raises records) as Hr.
      destruct (Qtanon.csv_reader records) as [rows raises]. cbn [snd] in Hr.
      rewrite <- Hr. destruct raises.
      * split; [intros _; now right|intros _; apply read_stream_raises].
      * destruct (read_stream_ends rows has_header) as [E _]. cbv zeta in E. rewrite E.
        split; [discriminate|intros [[]|H]; discriminate].
  - intros has_header. destruct has_header; split; simpl; auto.
  - vm_compute. reflexivity.
Qed.

Lemma csv_loading_drops_bad_rows_only_witness :
  forallb Qtanon.within_field_limit
          [["placeholder"; "name"]; ["person_001"]; ["person_002"; " Jane Doe "]] = true
  /\ fst (Qtanon.read_csv_mapping_for_gui
            (Qtanon.open_csv
               (Qtanon.Text [["placeholder"; "name"]; ["person_001"];
                             ["person_002"; " Jane Doe "]]))
            true)
     = Some [("person_002", "Jane Doe")].
Proof.
  split; [vm_compute; reflexivity|].
  apply (proj1 csv_loading_drops_bad_rows_only
               [["placeholder"; "name"]; ["person_001"]; ["person_002"; " Jane Doe "]] true).
  vm_compute. reflexivity.
Defined.

(** ** The placeholder assigner *)

(** C2, as stated, fails in Qtanon.py: the span "42" labelled PERSON is
    purely numeric and resolves to the category "person", yet it receives
    the entry [misc_001] and the "misc" counter goes up. *)
Lemma numeric_person_gets_misc_placeholder :
  let d := {| text := "42"; label_ := "PERSON" |} in
  PyStr.isnumeric (PyStr.strip (text d)) = true
  /\ dict_get_default Qtanon.placeholder_prefix_map (label_ d) "misc" = "person"
  /\ Qtanon.extract_entities_to_csv_data (Some (fun _ => [d])) (fun t => t) "Room 42" ["PERSON"]
     = Some [("misc_001", "42")]
  /\ dict_get (counts (Qtanon.extract_loop ["PERSON"] [d])) "misc" = Some 1
  /\ dict_get (counts Qtanon.initial_extraction) "misc" = Some 0.
Proof.
  repeat split; reflexivity.
Qed.

(** C2, amended. In Qtanon.py a purely numeric span that resolves to
    person, org, place or thing is not skipped but filed under "misc": when
    its label is selected, its trimmed text has two characters or more and
    is new, it gets the next [misc_NNN] placeholder and the "misc" counter is
    incremented. In fake-plates.py a purely numeric span whose label is not
    one of MONEY, DATE, TIME, PERCENT, QUANTITY, ORDINAL, CARDINAL is
    skipped: no entry, no counter change. *)
Theorem numeric_span_is_refiled_or_skipped :
  (forall (selected_spacy_labels : list str) (st : extraction) (d : ent),
      let entity_text := PyStr.strip (text d) in
      let n := dict_get_default (counts st) "misc" 0 + 1 in
      mem (label_ d) selected_spacy_labels
      || (mem "OTHER_TYPES" selected_spacy_labels
          && mem (label_ d) Qtanon.OTHER_TYPE_SPACY_LABELS) = true ->
      PyStr.isnumeric entity_text = true ->
      2 <= length entity_text ->
      mem (dict_get_default Qtanon.placeholder_prefix_map (label_ d) "misc")
          ["person"; "org"; "place"; "thing"] = true ->
      dict_has (extracted_map st) entity_text = false ->
      Qtanon.extract_step selected_spacy_labels st d
      = {| extracted_map :=
             dict_set (extracted_map st) entity_text ("misc_" ++ PyStr.decimal_03 n);
           counts := dict_set (counts st) "misc" n |})
  /\ (forall (st : extraction) (d : ent),
      PyStr.isnumeric (PyStr.strip (text d)) = true ->
      mem (label_ d) FakePlates.numeric_labels = false ->
      FakePlates.extract_step st d = st).
Proof.
  split.
  - intros sel st d entity_text n Hsel Hnum Hlen Hcat Hnew.
    unfold Qtanon.extract_step. fold entity_text.
    replace (negb (mem (label_ d) sel)
             && negb (mem "OTHER_TYPES" sel && mem (label_ d) Qtanon.OTHER_TYPE_SPACY_LABELS))
      with false
      by (rewrite <- negb_orb, Hsel; reflexivity).
    replace ((match entity_text with [] => true | _ :: _ => false end)
             || (length entity_text <? 2)) with false.
    2:{ symmetry. apply orb_false_iff. split.
        - destruct entity_text; [simpl in Hlen; lia|reflexivity].
        - apply Nat.ltb_ge. exact Hlen. }
    rewrite Hnum, Hcat, Hnew. reflexivity.
  - intros st d Hnum Hlab.
    unfold FakePlates.extract_step.
    rewrite Hnum, Hlab. simpl.
    destruct (_ || _); reflexivity.
Qed.

Lemma numeric_span_is_refiled_or_skipped_witness :
  Qtanon.extract_step ["PERSON"] Qtanon.initial_extraction {| text := " 42 "; label_ := "PERSON" |}
  = {| extracted_map := [("42", "misc_001")];
       counts := [("person", 0); ("org", 0); ("place", 0); ("thing", 0); ("misc", 1)] |}
  /\ FakePlates.extract_step FakePlates.initial_extraction {| text := " 42 "; label_ := "PERSON" |}
     = FakePlates.initial_extraction.
Proof.
  destruct numeric_span_is_refiled_or_skipped as [HQ HF].
  split.
  - apply (HQ ["PERSON"] Qtanon.initial_extraction {| text := " 42 "; label_ := "PERSON" |});
      vm_compute; first [reflexivity | lia].
  - apply (HF FakePlates.initial_extraction {| text := " 42 "; label_ := "PERSON" |});
      reflexivity.
Defined.

Lemma str_eqb_eq (a b : str) : str_eqb a b = true <-> a = b.
Proof.
  unfold str_eqb. destruct (list_eq_dec ascii_dec a b); split; congruence.
Qed.

Lemma str_eqb_refl (a : str) : str_eqb a a = true.
Proof.
  now apply str_eqb_eq.
Qed.

Lemma str_eqb_neq (a b : str) : str_eqb a b = false <-> a <> b.
Proof.
  unfold str_eqb. destruct (list_eq_dec ascii_dec a b); split; congruence.
Qed.

Lemma dict_set_absent (V : Type) (d : dict V) (k : str) (v : V) :
  dict_has d k = false -> dict_set d k v = d ++ [(k, v)].
Proof.
  unfold dict_has.
  induction d as [|[k' v'] d IH]; simpl; [reflexivity|].
  destruct (str_eqb k k'); [discriminate|].
  intros H. now rewrite IH.
Qed.

Lemma dict_get_default_set (V : Type) (d : dict V) (k k' : str) (v dflt : V) :
  dict_get_default (dict_set d k v) k' dflt
  = if str_eqb k' k then v else dict_get_default d k' dflt.
Proof.
  unfold dict_get_default.
  induction d as [|[k0 v0] d IH]; simpl.
  - destruct (str_eqb k' k); reflexivity.
  - destruct (str_eqb k k0) eqn:E; simpl.
    + apply str_eqb_eq in E. subst k0.
      destruct (str_eqb k' k); reflexivity.
    + destruct (str_eqb k' k0) eqn:E'; [|exact IH].
      apply str_eqb_eq in E'. subst k0.
      destruct (str_eqb k' k) eqn:E''; [|reflexivity].
      apply str_eqb_eq in E''. subst k'. rewrite str_eqb_refl in E. discriminate.
Qed.

(** *** Decimal numerals *)

Lemma digits_no_underscore (d : Decimal.uint) :
  ~ In "_"%char (String.list_ascii_of_string (DecimalString.NilEmpty.string_of_uint d)).
Proof.
  induction d; simpl; intros H; try tauto;
    destruct H as [H|H]; try discriminate; tauto.
Qed.

Lemma decimal_no_underscore (n : nat) : ~ In "_"%char (PyStr.decimal n).
Proof.
  unfold PyStr.decimal.
  destruct (Nat.to_uint n) as [|d|d|d|d|d|d|d|d|d|d];
    [simpl; intros [H|[]]; discriminate| ..];
    match goal with
    | |- context [DecimalString.NilZero.string_of_uint ?u] => exact (digits_no_underscore u)
    end.
Qed.

Lemma decimal_03_no_underscore (n : nat) : ~ In "_"%char (PyStr.decimal_03 n).
Proof.
  unfold PyStr.decimal_03. intros H. apply in_app_or in H as [H|H].
  - apply repeat_spec in H. discriminate.
  - now apply decimal_no_underscore in H.
Qed.

Lemma decimal_value_decimal (n : nat) : decimal_value (PyStr.decimal n) = Some n.
Proof.
  unfold decimal_value, PyStr.decimal.
  rewrite String.string_of_list_ascii_of_string.
  assert (H : forall d,
             option_map Nat.of_uint
               (DecimalString.NilEmpty.uint_of_string (DecimalString.NilZero.string_of_uint d))
             = Some (Nat.of_uint d)).
  { intros d. destruct d; [reflexivity| ..];
      unfold DecimalString.NilZero.string_of_uint;
      rewrite DecimalString.NilEmpty.usu; reflexivity. }
  rewrite H. f_equal. apply DecimalNat.Unsigned.of_to.
Qed.

Lemma decimal_value_zero (s : str) :
  decimal_value ("0"%char :: s) = decimal_value s.
Proof.
  unfold decimal_value. simpl.
  destruct (DecimalString.NilEmpty.uint_of_string (String.string_of_list_ascii s));
    reflexivity.
Qed.

Lemma decimal_value_decimal_03 (n : nat) : decimal_value (PyStr.decimal_03 n) = Some n.
Proof.
  unfold PyStr.decimal_03.
  induction (3 - length (PyStr.decimal n)) as [|k IH]; simpl.
  - apply decimal_value_decimal.
  - now rewrite decimal_value_zero.
Qed.

Lemma decimal_inj (a b : nat) : PyStr.decimal a = PyStr.decimal b -> a = b.
Proof.
  intros H. apply (f_equal decimal_value) in H.
  rewrite !decimal_value_decimal in H. congruence.
Qed.

Lemma decimal_03_inj (a b : nat) : PyStr.decimal_03 a = PyStr.decimal_03 b -> a = b.
Proof.
  intros H. apply (f_equal decimal_value) in H.
  rewrite !decimal_value_decimal_03 in H. congruence.
Qed.

(** *** Placeholders split at their last underscore *)

Lemma split_at_first (A : Type) (x : A) (l1 l2 r1 r2 : list A) :
  ~ In x l1 -> ~ In x l2 -> l1 ++ x :: r1 = l2 ++ x :: r2 -> l1 = l2 /\ r1 = r2.
Proof.
  revert l2. induction l1 as [|a l1 IH]; intros [|b l2] H1 H2 E; simpl in *.
  - injection E as E. now split.
  - injection E as E1 E2. subst b. tauto.
  - injection E as E1 E2. subst a. tauto.
  - injection E as E1 E2. subst b.
    destruct (IH l2) as [-> ->]; tauto.
Qed.

Lemma split_at_last (A : Type) (x : A) (l1 l2 r1 r2 : list A) :
  ~ In x r1 -> ~ In x r2 -> l1 ++ x :: r1 = l2 ++ x :: r2 -> l1 = l2 /\ r1 = r2.
Proof.
  intros H1 H2 E. apply (f_equal (@rev A)) in E.
  rewrite !rev_app_distr in E. simpl in E. rewrite <- !app_assoc in E. simpl in E.
  apply split_at_first in E; try (rewrite <- in_rev; assumption).
  destruct E as [E1 E2].
  apply (f_equal (@rev A)) in E1, E2. rewrite !rev_involutive in E1, E2. now split.
Qed.

(** *** The numbering invariant *)

Section Numbering.
Variable fmt : nat -> str.
Hypothesis fmt_inj : forall a b, fmt a = fmt b -> a = b.
Hypothesis fmt_no_underscore : forall n, ~ In "_"%char (fmt n).

Lemma numbered_initial (cnt : dict nat) :
  numbered fmt {| extracted_map := []; counts := cnt |}.
Proof.
  split; simpl; [constructor|tauto].
Qed.

(** Admitting a new surface form under category [c]. *)
Lemma numbered_assign (st : extraction) (t c : str) :
  numbered fmt st ->
  dict_has (extracted_map st) t = false ->
  let n := dict_get_default (counts st) c 0 + 1 in
  numbered fmt {| extracted_map := dict_set (extracted_map st) t (c ++ "_" ++ fmt n);
                  counts := dict_set (counts st) c n |}.
Proof.
  intros [Hnd Hnum] Hnew n. unfold numbered. simpl extracted_map. simpl counts.
  rewrite dict_set_absent by exact Hnew. split.
  - rewrite map_app. simpl.
    apply NoDup_app; [assumption|repeat constructor; simpl; tauto|].
    intros ph Hin [Heq|[]]. subst ph.
    apply in_map_iff in Hin as [[t0 ph0] [Eph Hin]]. simpl in Eph. subst ph0.
    destruct (Hnum _ _ Hin) as (c0 & k & E & Hk).
    simpl in E. apply split_at_last in E; try apply fmt_no_underscore.
    destruct E as [-> E]. apply fmt_inj in E. subst n. lia.
  - intros t0 ph Hin. apply in_app_or in Hin as [Hin|[Hin|[]]].
    + destruct (Hnum _ _ Hin) as (c0 & k & E & Hk).
      exists c0, k. split; [assumption|].
      rewrite dict_get_default_set. destruct (str_eqb c0 c) eqn:Ec; [|assumption].
      apply str_eqb_eq in Ec. subst c0. lia.
    + injection Hin as <- <-. exists c, n. split; [reflexivity|].
      rewrite dict_get_default_set, str_eqb_refl. lia.
Qed.

End Numbering.

Lemma qtanon_extract_step_numbered (sel : list str) (st : extraction) (d : ent) :
  numbered PyStr.decimal_03 st -> numbered PyStr.decimal_03 (Qtanon.extract_step sel st d).
Proof.
  intros H. unfold Qtanon.extract_step.
  destruct (_ && _); [assumption|].
  destruct (_ || _); [assumption|].
  destruct (dict_has (extracted_map st) (PyStr.strip (text d))) eqn:Hnew; [assumption|].
  simpl negb. cbv iota.
  apply numbered_assign;
    auto using decimal_03_inj, decimal_03_no_underscore.
Qed.

Lemma fake_plates_extract_step_numbered (st : extraction) (d : ent) :
  numbered PyStr.decimal st -> numbered PyStr.decimal (FakePlates.extract_step st d).
Proof.
  intros H. unfold FakePlates.extract_step.
  destruct (_ || _); [assumption|].
  destruct (_ && _); [assumption|].
  destruct (dict_has (extracted_map st) (PyStr.strip (text d))) eqn:Hnew; [assumption|].
  simpl negb. cbv iota.
  apply numbered_assign;
    auto using decimal_inj, decimal_no_underscore.
Qed.

Lemma fold_left_invariant (A B : Type) (P : A -> Prop) (f : A -> B -> A) (l : list B) :
  (forall a b, P a -> P (f a b)) -> forall a, P a -> P (fold_left f l a).
Proof.
  intros Hf. induction l as [|b l IH]; simpl; auto.
Qed.

Lemma placeholders_of_rows (m : dict str) :
  map fst (map (fun '(entity, placeholder) => (placeholder, entity)) m) = map snd m.
Proof.
  induction m as [|[t ph] m IH]; simpl; [reflexivity|now rewrite IH].
Qed.

(** C8. Whatever the recognizer reports, the placeholders of the rows
    returned by [extract_entities_to_csv_data] are pairwise distinct, in
    Qtanon.py and in fake-plates.py alike; and a span whose trimmed text is
    already in the map (compared as exact strings) leaves the map and every
    counter as they are. *)
Theorem extracted_placeholders_are_distinct :
  (forall nlp clean_text_from_markdown text_content selected_spacy_labels,
      match Qtanon.extract_entities_to_csv_data nlp clean_text_from_markdown text_content
                                                selected_spacy_labels with
      | Some rows => NoDup (map fst rows)
      | None => True
      end)
  /\ (forall nlp clean_text_from_markdown text_content,
      match FakePlates.extract_entities_to_csv_data nlp clean_text_from_markdown text_content with
      | Some rows => NoDup (map fst rows)
      | None => True
      end)
  /\ (forall selected_spacy_labels ents,
      NoDup (map snd (extracted_map (Qtanon.extract_loop selected_spacy_labels ents))))
  /\ (forall ents, NoDup (map snd (extracted_map (FakePlates.extract_loop ents))))
  /\ (forall selected_spacy_labels st d,
      dict_has (extracted_map st) (PyStr.strip (text d)) = true ->
      Qtanon.extract_step selected_spacy_labels st d = st)
  /\ (forall st d,
      dict_has (extracted_map st) (PyStr.strip (text d)) = true ->
      FakePlates.extract_step st d = st).
Proof.
  assert (HQ : forall sel ents,
             NoDup (map snd (extracted_map (Qtanon.extract_loop sel ents)))).
  { intros sel ents.
    apply (fold_left_invariant (numbered PyStr.decimal_03)).
    - intros a b. apply qtanon_extract_step_numbered.
    - apply numbered_initial. }
  assert (HF : forall ents, NoDup (map snd (extracted_map (FakePlates.extract_loop ents)))).
  { intros ents.
    apply (fold_left_invariant (numbered PyStr.decimal)).
    - intros a b. apply fake_plates_extract_step_numbered.
    - apply numbered_initial. }
  repeat split.
  - intros nlp clean content sel. unfold Qtanon.extract_entities_to_csv_data.
    destruct nlp as [nlp|]; [|exact I].
    destruct (clean content); [exact I|].
    destruct (PyStr.strip _); [exact I|].
    rewrite placeholders_of_rows. apply HQ.
  - intros nlp clean content. unfold FakePlates.extract_entities_to_csv_data.
    destruct nlp as [nlp|]; [|exact I].
    destruct (clean content); [exact I|].
    destruct (PyStr.strip _); [exact I|].
    rewrite placeholders_of_rows. apply HF.
  - exact HQ.
  - exact HF.
  - intros sel st d H. unfold Qtanon.extract_step. rewrite H.
    destruct (_ && _); [reflexivity|]. destruct (_ || _); reflexivity.
  - intros st d H. unfold FakePlates.extract_step. rewrite H.
    destruct (_ || _); [reflexivity|]. destruct (_ && _); reflexivity.
Qed.

Lemma extracted_placeholders_are_distinct_witness :
  Qtanon.extract_step ["PERSON"]
    {| extracted_map := [("Ann", "person_001")]; counts := [("person", 1)] |}
    {| text := " Ann"; label_ := "PERSON" |}
  = {| extracted_map := [("Ann", "person_001")]; counts := [("person", 1)] |}.
Proof.
  apply (proj1 (proj2 (proj2 (proj2 (proj2 extracted_placeholders_are_distinct))))).
  reflexivity.
Defined.

(** ** Entries that anonymization skips *)

Lemma for_each_filter (step : str -> entry -> outcome str) (keep : entry -> bool)
      (rows : list entry) :
  (forall row content, keep row = false -> step content row = Returned content) ->
  forall content,
    Qtanon.for_each step (filter keep rows) content = Qtanon.for_each step rows content.
Proof.
  intros Hskip. induction rows as [|row rows IH]; intros content; simpl; [reflexivity|].
  destruct (keep row) eqn:K; simpl.
  - destruct (step content row); [apply IH|reflexivity].
  - rewrite (Hskip row content K). apply IH.
Qed.

(** Entries the loop passes over can as well be absent from the list. *)
Lemma anonymize_without_skipped (keep : entry -> bool) (exclusions : list str) :
  (forall row content,
      keep row = false ->
      Qtanon.anonymize_step (map PyStr.lower exclusions) content row = Returned content) ->
  forall content replacements_data,
    fst (Qtanon.anonymize_text_logic content (filter keep replacements_data) exclusions)
    = fst (Qtanon.anonymize_text_logic content replacements_data exclusions).
Proof.
  intros Hskip content replacements_data. unfold Qtanon.anonymize_text_logic. simpl.
  rewrite sort_desc_filter. now apply for_each_filter.
Qed.

Lemma anonymize_step_excluded (exclusions : list str) (row : entry) (content : str) :
  excluded exclusions row = true ->
  Qtanon.anonymize_step (map PyStr.lower exclusions) content row = Returned content.
Proof.
  destruct row as [p e]. unfold excluded, Qtanon.anonymize_step. simpl.
  intros ->. reflexivity.
Qed.

Lemma anonymize_step_empty (exclusions_lower : list str) (row : entry) (content : str) :
  empty_entity row = true ->
  Qtanon.anonymize_step exclusions_lower content row = Returned content.
Proof.
  destruct row as [p [|c e]]; [|discriminate]. intros _.
  unfold Qtanon.anonymize_step. destruct (mem _ _); reflexivity.
Qed.

(** C5, as stated, fails: the entity " " is empty once trimmed, yet it is
    not skipped; the space between two words is replaced. *)
Lemma blank_entity_is_substituted :
  PyStr.strip " " = ""
  /\ fst (Qtanon.anonymize_text_logic "Jane Doe" [("misc_001", " ")] [])
     = Returned "Jane**misc_001**Doe"
  /\ fst (FakePlates.anonymize_text "Jane Doe" [("misc_001", " ")] [])
     = Returned "Jane**misc_001**Doe".
Proof.
  repeat split; reflexivity.
Qed.

(** C5, amended. Every entry whose real entity is the empty string is
    skipped without an error: the result is the one obtained with those
    entries removed from the list, and a list of such entries alone returns
    the text unchanged. (No trimming takes place.) *)
Theorem empty_entity_is_skipped (content : str) (replacements_data : list entry)
        (exclusions : list str) :
  fst (Qtanon.anonymize_text_logic content replacements_data exclusions)
  = fst (Qtanon.anonymize_text_logic
           content (filter (fun row => negb (empty_entity row)) replacements_data) exclusions)
  /\ fst (FakePlates.anonymize_text content replacements_data exclusions)
     = fst (FakePlates.anonymize_text
              content (filter (fun row => negb (empty_entity row)) replacements_data) exclusions)
  /\ (forallb empty_entity replacements_data = true ->
      fst (Qtanon.anonymize_text_logic content replacements_data exclusions) = Returned content).
Proof.
  assert (E : fst (Qtanon.anonymize_text_logic content replacements_data exclusions)
              = fst (Qtanon.anonymize_text_logic
                       content (filter (fun row => negb (empty_entity row)) replacements_data)
                       exclusions)).
  { symmetry. apply anonymize_without_skipped.
    intros row c H. apply anonymize_step_empty.
    now destruct (empty_entity row). }
  split; [exact E|]. split; [exact E|].
  intros Hall. rewrite E.
  replace (filter (fun row => negb (empty_entity row)) replacements_data) with (@nil entry);
    [reflexivity|].
  symmetry. induction replacements_data as [|row rows IH]; [reflexivity|].
  simpl in Hall. apply andb_true_iff in Hall as [H1 H2].
  simpl. rewrite H1. simpl. apply IH.
  - symmetry. apply anonymize_without_skipped.
    intros row' c H. apply anonymize_step_empty.
    now destruct (empty_entity row').
  - exact H2.
Qed.

Lemma empty_entity_is_skipped_witness :
  fst (Qtanon.anonymize_text_logic "Jane Doe" [("misc_001", "")] []) = Returned "Jane Doe".
Proof.
  apply (proj2 (proj2 (empty_entity_is_skipped "Jane Doe" [("misc_001", "")] []))).
  reflexivity.
Defined.

(** C6, as stated, fails: "John" is excluded, but the entry for "John
    Smith" is not, and replaces the text that contains it. *)
Lemma excluded_entity_inside_longer_entity :
  let replacements_data := [("person_001", "John"); ("person_002", "John Smith")] in
  excluded ["john"] ("person_001", "John") = true
  /\ occurs_ci "John" "John Smith" = true
  /\ fst (Qtanon.anonymize_text_logic "John Smith" replacements_data ["john"])
     = Returned "**person_002**"
  /\ occurs_ci "John" "**person_002**" = false.
Proof.
  repeat split; reflexivity.
Qed.

(** C6, amended. Every entry whose lowercased real entity is one of the
    lowercased exclusions is skipped: the result is the one obtained with
    those entries removed from the list (so an occurrence of the entity is
    touched only where another, non-excluded entry matches), and when every
    entry is excluded the text is returned unchanged. *)
Theorem excluded_entity_is_skipped (content : str) (replacements_data : list entry)
        (exclusions : list str) :
  fst (Qtanon.anonymize_text_logic content replacements_data exclusions)
  = fst (Qtanon.anonymize_text_logic
           content (filter (fun row => negb (excluded exclusions row)) replacements_data)
           exclusions)
  /\ (forallb (excluded exclusions) replacements_data = true ->
      fst (Qtanon.anonymize_text_logic content replacements_data exclusions) = Returned content).
Proof.
  assert (E : fst (Qtanon.anonymize_text_logic content replacements_data exclusions)
              = fst (Qtanon.anonymize_text_logic
                       content
                       (filter (fun row => negb (excluded exclusions row)) replacements_data)
                       exclusions)).
  { symmetry. apply anonymize_without_skipped.
    intros row c H. apply anonymize_step_excluded.
    now destruct (excluded exclusions row). }
  split; [exact E|].
  intros Hall. rewrite E.
  replace (filter (fun row => negb (excluded exclusions row)) replacements_data)
    with (@nil entry); [reflexivity|].
  clear E. symmetry. induction replacements_data as [|row rows IH]; [reflexivity|].
  simpl in Hall. apply andb_true_iff in Hall as [H1 H2].
  simpl. rewrite H1. simpl. now apply IH.
Qed.

Lemma excluded_entity_is_skipped_witness :
  fst (Qtanon.anonymize_text_logic "John met Ann" [("person_001", "John"); ("person_002", "ANN")]
                                   ["ann"; "JOHN"])
  = Returned "John met Ann".
Proof.
  apply (proj2 (excluded_entity_is_skipped "John met Ann"
                  [("person_001", "John"); ("person_002", "ANN")] ["ann"; "JOHN"])).
  reflexivity.
Defined.

(** ** The scanner *)

Lemma prefix_ci_app (lit a b : str) :
  length lit <= length a -> Re.prefix_ci lit (a ++ b) = Re.prefix_ci lit a.
Proof.
  revert a. induction lit as [|x lit IH]; intros [|c a] H; simpl in *;
    try reflexivity; try lia.
  rewrite IH by lia. reflexivity.
Qed.

Lemma prefix_ci_split (lit s : str) :
  Re.prefix_ci lit s = true ->
  exists m rest, s = m ++ rest /\ length m = length lit /\ PyStr.lower m = PyStr.lower lit.
Proof.
  revert s. induction lit as [|x lit IH]; intros s H.
  - exists [], s. now repeat split.
  - destruct s as [|c s]; [discriminate|]. simpl in H.
    apply andb_true_iff in H as [Hc H].
    destruct (IH s H) as (m & rest & -> & Hl & Hm).
    exists (c :: m), rest. simpl. repeat split; [congruence|].
    apply Ascii.eqb_eq in Hc. congruence.
Qed.

Lemma prefix_ci_lower (lit m rest : str) :
  PyStr.lower m = PyStr.lower lit -> Re.prefix_ci lit (m ++ rest) = true.
Proof.
  revert m. induction lit as [|x lit IH]; intros [|c m] H; simpl in *;
    try reflexivity; try discriminate.
  injection H as Hc H. rewrite Hc, Ascii.eqb_refl. simpl. now apply IH.
Qed.

Lemma firstn_exact (A : Type) (m rest : list A) (n : nat) :
  length m = n -> firstn n (m ++ rest) = m.
Proof.
  intros <-. rewrite firstn_app, Nat.sub_diag, firstn_all. simpl. apply app_nil_r.
Qed.

Lemma last_char_some (prev : option ascii) (c : ascii) (m : str) :
  last_char prev (c :: m) = last_char (Some c) m.
Proof.
  reflexivity.
Qed.

Section ScanFacts.
Variable St : Type.
Variable p : Re.pattern.
Variable repl : St -> str -> str * St.

Lemma scan_skip (m rest : str) :
  forall prev st,
    Re.scan p repl prev (length m) st (m ++ rest)
    = Re.scan p repl (last_char prev m) 0 st rest.
Proof.
  induction m as [|c m IH]; intros prev st.
  - destruct rest; reflexivity.
  - simpl. apply IH.
Qed.

Lemma match_here_prefix (prev : option ascii) (s : str) :
  Re.match_here p prev s = true -> Re.prefix_ci (Re.literal p) s = true.
Proof.
  unfold Re.match_here. destruct (length (Re.literal p)); [discriminate|].
  intros H. now apply andb_true_iff in H as [H _].
Qed.

(** At a match: the replacement, then the rest of the text. *)
Lemma scan_match (prev : option ascii) (st : St) (m rest : str) :
  Re.match_here p prev (m ++ rest) = true ->
  length m = length (Re.literal p) ->
  Re.scan p repl prev 0 st (m ++ rest)
  = fst (repl st m) ++ Re.scan p repl (last_char prev m) 0 (snd (repl st m)) rest.
Proof.
  intros Hm Hl. destruct m as [|c m].
  - unfold Re.match_here in Hm. rewrite <- Hl in Hm. discriminate.
  - simpl app. simpl Re.scan. simpl app in Hm. rewrite Hm.
    rewrite <- Hl.
    replace (firstn (length (c :: m)) (c :: m ++ rest)) with (c :: m)
      by (symmetry; apply (firstn_exact (c :: m) rest); reflexivity).
    destruct (repl st (c :: m)) as [r st'] eqn:R. simpl fst. simpl snd.
    f_equal. simpl length.
    replace (S (length m) - 1) with (length m) by lia. apply scan_skip.
Qed.

(** Where nothing matches the character is kept. *)
Lemma scan_no_match (prev : option ascii) (st : St) (c : ascii) (s : str) :
  Re.match_here p prev (c :: s) = false ->
  Re.scan p repl prev 0 st (c :: s) = c :: Re.scan p repl (Some c) 0 st s.
Proof.
  intros H. simpl. now rewrite H.
Qed.

Lemma scan_no_prefix (prev : option ascii) (st : St) (c : ascii) (s : str) :
  Re.prefix_ci (Re.literal p) (c :: s) = false ->
  Re.scan p repl prev 0 st (c :: s) = c :: Re.scan p repl (Some c) 0 st s.
Proof.
  intros H. apply scan_no_match.
  destruct (Re.match_here p prev (c :: s)) eqn:E; [|reflexivity].
  apply match_here_prefix in E. congruence.
Qed.

(** A text in which the literal does not occur is left as it is. *)
Lemma scan_no_occurrence (s : str) :
  occurs_ci (Re.literal p) s = false ->
  forall prev st, Re.scan p repl prev 0 st s = s.
Proof.
  induction s as [|c s IH]; intros H prev st; [reflexivity|].
  simpl in H. apply orb_false_iff in H as [H1 H2].
  rewrite scan_no_prefix by exact H1. f_equal. now apply IH.
Qed.

End ScanFacts.

(** *** Patterns without word boundaries *)

Section Unbounded.
Variable St : Type.
Variable lit : str.
Variable repl : St -> str -> str * St.
Hypothesis lit_not_empty : lit <> [].

Local Abbreviation pat := {| Re.word_bounded := false; Re.literal := lit |}.

Lemma match_here_unbounded (prev : option ascii) (s : str) :
  Re.match_here pat prev s = Re.prefix_ci lit s.
Proof.
  unfold Re.match_here. simpl.
  destruct lit as [|x l]; [congruence|]. simpl.
  now rewrite andb_true_r.
Qed.

Lemma scan_to_occurrence (pre m rest : str) :
  first_occurrence lit (pre ++ m) = Some (length pre) ->
  length m = length lit ->
  forall prev st,
  exists prev',
    Re.scan pat repl prev 0 st (pre ++ m ++ rest)
    = pre ++ fst (repl st m) ++ Re.scan pat repl prev' 0 (snd (repl st m)) rest.
Proof.
  intros Hfirst Hlen.
  induction pre as [|c pre IH]; intros prev st.
  - simpl app. simpl in Hfirst.
    assert (Hm : Re.prefix_ci lit m = true).
    { destruct m as [|c m']; simpl in Hfirst.
      - destruct (Re.prefix_ci lit []); [reflexivity|discriminate].
      - destruct (Re.prefix_ci lit (c :: m')); [reflexivity|].
        destruct (first_occurrence lit m'); discriminate. }
    exists (last_char prev m). apply scan_match; [|exact Hlen].
    rewrite match_here_unbounded, prefix_ci_app by lia. exact Hm.
  - simpl app in *. simpl in Hfirst.
    destruct (Re.prefix_ci lit (c :: pre ++ m)) eqn:Hc; [discriminate|].
    destruct (first_occurrence lit (pre ++ m)) as [i|] eqn:Hi; [|discriminate].
    injection Hfirst as ->.
    destruct (IH eq_refl (Some c) st) as [prev' E].
    exists prev'. rewrite scan_no_prefix.
    + now rewrite E.
    + simpl Re.literal.
      change (c :: pre ++ m ++ rest) with ((c :: pre) ++ m ++ rest).
      rewrite app_assoc, prefix_ci_app; [exact Hc|].
      simpl. rewrite length_app. lia.
Qed.

(** Every occurrence, in document order, is handed to the callback. *)
Lemma scan_occurrences (occs : list (str * str)) (tail : str) :
  in_document_order lit occs tail = true ->
  forall prev st,
    Re.scan pat repl prev 0 st (text_with occs tail) = replaced_by repl st occs tail.
Proof.
  induction occs as [|[pre m] occs IH]; intros H prev st; simpl in *.
  - apply scan_no_occurrence. simpl. now destruct (occurs_ci lit tail).
  - apply andb_true_iff in H as [H Hrest].
    apply andb_true_iff in H as [Hlen Hfirst].
    apply Nat.eqb_eq in Hlen.
    destruct (first_occurrence lit (pre ++ m)) as [i|] eqn:Hi; [|discriminate].
    apply Nat.eqb_eq in Hfirst. subst i.
    destruct (scan_to_occurrence pre m (text_with occs tail) Hi Hlen prev st) as [prev' E].
    rewrite E, IH by exact Hrest. reflexivity.
Qed.

End Unbounded.

(** *** Replacement strings without a backslash are taken literally *)

Lemma expand_literal_template (s m : str) : Re.expand (literal_template s) m = s.
Proof.
  induction s as [|c s IH]; simpl; [reflexivity|now rewrite IH].
Qed.

Lemma parse_plain_char (fuel : nat) (c : ascii) (s : str) :
  c <> "\"%char ->
  Re.parse_template_from (S fuel) (c :: s)
  = Re.then_items (Re.Chars [c]) (Re.parse_template_from fuel s).
Proof.
  intros Hc.
  destruct c as [b0 b1 b2 b3 b4 b5 b6 b7].
  destruct b0, b1, b2, b3, b4, b5, b6, b7; try reflexivity.
  congruence.
Qed.

Lemma parse_template_literal (s : str) :
  no_backslash s = true ->
  forall fuel, length s < fuel ->
    Re.parse_template_from fuel s = Returned (literal_template s).
Proof.
  induction s as [|c s IH]; intros H fuel Hf.
  - destruct fuel; [lia|reflexivity].
  - destruct fuel as [|fuel]; [lia|].
    simpl in H. apply andb_true_iff in H as [Hc H].
    rewrite parse_plain_char.
    + rewrite IH; [reflexivity|exact H|simpl in Hf; lia].
    + intros ->. discriminate.
Qed.

Lemma sub_literal (p : Re.pattern) (r content : str) :
  no_backslash r = true ->
  Re.sub p r content
  = Returned (Re.scan p (fun (_ : unit) m => (Re.expand (literal_template r) m, tt))
                      None 0 tt content).
Proof.
  intros H. unfold Re.sub, Re.parse_template.
  rewrite parse_template_literal; [reflexivity|exact H|lia].
Qed.

(** ** De-anonymization, one entry at a time *)

Lemma de_anonymize_step_person (content p e : str) :
  multi_token_person (p, e) = true ->
  Qtanon.de_anonymize_step content (p, e)
  = Returned (Re.sub_callable (bold_pattern p) Qtanon.PersonNameReplacer_call
                (Qtanon.PersonNameReplacer_init e (last (PyStr.split e) e)) content).
Proof.
  unfold multi_token_person. simpl fst. simpl snd. intros H.
  apply andb_true_iff in H as [Hp Hn]. apply Nat.leb_le in Hn.
  unfold Qtanon.de_anonymize_step.
  destruct p as [|c p]; [discriminate|].
  rewrite Hp.
  destruct (PyStr.split e) as [|t1 [|t2 ts]]; simpl in Hn; try lia.
  reflexivity.
Qed.

Lemma de_anonymize_step_uniform (content p e : str) :
  p <> [] ->
  multi_token_person (p, e) = false ->
  Qtanon.de_anonymize_step content (p, e)
  = match Re.sub (bold_pattern p) e content with
    | Returned content' => Returned content'
    | Raised ReError => Returned content
    | Raised x => Raised x
    end.
Proof.
  unfold multi_token_person. simpl fst. simpl snd. intros Hne H.
  unfold Qtanon.de_anonymize_step.
  destruct p as [|c p]; [congruence|].
  destruct (PyStr.startswith (c :: p) "person_") eqn:Hp.
  - rewrite andb_true_l in H. apply Nat.leb_gt in H.
    destruct (PyStr.split e) as [|t1 [|t2 ts]]; simpl in H; try lia; reflexivity.
  - destruct (existsb _ _); reflexivity.
Qed.

Lemma person_replacer_later (full_name last_name : str) (k : nat)
      (occs : list (str * str)) (tail : str) :
  replaced_by Qtanon.PersonNameReplacer_call
    {| Qtanon.full_name := full_name; Qtanon.last_name := last_name; Qtanon.count := S k |}
    occs tail
  = restored occs last_name last_name tail.
Proof.
  revert k. induction occs as [|[pre m] occs IH]; intros k; simpl; [reflexivity|].
  replace (k + 1) with (S k) by lia. simpl. now rewrite IH.
Qed.

Lemma person_replacer_first (full_name last_name : str)
      (occs : list (str * str)) (tail : str) :
  replaced_by Qtanon.PersonNameReplacer_call
    (Qtanon.PersonNameReplacer_init full_name last_name) occs tail
  = restored occs full_name last_name tail.
Proof.
  destruct occs as [|[pre m] occs]; simpl; [reflexivity|].
  now rewrite person_replacer_later.
Qed.

Lemma constant_replacement (r : str) (occs : list (str * str)) (tail : str) :
  replaced_by (fun (_ : unit) m => (Re.expand (literal_template r) m, tt)) tt occs tail
  = restored occs r r tail.
Proof.
  induction occs as [|[pre m] occs IH]; simpl; [reflexivity|].
  now rewrite expand_literal_template, IH.
Qed.

Lemma de_anonymize_single (content : str) (row : entry) :
  fst (Qtanon.de_anonymize_text_logic content [row]) = Qtanon.de_anonymize_step content row.
Proof.
  unfold Qtanon.de_anonymize_text_logic.
  cbn [sort_desc insert_desc fst Qtanon.for_each].
  destruct (Qtanon.de_anonymize_step content row); reflexivity.
Qed.

(** The restoration policy for person placeholders: in a text cut at the
    occurrences of the bolded placeholder (found ignoring case, left to
    right), a name of two tokens or more is written in full at the first
    occurrence and reduced to its last token at the others; a name of one
    token at most that holds no backslash is written as it is everywhere. *)
Theorem person_name_restoration (p e : str) (occs : list (str * str)) (tail : str) :
  PyStr.startswith p "person_" = true ->
  in_document_order ("**" ++ p ++ "**") occs tail = true ->
  (2 <= length (PyStr.split e) ->
   fst (Qtanon.de_anonymize_text_logic (text_with occs tail) [(p, e)])
   = Returned (restored occs e (last (PyStr.split e) e) tail))
  /\ (length (PyStr.split e) <= 1 ->
      no_backslash e = true ->
      fst (Qtanon.de_anonymize_text_logic (text_with occs tail) [(p, e)])
      = Returned (restored occs e e tail)).
Proof.
  intros Hp Hdoc.
  assert (Hlit : "**" ++ p ++ "**" <> []) by discriminate.
  rewrite de_anonymize_single.
  split.
  - intros Hn.
    rewrite de_anonymize_step_person.
    + unfold Re.sub_callable, bold_pattern.
      rewrite scan_occurrences by assumption.
      now rewrite person_replacer_first.
    + unfold multi_token_person. cbn [fst snd]. rewrite Hp, andb_true_l.
      now apply Nat.leb_le.
  - intros Hn Hb.
    rewrite de_anonymize_step_uniform.
    + rewrite sub_literal by exact Hb. unfold bold_pattern.
      rewrite scan_occurrences by assumption.
      now rewrite constant_replacement.
    + destruct p; discriminate.
    + unfold multi_token_person. cbn [fst snd]. rewrite Hp, andb_true_l.
      apply Nat.leb_gt. lia.
Qed.

Lemma person_name_restoration_witness :
  fst (Qtanon.de_anonymize_text_logic
         "**person_001** met **PERSON_001** and **person_001**."
         [("person_001", "Jane Doe")])
  = Returned "Jane Doe met Doe and Doe."
  /\ fst (Qtanon.de_anonymize_text_logic
         "**person_001** met **PERSON_001** and **person_001**."
         [("person_001", "Jane")])
  = Returned "Jane met Jane and Jane.".
Proof.
  split.
  - apply (proj1 (@person_name_restoration "person_001" "Jane Doe"
             [("", "**person_001**"); (" met ", "**PERSON_001**"); (" and ", "**person_001**")]
             "." eq_refl eq_refl)).
    vm_compute. lia.
  - apply (proj2 (@person_name_restoration "person_001" "Jane"
             [("", "**person_001**"); (" met ", "**PERSON_001**"); (" and ", "**person_001**")]
             "." eq_refl eq_refl)).
    + vm_compute. lia.
    + reflexivity.
Defined.

(** C3 fails on a single-token name that holds a backslash: the name is
    then read as a replacement template. The two-character sequence
    backslash-n of "Mc\nab" comes out as a line feed, and "Mc\Nab", whose
    escape is not a valid one, makes [re.sub] raise [re.error]: the entry is
    passed over and the placeholder stays. A name of two tokens goes through
    the callback and is written as it is. *)
Lemma backslash_in_single_token_name :
  PyStr.split "Mc\nab" = ["Mc\nab"]
  /\ fst (Qtanon.de_anonymize_text_logic "**person_001** called" [("person_001", "Mc\nab")])
     = Returned ("Mc" ++ [ascii_of_nat 10] ++ "ab called")
  /\ fst (Qtanon.de_anonymize_text_logic "**person_001** called" [("person_001", "Mc\Nab")])
     = Returned "**person_001** called"
  /\ fst (Qtanon.de_anonymize_text_logic "**person_001** called" [("person_001", "A Mc\nab")])
     = Returned "A Mc\nab called".
Proof.
  repeat split; reflexivity.
Qed.

(** ** The round trip *)

(** *** Characters and plain strings *)

Lemma lower_char_star (c : ascii) : PyStr.lower_char c = "*"%char -> c = "*"%char.
Proof.
  destruct c as [b0 b1 b2 b3 b4 b5 b6 b7].
  destruct b0, b1, b2, b3, b4, b5, b6, b7; vm_compute; congruence.
Qed.

Lemma same_letter_star (a c : ascii) :
  Ascii.eqb (PyStr.lower_char a) (PyStr.lower_char c) = true ->
  a = "*"%char <-> c = "*"%char.
Proof.
  intros H. apply Ascii.eqb_eq in H. split; intros ->.
  - apply lower_char_star. now rewrite <- H.
  - apply lower_char_star. now rewrite H.
Qed.

Lemma not_star (c : ascii) : negb (Ascii.eqb c "*") = true <-> c <> "*"%char.
Proof.
  rewrite negb_true_iff. apply Ascii.eqb_neq.
Qed.

Lemma plain_cons (c : ascii) (s : str) :
  plain (c :: s) = true <-> c <> "*"%char /\ plain s = true.
Proof.
  unfold plain. simpl. rewrite andb_true_iff, not_star. reflexivity.
Qed.

Lemma plain_lower (m lit : str) :
  PyStr.lower m = PyStr.lower lit -> plain lit = true -> plain m = true.
Proof.
  revert lit. induction m as [|c m IH]; intros [|x lit] E H; try discriminate;
    [reflexivity|].
  simpl in E. injection E as Ec E.
  apply plain_cons in H as [Hx H]. apply plain_cons. split.
  - intros ->. apply Hx. apply lower_char_star. now rewrite <- Ec.
  - now apply (IH lit).
Qed.

Lemma lower_app (a b : str) : PyStr.lower (a ++ b) = PyStr.lower a ++ PyStr.lower b.
Proof.
  apply map_app.
Qed.

Lemma lower_length (a b : str) : PyStr.lower a = PyStr.lower b -> length a = length b.
Proof.
  intros H. apply (f_equal (@length ascii)) in H.
  unfold PyStr.lower in H. now rewrite !length_map in H.
Qed.

(** A literal without asterisk is not found at an asterisk. *)
Lemma prefix_ci_at_star (lit s : str) :
  lit <> [] -> plain lit = true -> Re.prefix_ci lit ("*"%char :: s) = false.
Proof.
  destruct lit as [|x lit]; [congruence|]. intros _ H.
  apply plain_cons in H as [Hx _]. simpl.
  destruct (Ascii.eqb (PyStr.lower_char x) (PyStr.lower_char "*")) eqn:E; [|reflexivity].
  apply same_letter_star in E. tauto.
Qed.

(** Nor does it reach over one. *)
Lemma prefix_ci_before_star (lit u s : str) :
  plain lit = true ->
  Re.prefix_ci lit (u ++ "*"%char :: s) = true -> Re.prefix_ci lit u = true.
Proof.
  revert u. induction lit as [|x lit IH]; intros u H Hp; [reflexivity|].
  destruct u as [|c u].
  - simpl app in Hp. rewrite prefix_ci_at_star in Hp; [discriminate|discriminate|exact H].
  - simpl in *. apply andb_true_iff in Hp as [Hc Hp]. rewrite Hc. simpl.
    apply plain_cons in H as [_ H]. now apply IH.
Qed.

Lemma prefix_ci_left (a b s : str) :
  Re.prefix_ci (a ++ b) s = true -> Re.prefix_ci a s = true.
Proof.
  revert s. induction a as [|x a IH]; intros s H; [reflexivity|].
  destruct s as [|c s]; [discriminate|]. simpl in *.
  apply andb_true_iff in H as [Hc H]. rewrite Hc. simpl. now apply IH.
Qed.

(** Two runs without asterisk, each closed by an asterisk. *)
Lemma prefix_ci_runs (a b x y : str) :
  plain a = true -> plain b = true ->
  Re.prefix_ci (a ++ "*"%char :: x) (b ++ "*"%char :: y) = true ->
  PyStr.lower a = PyStr.lower b.
Proof.
  revert b. induction a as [|c a IH]; intros [|d b] Ha Hb H;
    cbn [app Re.prefix_ci PyStr.lower map] in *.
  - reflexivity.
  - apply andb_true_iff in H as [H _]. apply plain_cons in Hb as [Hd _].
    apply same_letter_star in H. tauto.
  - apply andb_true_iff in H as [H _]. apply plain_cons in Ha as [Hc _].
    apply same_letter_star in H. tauto.
  - apply andb_true_iff in H as [Hcd H].
    apply plain_cons in Ha as [_ Ha]. apply plain_cons in Hb as [_ Hb].
    apply Ascii.eqb_eq in Hcd. rewrite Hcd. f_equal. now apply IH.
Qed.

Lemma occurs_ci_prefix (lit s : str) : Re.prefix_ci lit s = true -> occurs_ci lit s = true.
Proof.
  intros H. destruct s; simpl; rewrite H; reflexivity.
Qed.

Lemma occurs_ci_app (lit a s : str) :
  occurs_ci lit (a ++ s) = false -> occurs_ci lit s = false.
Proof.
  induction a as [|c a IH]; intros H; [exact H|].
  simpl in H. apply orb_false_iff in H as [_ H]. now apply IH.
Qed.

Lemma count_ci_app (lit a s : str) : count_ci lit s <= count_ci lit (a ++ s).
Proof.
  induction a as [|c a IH]; simpl; [lia|].
  destruct (Re.prefix_ci lit (c :: a ++ s)); lia.
Qed.

Lemma count_ci_self (e s : str) : e <> [] -> 1 + count_ci e s <= count_ci e (e ++ s).
Proof.
  destruct e as [|c e]; [congruence|]. intros _.
  change ((c :: e) ++ s) with (c :: e ++ s).
  assert (H : Re.prefix_ci (c :: e) (c :: e ++ s) = true)
    by (apply (prefix_ci_lower (c :: e) (c :: e) s); reflexivity).
  change (count_ci (c :: e) (c :: e ++ s))
    with ((if Re.prefix_ci (c :: e) (c :: e ++ s) then 1 else 0) + count_ci (c :: e) (e ++ s)).
  rewrite H.
  pose proof (count_ci_app (c :: e) e s). lia.
Qed.

Lemma startswith_split (s lit : str) :
  PyStr.startswith s lit = true -> exists rest, s = lit ++ rest.
Proof.
  revert s. induction lit as [|x lit IH]; intros s H.
  - now exists s.
  - destruct s as [|c s]; [discriminate|]. simpl in H.
    apply andb_true_iff in H as [Hc H]. apply Ascii.eqb_eq in Hc. subst c.
    destruct (IH s H) as [rest ->]. now exists rest.
Qed.

Lemma app_same_length (A : Type) (a b x y : list A) :
  length a = length b -> a ++ x = b ++ y -> a = b /\ x = y.
Proof.
  revert b. induction a as [|c a IH]; intros [|d b] Hl E; simpl in *; try discriminate.
  - now split.
  - injection E as -> E. injection Hl as Hl.
    destruct (IH b Hl E) as [-> ->]. now split.
Qed.

(** *** Partly anonymized texts *)

Lemma prefix_ci_star_star (x y : str) :
  Re.prefix_ci ("*"%char :: x) ("*"%char :: y) = Re.prefix_ci x y.
Proof.
  cbn [Re.prefix_ci]. now rewrite Ascii.eqb_refl.
Qed.

Lemma prefix_ci_star_other (x y : str) (c : ascii) :
  c <> "*"%char -> Re.prefix_ci ("*"%char :: x) (c :: y) = false.
Proof.
  intros Hc. cbn [Re.prefix_ci].
  destruct (Ascii.eqb (PyStr.lower_char "*") (PyStr.lower_char c)) eqn:E; [|reflexivity].
  apply same_letter_star in E. destruct Hc. now apply E.
Qed.


Lemma anon_app (L : list entry) (m A T : str) :
  anon_of L A T -> anon_of L (m ++ A) (m ++ T).
Proof.
  induction m as [|c m IH]; intros HA; [exact HA|].
  simpl. apply anon_char; auto.
Qed.

(** A run without asterisk at the head of an anonymized text comes from the
    original. *)
Lemma anon_plain_prefix (L : list entry) (m A T : str) :
  plain m = true ->
  anon_of L (m ++ A) T ->
  exists T', T = m ++ T' /\ anon_of L A T'.
Proof.
  revert T. induction m as [|c m IH]; intros T H HA.
  - now exists T.
  - apply plain_cons in H as [Hc H]. simpl in HA.
    inversion HA as [|c' A' T' HA'|p e A' T' Hin HA']; subst.
    + destruct (IH T' H HA') as (T'' & -> & HA''). now exists T''.
    + congruence.
Qed.

Lemma anon_no_placeholder (L : list entry) (A T : str) :
  (forall row, ~ In row L) -> anon_of L A T -> A = T.
Proof.
  intros Hnone HA. induction HA as [|c A T HA IH|p e A T Hin HA IH].
  - reflexivity.
  - now rewrite IH.
  - now apply Hnone in Hin.
Qed.

(** A run without asterisk read at the head of an anonymized text is read
    at the head of the original. *)
Lemma anon_run_in_text (L : list entry) (A T lit : str) :
  plain lit = true ->
  anon_of L A T ->
  Re.prefix_ci lit A = true ->
  Re.prefix_ci lit T = true.
Proof.
  intros Hpl HA Hp.
  destruct (prefix_ci_split _ _ Hp) as (m & rest & -> & _ & Hlow).
  destruct (anon_plain_prefix _ _ (plain_lower _ _ Hlow Hpl) HA) as (T' & -> & _).
  now apply prefix_ci_lower.
Qed.

(** A placeholder that does not occur in the original is not read in the
    anonymized text after a single asterisk. *)
Lemma anon_star_then_run (L : list entry) (A T lit x : str) :
  lit <> [] -> plain lit = true ->
  anon_of L A T ->
  occurs_ci lit T = false ->
  Re.prefix_ci ("*"%char :: lit ++ x) A = false.
Proof.
  intros Hne Hpl HA Hocc.
  inversion HA as [|c A' T' HA'|p e A' T' Hin HA']; subst.
  - reflexivity.
  - destruct (Ascii.eqb c "*") eqn:Ec.
    + apply Ascii.eqb_eq in Ec. subst c. rewrite prefix_ci_star_star.
      destruct (Re.prefix_ci (lit ++ x) A') eqn:E; [|reflexivity].
      apply prefix_ci_left in E.
      apply (anon_run_in_text _ Hpl HA') in E.
      apply occurs_ci_prefix in E.
      apply (occurs_ci_app lit ["*"%char] T') in Hocc. congruence.
    + apply Ascii.eqb_neq in Ec. now apply prefix_ci_star_other.
  - cbn [app]. rewrite prefix_ci_star_star.
    destruct lit as [|a lit]; [congruence|].
    match goal with
    | |- ?X = false => destruct X eqn:E; [|reflexivity]
    end.
    apply prefix_ci_left in E.
    rewrite prefix_ci_at_star in E; [discriminate|discriminate|exact Hpl].
Qed.

(** *** Whole-word matches *)

Lemma last_char_last (prev : option ascii) (m : str) (d : ascii) :
  m <> [] -> last_char prev m = Some (last m d).
Proof.
  revert prev. induction m as [|c m IH]; intros prev H; [congruence|].
  destruct m as [|c' m]; [reflexivity|].
  rewrite last_char_some. rewrite IH by discriminate. reflexivity.
Qed.

Lemma nth_error_last_char (m rest : str) (c : ascii) :
  nth_error ((c :: m) ++ rest) (length m) = last_char None (c :: m).
Proof.
  revert c. induction m as [|d m IH]; intros c; [reflexivity|].
  exact (IH d).
Qed.

Lemma nth_error_after (A : Type) (m rest : list A) :
  nth_error (m ++ rest) (length m) = hd_error rest.
Proof.
  induction m as [|c m IH]; [destruct rest; reflexivity|exact IH].
Qed.

(** A match of an entity, read off the matched text [m] and what surrounds
    it. *)
Lemma match_here_bounded (e : str) (prev : option ascii) (m rest : str) :
  length m = length e -> e <> [] ->
  Re.match_here (entity_pattern e) prev (m ++ rest)
  = Re.prefix_ci e (m ++ rest)
    && (Re.boundary prev (hd_error m) && Re.boundary (last_char None m) (hd_error rest)).
Proof.
  intros Hl He. unfold Re.match_here. cbn [entity_pattern Re.literal Re.word_bounded].
  rewrite <- Hl. destruct m as [|c m]; [destruct e; [congruence|discriminate]|].
  simpl length. cbv iota beta. cbn [negb orb].
  rewrite nth_error_last_char.
  change (S (length m)) with (length (c :: m)). rewrite nth_error_after.
  reflexivity.
Qed.

Lemma prefix_ci_length (lit s : str) :
  Re.prefix_ci lit s = true -> length lit <= length s.
Proof.
  revert s. induction lit as [|x lit IH]; intros [|c s] H; simpl in *;
    try lia; try discriminate.
  apply andb_true_iff in H as [_ H]. apply IH in H. lia.
Qed.

(** A literal without asterisk is read before an asterisk or not at all. *)
Lemma prefix_ci_run (lit u Y : str) :
  plain lit = true ->
  Re.prefix_ci lit (u ++ "*"%char :: Y) = Re.prefix_ci lit u.
Proof.
  intros Hpl. destruct (Re.prefix_ci lit u) eqn:E.
  - rewrite prefix_ci_app; [exact E|now apply prefix_ci_length].
  - destruct (Re.prefix_ci lit (u ++ "*"%char :: Y)) eqn:E'; [|reflexivity].
    apply prefix_ci_before_star in E'; congruence.
Qed.

Lemma nth_error_run (u Y Y' : str) (n : nat) :
  n <= length u ->
  nth_error (u ++ "*"%char :: Y) n = nth_error (u ++ "*"%char :: Y') n.
Proof.
  revert n. induction u as [|c u IH]; intros n Hn.
  - simpl in Hn. replace n with 0 by lia. reflexivity.
  - destruct n as [|n]; [reflexivity|]. simpl in Hn. cbn [app nth_error].
    apply IH. lia.
Qed.

(** Whether an entity matches inside a run closed by an asterisk does not
    depend on what follows the asterisk. *)
Lemma match_here_run (e u Y Y' : str) (prev : option ascii) :
  plain e = true ->
  Re.match_here (entity_pattern e) prev (u ++ "*"%char :: Y)
  = Re.match_here (entity_pattern e) prev (u ++ "*"%char :: Y').
Proof.
  intros Hpl. unfold Re.match_here. cbn [entity_pattern Re.literal Re.word_bounded].
  destruct (length e) as [|k] eqn:Hl; [reflexivity|].
  rewrite !prefix_ci_run by exact Hpl.
  destruct (Re.prefix_ci e u) eqn:E; [|reflexivity].
  apply prefix_ci_length in E. cbn [andb negb orb].
  rewrite (nth_error_run u Y Y') by lia.
  rewrite (nth_error_run u Y Y' (n := S k)) by lia.
  destruct u; reflexivity.
Qed.

Lemma exact_words_app (e a s : str) :
  forall prev,
    exact_words e prev (a ++ s) = true -> exact_words e (last_char prev a) s = true.
Proof.
  induction a as [|c a IH]; intros prev H; [exact H|].
  cbn [app exact_words] in H. apply andb_true_iff in H as [_ H]. now apply IH.
Qed.

Lemma exact_words_head (e s : str) (prev : option ascii) :
  exact_words e prev s = true ->
  Re.match_here (entity_pattern e) prev s = true ->
  PyStr.startswith s e = true.
Proof.
  intros H Hm.
  destruct s; cbn [exact_words] in H; apply andb_true_iff in H as [H _];
    rewrite Hm in H; exact H.
Qed.

(** Where the entity matches, it is the entity itself. *)
Lemma exact_words_match (e m s : str) (prev : option ascii) :
  exact_words e prev (m ++ s) = true ->
  Re.match_here (entity_pattern e) prev (m ++ s) = true ->
  length m = length e ->
  m = e.
Proof.
  intros H Hm Hl.
  apply (@exact_words_head e (m ++ s) prev H) in Hm.
  apply startswith_split in Hm as [rest Hrest].
  apply app_same_length in Hrest; tauto.
Qed.

(** *** Partly anonymized texts and word boundaries *)

Lemma words_forget (L : list entry) (s : edge) (A T : str) :
  words_of L s A T -> anon_of L A T.
Proof.
  intros H. induction H; [constructor|now constructor|now constructor].
Qed.

Lemma words_refl (L : list entry) (T : str) :
  forall s, (forall y, s <> AfterEntity y) -> words_of L s T T.
Proof.
  induction T as [|c T IH]; intros s Hs; [constructor|].
  apply words_char.
  - intros y ->. now destruct (Hs y).
  - apply IH. discriminate.
Qed.

Lemma words_plain_prefix (L : list entry) (m A T : str) :
  plain m = true ->
  forall s,
    words_of L s (m ++ A) T ->
    exists T', T = m ++ T' /\ words_of L (after_run s m) A T'.
Proof.
  revert T. induction m as [|c m IH]; intros T H s HA.
  - now exists T.
  - apply plain_cons in H as [Hc H]. simpl in HA.
    inversion HA as [|s' c' A' T' Hcond HA'|s' p e A' T' Hin He Hcond HA']; subst.
    + destruct (IH T' H _ HA') as (T'' & -> & HA''). now exists T''.
    + congruence.
Qed.

(** What follows a text character in the anonymized text has a word
    boundary with it whenever what follows it in the original has one. *)
Lemma words_boundary_after (L : list entry) (z : ascii) (A T : str) :
  words_of L (AfterChar z) A T ->
  Re.boundary (Some z) (hd_error A) = true ->
  Re.boundary (Some z) (hd_error T) = true.
Proof.
  intros HA Hb.
  inversion HA as [|s' c' A' T' Hcond HA'|s' p e A' T' Hin He Hcond HA']; subst.
  - exact Hb.
  - exact Hb.
  - destruct e as [|c e]; [congruence|]. apply (Hcond z eq_refl).
Qed.

(** A whole-word match found in the anonymized text is one in the
    original. *)
Lemma words_match_in_text (L : list entry) (e m rest T : str) (s : edge) :
  e <> [] -> plain m = true -> length m = length e ->
  words_of L s (m ++ rest) T ->
  Re.match_here (entity_pattern e) (seen_in_anon s) (m ++ rest) = true ->
  exists T',
    T = m ++ T'
    /\ words_of L (after_run s m) rest T'
    /\ Re.match_here (entity_pattern e) (seen_in_text s) (m ++ T') = true
    /\ Re.boundary (seen_in_anon s) (hd_error m) = true
    /\ Re.boundary (last_char None m) (hd_error rest) = true.
Proof.
  intros He Hpl Hl HA Hm.
  destruct (@words_plain_prefix L m rest T Hpl s HA) as (T' & -> & HA').
  exists T'. split; [reflexivity|]. split; [exact HA'|].
  rewrite match_here_bounded in Hm |- * by assumption.
  apply andb_true_iff in Hm as [Hp Hb]. apply andb_true_iff in Hb as [Hleft Hright].
  assert (Hm0 : m <> []) by (destruct m; [destruct e; [congruence|discriminate]|discriminate]).
  repeat split; try assumption.
  apply andb_true_iff. split; [|apply andb_true_iff; split].
  - destruct (prefix_ci_split _ _ Hp) as (m' & rest' & E & Hl' & Hlow).
    apply app_same_length in E as [<- _]; [|congruence].
    now apply prefix_ci_lower.
  - destruct m as [|c m]; [congruence|]. cbn [hd_error] in *.
    destruct s as [|c0|y]; try exact Hleft.
    simpl in HA.
    inversion HA as [|s' c' A' T'' Hcond HA''|s' p e' A' T'' Hin He' Hcond HA'']; subst.
    + now apply Hcond.
    + apply plain_cons in Hpl as [Hc _]. congruence.
  - destruct m as [|c m]; [congruence|].
    rewrite (last_char_last None "*"%char) in * by discriminate.
    assert (Hs : after_run s (c :: m) = AfterChar (last (c :: m) "*"%char)).
    { clear. revert s c. induction m as [|d m IH]; intros s c; [reflexivity|].
      change (after_run s (c :: d :: m)) with (after_run (AfterChar c) (d :: m)).
      rewrite IH. reflexivity. }
    rewrite Hs in HA'. now apply (@words_boundary_after L _ rest T' HA').
Qed.

(** *** Anonymizing one entry *)

Section AnonymizeEntry.
Variable L : list entry.
Variable e0 bold : str.
Variable St : Type.
Variable repl : St -> str -> str * St.

Local Abbreviation pat := (entity_pattern e0).

Hypothesis e0_not_empty : e0 <> [].
Hypothesis e0_plain : plain e0 = true.
Hypothesis e0_outside_placeholders :
  forall q e', In (q, e') L -> found pat None ("**" ++ q ++ "**") = false.

Lemma scan_over_star (prev : option ascii) (st : St) (s : str) :
  Re.scan pat repl prev 0 st ("*"%char :: s)
  = "*"%char :: Re.scan pat repl (Some "*"%char) 0 st s.
Proof.
  apply scan_no_prefix. now apply prefix_ci_at_star.
Qed.

Lemma scan_over_run (q s : str) :
  forall prev st,
    found pat prev (q ++ "**") = false ->
    Re.scan pat repl prev 0 st (q ++ "*"%char :: s)
    = q ++ Re.scan pat repl (last_char prev q) 0 st ("*"%char :: s).
Proof.
  induction q as [|c q IH]; intros prev st H; [reflexivity|].
  cbn [app found] in H. apply orb_false_iff in H as [H1 H2].
  cbn [app]. rewrite scan_no_match.
  - rewrite IH by exact H2. reflexivity.
  - etransitivity; [|exact H1].
    apply (@match_here_run e0 (c :: q) s ["*"%char] prev e0_plain).
Qed.

Lemma scan_over_placeholder (q s : str) :
  found pat None ("**" ++ q ++ "**") = false ->
  forall prev st,
    Re.scan pat repl prev 0 st ("**" ++ q ++ "**" ++ s)
    = "**" ++ q ++ "**" ++ Re.scan pat repl (Some "*"%char) 0 st s.
Proof.
  intros H prev st. cbn [app] in *.
  cbn [found] in H.
  apply orb_false_iff in H as [_ H]. apply orb_false_iff in H as [_ H].
  rewrite !scan_over_star.
  rewrite scan_over_run by exact H.
  rewrite !scan_over_star. reflexivity.
Qed.

Hypothesis repl_bold : forall st m, fst (repl st m) = "**" ++ bold ++ "**".
Hypothesis bold_in_L : In (bold, e0) L.

(** Replacing the entity in a partly anonymized text gives a partly
    anonymized text of the same original. *)
Lemma scan_anonymizes (n : nat) :
  forall A T s_in s_out st,
    length A <= n ->
    words_of L s_in A T ->
    handover s_in s_out A ->
    exact_words e0 (seen_in_text s_in) T = true ->
    words_of L s_out (Re.scan pat repl (seen_in_anon s_in) 0 st A) T.
Proof.
  induction n as [|n IH]; intros A T s_in s_out st Hlen HA Hover Hcase.
  - destruct A; [|simpl in Hlen; lia].
    inversion HA; subst. constructor.
  - inversion HA as [|s' c A' T' Hcond HA'|s' q e' A' T' Hin He' Hcond HA']; subst.
    + constructor.
    + destruct (Re.match_here pat (seen_in_anon s_in) (c :: A')) eqn:Hm.
      * pose proof (match_here_prefix _ _ _ Hm) as Hp. cbn [Re.literal entity_pattern] in Hp.
        destruct (prefix_ci_split _ _ Hp) as (m & rest & Em & Hl & Hlow).
        assert (Hplain : plain m = true) by (apply (plain_lower _ _ Hlow e0_plain)).
        rewrite Em in HA, Hm, Hover |- *.
        destruct (@words_match_in_text L e0 m rest (c :: T') s_in
                    e0_not_empty Hplain Hl HA Hm)
          as (T'' & ET & HA'' & HmT & Hleft & Hright).
        rewrite ET in Hcase |- *.
        assert (m = e0) by (apply (@exact_words_match e0 m T'' _ Hcase HmT Hl)). subst m.
        rewrite scan_match by (exact Hm || reflexivity).
        rewrite repl_bold, <- !app_assoc.
        destruct e0 as [|c0 e1] eqn:Ee0; [congruence|]. rewrite <- Ee0 in *.
        assert (Hend : after_run s_in e0 = AfterChar (last e0 "*"%char)).
        { rewrite Ee0. clear. generalize s_in c0.
          induction e1 as [|d m IHm]; intros s c; [reflexivity|].
          change (after_run s (c :: d :: m)) with (after_run (AfterChar c) (d :: m)).
          rewrite IHm. reflexivity. }
        rewrite Hend in HA''.
        assert (Hlast : last_char (seen_in_anon s_in) e0 = Some (last e0 "*"%char))
          by (apply last_char_last; congruence).
        assert (Hlast' : last_char None e0 = Some (last e0 "*"%char))
          by (apply last_char_last; congruence).
        apply words_ph; [exact bold_in_L|congruence| |].
        -- intros c1 Hs. inversion Hover as [s1 A1|y A1 Hb]; subst; [|discriminate].
           exact Hleft.
        -- rewrite Hlast.
           change (Some (last e0 "*"%char)) with (seen_in_anon (AfterChar (last e0 "*"%char))).
           apply IH.
           ++ apply (f_equal (@length ascii)) in Em. rewrite length_app in Em.
              simpl in Em, Hlen. rewrite Ee0 in Em. simpl in Em. lia.
           ++ exact HA''.
           ++ apply new_entity. rewrite <- Hlast'. exact Hright.
           ++ cbn [seen_in_text]. rewrite <- (last_char_last (seen_in_text s_in) "*"%char)
                by congruence.
              now apply exact_words_app.
      * rewrite scan_no_match by exact Hm.
        apply words_char.
        -- intros y Hs. subst s_out.
           inversion Hover as [s1 A1|y1 A1 Hb]; subst.
           ++ now apply Hcond.
           ++ exact Hb.
        -- change (Some c) with (seen_in_anon (AfterChar c)).
           apply IH; [simpl in Hlen; lia|exact HA'|constructor|].
           apply (@exact_words_app e0 [c] T' _ Hcase).
    + rewrite (scan_over_placeholder q A' (e0_outside_placeholders _ _ Hin)).
      apply words_ph; [exact Hin|exact He'| |].
      * intros c Hs. inversion Hover as [s1 A1|y A1 Hb]; subst; [|discriminate].
        now apply Hcond.
      * change (Some "*"%char) with (seen_in_anon (AfterEntity (last e' "*"%char))).
        apply IH.
        -- rewrite !length_app in Hlen. simpl in Hlen. lia.
        -- exact HA'.
        -- constructor.
        -- cbn [seen_in_text].
           rewrite <- (last_char_last (seen_in_text s_in) "*"%char) by exact He'.
           now apply exact_words_app.
Qed.

End AnonymizeEntry.

(** *** Restoring one placeholder *)

Section RestoreEntry.
Variable L : list entry.
Variable p0 e0 : str.
Variable St : Type.
Variable repl : St -> str -> str * St.
Variable Inv : St -> str -> Prop.

Hypothesis p0_not_empty : p0 <> [].
Hypothesis p0_plain : plain p0 = true.
Hypothesis L_placeholders :
  forall q e', In (q, e') L ->
    q <> [] /\ plain q = true /\ (PyStr.lower q = PyStr.lower p0 -> e' = e0).
Hypothesis Inv_drop : forall st c T, Inv st (c :: T) -> Inv st T.
Hypothesis Inv_match :
  forall st m T, Inv st (e0 ++ T) -> fst (repl st m) = e0 /\ Inv (snd (repl st m)) T.

Lemma Inv_drop_app (st : St) (a T : str) : Inv st (a ++ T) -> Inv st T.
Proof.
  induction a as [|c a IH]; [auto|]. intros H. apply IH. now apply Inv_drop in H.
Qed.

Lemma scan_over_plain (u s : str) :
  plain u = true ->
  forall prev st,
    Re.scan (bold_pattern p0) repl prev 0 st (u ++ s)
    = u ++ Re.scan (bold_pattern p0) repl (last_char prev u) 0 st s.
Proof.
  induction u as [|c u IH]; intros H prev st; [reflexivity|].
  apply plain_cons in H as [Hc H].
  cbn [app]. rewrite scan_no_prefix.
  - now rewrite IH.
  - now apply prefix_ci_star_other.
Qed.

Lemma scan_over_other (q A T : str) :
  q <> [] -> plain q = true -> PyStr.lower q <> PyStr.lower p0 ->
  anon_of L A T -> occurs_ci p0 T = false ->
  forall prev st,
  exists prev',
    Re.scan (bold_pattern p0) repl prev 0 st ("**" ++ q ++ "**" ++ A)
    = "**" ++ q ++ "**" ++ Re.scan (bold_pattern p0) repl prev' 0 st A.
Proof.
  intros Hq Hplain Hother HA Hocc prev st.
  exists (Some "*"%char).
  cbn [app].
  (* the first asterisk *)
  rewrite scan_no_prefix.
  2:{ cbn [bold_pattern Re.literal app]. rewrite !prefix_ci_star_star.
      destruct (Re.prefix_ci (p0 ++ "**") (q ++ "*"%char :: "*"%char :: A)) eqn:E;
        [|reflexivity].
      apply prefix_ci_runs in E; [congruence|assumption|assumption]. }
  (* the second *)
  rewrite scan_no_prefix.
  2:{ cbn [bold_pattern Re.literal app]. rewrite prefix_ci_star_star.
      destruct q as [|c q]; [congruence|].
      apply plain_cons in Hplain as [Hc _]. cbn [app].
      now apply prefix_ci_star_other. }
  (* the placeholder itself *)
  rewrite scan_over_plain by exact Hplain.
  (* the closing asterisks *)
  rewrite scan_no_prefix.
  2:{ cbn [bold_pattern Re.literal app]. rewrite !prefix_ci_star_star.
      destruct (Re.prefix_ci (p0 ++ "**") A) eqn:E; [|reflexivity].
      apply prefix_ci_left in E.
      apply (anon_run_in_text _ p0_plain HA) in E.
      apply occurs_ci_prefix in E. congruence. }
  rewrite scan_no_prefix.
  2:{ cbn [bold_pattern Re.literal app]. rewrite prefix_ci_star_star.
      now apply (anon_star_then_run (L := L) (T := T)). }
  reflexivity.
Qed.

(** Restoring [p0] in a partly anonymized text leaves a partly anonymized
    text of the same original, in which [p0] no longer stands. *)
Lemma scan_restores (A T : str) :
  anon_of L A T ->
  forall prev st,
    occurs_ci p0 T = false ->
    Inv st T ->
    anon_of (filter (other_placeholder p0) L)
            (Re.scan (bold_pattern p0) repl prev 0 st A) T.
Proof.
  intros HA. induction HA as [|c A T HA IH|q e' A T Hin HA IH]; intros prev st Hocc HI.
  - constructor.
  - assert (Hocc' : occurs_ci p0 T = false) by now apply (occurs_ci_app p0 [c] T).
    rewrite scan_no_prefix.
    + apply anon_char. apply IH; [exact Hocc'|now apply Inv_drop in HI].
    + cbn [bold_pattern Re.literal app].
      destruct (Ascii.eqb c "*") eqn:Ec.
      * apply Ascii.eqb_eq in Ec. subst c. rewrite prefix_ci_star_star.
        now apply (anon_star_then_run (L := L) (T := T)).
      * apply Ascii.eqb_neq in Ec. now apply prefix_ci_star_other.
  - destruct (L_placeholders _ _ Hin) as (Hq & Hplain & Hsame).
    destruct (str_eqb (PyStr.lower q) (PyStr.lower p0)) eqn:Eq.
    + apply str_eqb_eq in Eq. specialize (Hsame Eq). subst e'.
      pose proof Inv_match as Hmatch.
      destruct (Hmatch st ("**" ++ q ++ "**") T HI) as [Hr HI'].
      replace ("**" ++ q ++ "**" ++ A) with (("**" ++ q ++ "**") ++ A)
        by now rewrite <- !app_assoc.
      rewrite scan_match.
      * rewrite Hr. apply anon_app.
        apply IH; [now apply occurs_ci_app in Hocc|exact HI'].
      * unfold bold_pattern. rewrite match_here_unbounded by discriminate.
        apply prefix_ci_lower. rewrite !lower_app. now rewrite Eq.
      * cbn [bold_pattern Re.literal]. rewrite !length_app.
        apply lower_length in Eq. now rewrite Eq.
    + apply str_eqb_neq in Eq.
      destruct (scan_over_other Hq Hplain Eq HA (occurs_ci_app _ _ _ Hocc) prev st)
        as [prev' E].
      rewrite E. apply anon_ph.
      * apply filter_In. split; [exact Hin|].
        unfold other_placeholder. cbn [fst]. apply negb_true_iff. now apply str_eqb_neq.
      * apply IH; [now apply occurs_ci_app in Hocc|now apply Inv_drop_app in HI].
Qed.

End RestoreEntry.

(** *** The conditions, spelled out *)

Lemma is_empty_false (s : str) : negb (is_empty s) = true <-> s <> [].
Proof.
  destruct s; simpl; split; intros; congruence.
Qed.

Lemma round_trip_entry_spec (T : str) (E : list entry) (row : entry) :
  round_trip_entry T E row = true ->
  fst row <> [] /\ plain (fst row) = true /\ no_backslash (fst row) = true
  /\ occurs_ci (fst row) T = false
  /\ plain (snd row) = true /\ no_backslash (snd row) = true
  /\ exact_words (snd row) None T = true
  /\ (forall q, In q E ->
        found (entity_pattern (snd row)) None ("**" ++ fst q ++ "**") = false)
  /\ (multi_token_person row = true -> count_ci (snd row) T <= 1).
Proof.
  unfold round_trip_entry. intros H.
  repeat (apply andb_true_iff in H as [H ?]).
  apply is_empty_false in H.
  repeat split; try assumption.
  - now apply negb_true_iff.
  - intros q Hq.
    match goal with
    | Ho : forallb _ E = true |- _ => rewrite forallb_forall in Ho; specialize (Ho q Hq)
    end.
    now apply negb_true_iff.
  - intros Hm.
    match goal with
    | Ho : negb (multi_token_person row) || _ = true |- _ => rewrite Hm in Ho; simpl in Ho
    end.
    now apply Nat.leb_le.
Qed.

Lemma mem_false (x : str) (l : list str) : mem x l = false -> ~ In x l.
Proof.
  unfold mem. intros H Hin.
  assert (existsb (str_eqb x) l = true)
    by (apply existsb_exists; exists x; split; [exact Hin|apply str_eqb_refl]).
  congruence.
Qed.

Lemma distinct_injective (A : Type) (f : A -> str) (l : list A) :
  distinct (map f l) = true ->
  forall x y, In x l -> In y l -> f x = f y -> x = y.
Proof.
  induction l as [|a l IH]; intros H x y Hx Hy E; [destruct Hx|].
  simpl in H. apply andb_true_iff in H as [Ha H].
  apply negb_true_iff, mem_false in Ha.
  destruct Hx as [->|Hx], Hy as [->|Hy].
  - reflexivity.
  - destruct Ha. rewrite E. now apply in_map.
  - destruct Ha. rewrite <- E. now apply in_map.
  - now apply IH.
Qed.

Lemma no_backslash_bold (p : str) :
  no_backslash p = true -> no_backslash ("**" ++ p ++ "**") = true.
Proof.
  intros H. unfold no_backslash in *. cbn [app forallb].
  rewrite forallb_app, H. reflexivity.
Qed.

(** *** The two loops *)

Section RoundTrip.
Variable T : str.
Variable E : list entry.
Hypothesis E_fit : forall row, In row E -> round_trip_entry T E row = true.
Hypothesis E_distinct : distinct (map (fun row => PyStr.lower (fst row)) E) = true.

Lemma anonymize_step_keeps (p e A : str) :
  In (p, e) E ->
  words_of E AtStart A T ->
  exists A', Qtanon.anonymize_step [] A (p, e) = Returned A' /\ words_of E AtStart A' T.
Proof.
  intros Hin HA.
  destruct (round_trip_entry_spec _ _ _ (E_fit _ Hin))
    as (_ & _ & Hpb & _ & Hep & _ & Hcase & Hout & _).
  cbn [fst snd] in *.
  unfold Qtanon.anonymize_step. cbn [mem existsb].
  destruct e as [|c e]; [now exists A|].
  rewrite sub_literal by now apply no_backslash_bold.
  eexists. split; [reflexivity|].
  change (@None ascii) with (seen_in_anon AtStart).
  apply scan_anonymizes with (bold := p) (n := length A).
  - discriminate.
  - exact Hep.
  - intros q e' Hq. apply (Hout (q, e') Hq).
  - intros st m. cbn [fst]. apply expand_literal_template.
  - exact Hin.
  - lia.
  - exact HA.
  - constructor.
  - exact Hcase.
Qed.

Lemma anonymize_loop_keeps (rows : list entry) :
  incl rows E ->
  forall A,
    words_of E AtStart A T ->
    exists A', Qtanon.for_each (Qtanon.anonymize_step []) rows A = Returned A'
               /\ words_of E AtStart A' T.
Proof.
  induction rows as [|[p e] rows IH]; intros Hrows A HA.
  - now exists A.
  - destruct (@anonymize_step_keeps p e A (Hrows (p, e) (or_introl eq_refl)) HA)
      as (A1 & E1 & HA1).
    destruct (IH (fun x Hx => Hrows x (or_intror Hx)) A1 HA1) as (A' & E' & HA').
    exists A'. split; [|exact HA'].
    cbn [Qtanon.for_each]. now rewrite E1.
Qed.

Lemma split_empty_entity (p e : str) : multi_token_person (p, e) = true -> e <> [].
Proof.
  unfold multi_token_person. intros H ->. cbn in H.
  now rewrite andb_false_r in H.
Qed.

Lemma de_anonymize_step_restores (L : list entry) (p e A : str) :
  incl L E ->
  In (p, e) E ->
  anon_of L A T ->
  exists A', Qtanon.de_anonymize_step A (p, e) = Returned A'
             /\ anon_of (filter (other_placeholder p) L) A' T.
Proof.
  intros HL Hin HA.
  destruct (round_trip_entry_spec _ _ _ (E_fit _ Hin))
    as (Hpne & Hpp & _ & Hocc & Hep & Heb & _ & _ & Hcount).
  cbn [fst snd] in *.
  assert (HLp : forall q e', In (q, e') L ->
              q <> [] /\ plain q = true /\ (PyStr.lower q = PyStr.lower p -> e' = e)).
  { intros q e' Hq. apply HL in Hq.
    destruct (round_trip_entry_spec _ _ _ (E_fit _ Hq)) as (Hqne & Hqp & _).
    cbn [fst] in *. repeat split; try assumption.
    intros Hlow.
    assert (Heq : (q, e') = (p, e))
      by (apply (distinct_injective _ _ E_distinct); assumption).
    congruence. }
  destruct (multi_token_person (p, e)) eqn:Hmulti.
  - rewrite de_anonymize_step_person by exact Hmulti.
    eexists. split; [reflexivity|].
    unfold Re.sub_callable.
    apply scan_restores
      with (e0 := e)
           (Inv := fun st T' =>
                     (Qtanon.count st = 0 /\ Qtanon.full_name st = e
                      /\ count_ci e T' <= 1)
                     \/ count_ci e T' = 0); try assumption.
    + intros st c T' [(H0 & Hf & Hc)|Hc].
      * left. repeat split; try assumption.
        pose proof (count_ci_app e [c] T'). simpl in *. lia.
      * right. pose proof (count_ci_app e [c] T'). simpl in *. lia.
    + intros st m T' HI.
      pose proof (@count_ci_self e T' (@split_empty_entity p e Hmulti)) as Hself.
      destruct HI as [(H0 & Hf & Hc)|Hc]; [|lia].
      unfold Qtanon.PersonNameReplacer_call. cbn [fst snd Qtanon.count Qtanon.full_name].
      rewrite H0. cbn. split; [exact Hf|]. right. lia.
    + left. cbn. repeat split. now apply Hcount.
  - rewrite de_anonymize_step_uniform by assumption.
    rewrite sub_literal by exact Heb.
    eexists. split; [reflexivity|].
    apply scan_restores with (e0 := e) (Inv := fun _ _ => True);
      try assumption; try tauto.
    intros st m T' _. split; [|exact I]. cbn [fst]. apply expand_literal_template.
Qed.

Lemma de_anonymize_loop_restores (rows : list entry) :
  incl rows E ->
  forall L A,
    incl L E ->
    anon_of L A T ->
    exists A',
      Qtanon.for_each Qtanon.de_anonymize_step rows A = Returned A'
      /\ anon_of (fold_left (fun L' row => filter (other_placeholder (fst row)) L') rows L)
                 A' T.
Proof.
  induction rows as [|[p e] rows IH]; intros Hrows L A HL HA.
  - now exists A.
  - destruct (@de_anonymize_step_restores L p e A HL (Hrows (p, e) (or_introl eq_refl)) HA)
      as (A1 & E1 & HA1).
    assert (HL1 : incl (filter (other_placeholder p) L) E)
      by (intros x Hx; apply HL; apply filter_In in Hx; tauto).
    destruct (IH (fun x Hx => Hrows x (or_intror Hx)) _ A1 HL1 HA1) as (A' & E' & HA').
    exists A'. split; [|exact HA'].
    cbn [Qtanon.for_each]. now rewrite E1.
Qed.

End RoundTrip.

Lemma remaining_entries (rows : list entry) :
  forall L x,
    In x (fold_left (fun L' row => filter (other_placeholder (fst row)) L') rows L) ->
    In x L /\ forall row, In row rows -> other_placeholder (fst row) x = true.
Proof.
  induction rows as [|row rows IH]; intros L x Hx; simpl in Hx.
  - split; [exact Hx|intros row []].
  - apply IH in Hx as [Hx Hrows]. apply filter_In in Hx as [Hx Hrow].
    split; [exact Hx|]. intros row' [<-|Hin]; auto.
Qed.


Lemma equal_ci_lower (a b : str) :
  equal_ci a b = str_eqb (PyStr.lower a) (PyStr.lower b).
Proof.
  assert (H : equal_ci a b = true <-> PyStr.lower a = PyStr.lower b).
  { unfold equal_ci. revert b. induction a as [|x a IH]; intros [|y b]; cbn [length Nat.eqb];
      try (split; [discriminate|discriminate]).
    - split; reflexivity.
    - cbn [Re.prefix_ci PyStr.lower map]. specialize (IH b). unfold PyStr.lower in IH.
      destruct (Ascii.eqb (PyStr.lower_char x) (PyStr.lower_char y)) eqn:Ec.
      + apply Ascii.eqb_eq in Ec. rewrite Ec, andb_true_l.
        split.
        * intros H. apply IH in H. now rewrite H.
        * intros [= H]. now apply IH.
      + rewrite andb_false_l, andb_false_r.
        split; [discriminate|]. intros [= H _]. apply Ascii.eqb_neq in Ec. contradiction. }
  destruct (str_eqb (PyStr.lower a) (PyStr.lower b)) eqn:E.
  - apply H. now apply str_eqb_eq.
  - destruct (equal_ci a b); [|reflexivity].
    apply str_eqb_neq in E. destruct E. now apply H.
Qed.

Lemma distinct_ci_lower (l : list str) : distinct_ci l = distinct (map PyStr.lower l).
Proof.
  induction l as [|x l IH]; [reflexivity|].
  cbn [distinct_ci distinct map]. rewrite IH. f_equal. f_equal.
  unfold mem. clear IH. induction l as [|y l IH]; [reflexivity|].
  cbn [existsb map]. now rewrite IH, equal_ci_lower.
Qed.



(** * Further properties *)

Lemma dict_has_mem (V : Type) (d : dict V) (k : str) : dict_has d k = mem k (map fst d).
Proof.
  unfold dict_has.
  induction d as [|[k' v] d IH]; simpl; [reflexivity|].
  destruct (str_eqb k k'); [reflexivity|exact IH].
Qed.

Lemma short_text (t : str) :
  (match t with [] => true | _ => false end) || (length t <? 2) = negb (2 <=? length t).
Proof.
  destruct t as [|a [|b t]]; reflexivity.
Qed.

Lemma qtanon_extract_step_assign (sel : list str) (st : extraction) (d : ent) :
  Qtanon.extract_step sel st d
  = assign (qtanon_takes sel) qtanon_category PyStr.decimal_03 st d.
Proof.
  unfold Qtanon.extract_step, assign, qtanon_takes, qtanon_category, trimmed_text.
  rewrite short_text.
  destruct (mem (label_ d) sel); destruct (mem "OTHER_TYPES" sel && mem (label_ d) Qtanon.OTHER_TYPE_SPACY_LABELS);
    cbn [negb andb orb]; try reflexivity;
    destruct (2 <=? length (PyStr.strip (text d))); cbn [negb andb orb]; try reflexivity;
    destruct (dict_has (extracted_map st) (PyStr.strip (text d))); reflexivity.
Qed.

Lemma fake_plates_extract_step_assign (st : extraction) (d : ent) :
  FakePlates.extract_step st d
  = assign fake_plates_takes fake_plates_category PyStr.decimal st d.
Proof.
  unfold FakePlates.extract_step, assign, fake_plates_takes, fake_plates_category, trimmed_text.
  rewrite short_text.
  destruct (2 <=? length (PyStr.strip (text d))); cbn [negb andb orb]; try reflexivity.
  destruct (PyStr.isnumeric (PyStr.strip (text d)) && negb (mem (label_ d) FakePlates.numeric_labels));
    cbn [negb andb orb]; reflexivity.
Qed.

Section Assign.
Variable takes : ent -> bool.
Variable category : ent -> str.
Variable fmt : nat -> str.

Lemma assign_keys (st : extraction) (d : ent) :
  map fst (extracted_map (assign takes category fmt st d))
  = if takes d && negb (mem (trimmed_text d) (map fst (extracted_map st)))
    then map fst (extracted_map st) ++ [trimmed_text d]
    else map fst (extracted_map st).
Proof.
  unfold assign. rewrite dict_has_mem.
  destruct (takes d && negb (mem (trimmed_text d) (map fst (extracted_map st)))) eqn:E;
    [|reflexivity].
  cbn [extracted_map]. rewrite dict_set_absent.
  - rewrite map_app. reflexivity.
  - rewrite dict_has_mem. apply andb_prop in E as [_ E]. now apply negb_true_iff.
Qed.

Lemma assign_loop_keys (ents : list ent) :
  forall st,
    map fst (extracted_map (fold_left (assign takes category fmt) ents st))
    = map fst (extracted_map st)
      ++ first_seen (map fst (extracted_map st)) (map trimmed_text (filter takes ents)).
Proof.
  induction ents as [|d ents IH]; intros st; cbn [fold_left filter map first_seen].
  - now rewrite app_nil_r.
  - rewrite IH, assign_keys.
    destruct (takes d); cbn [andb map first_seen]; [|reflexivity].
    destruct (mem (trimmed_text d) (map fst (extracted_map st))); cbn [negb].
    + reflexivity.
    + now rewrite <- app_assoc.
Qed.

Variable cats : list str.
Hypothesis cats_apart :
  forall c c' x, In c cats -> In c' cats -> of_category c (c' ++ "_" ++ x) = str_eqb c c'.
Hypothesis category_known : forall d, In (category d) cats.

Lemma assign_numbered (st : extraction) (d : ent) (c : str) :
  In c cats ->
  numbered_from_one fmt c (map snd (extracted_map st)) (dict_get_default (counts st) c 0) ->
  numbered_from_one fmt c (map snd (extracted_map (assign takes category fmt st d)))
                    (dict_get_default (counts (assign takes category fmt st d)) c 0).
Proof.
  intros Hc H. unfold assign.
  destruct (takes d && negb (dict_has (extracted_map st) (trimmed_text d))) eqn:E;
    [|exact H].
  cbn [extracted_map counts]. unfold numbered_from_one in *.
  apply andb_prop in E as [_ E]. apply negb_true_iff in E.
  rewrite dict_set_absent by exact E.
  rewrite map_app, filter_app, dict_get_default_set. cbn [map snd filter].
  rewrite cats_apart by auto.
  destruct (str_eqb c (category d)) eqn:Ec.
  - apply str_eqb_eq in Ec. subst c.
    rewrite seq_app, map_app, <- H. cbn [seq map]. now rewrite Nat.add_comm.
  - now rewrite app_nil_r.
Qed.

Lemma assign_categories (st : extraction) (d : ent) :
  Forall (fun ph => existsb (fun c => of_category c ph) cats = true)
         (map snd (extracted_map st)) ->
  Forall (fun ph => existsb (fun c => of_category c ph) cats = true)
         (map snd (extracted_map (assign takes category fmt st d))).
Proof.
  intros H. unfold assign.
  destruct (takes d && negb (dict_has (extracted_map st) (trimmed_text d))) eqn:E;
    [|exact H].
  cbn [extracted_map]. apply andb_prop in E as [_ E]. apply negb_true_iff in E.
  rewrite dict_set_absent by exact E. rewrite map_app. apply Forall_app. split; [exact H|].
  constructor; [|constructor]. cbn [snd].
  apply existsb_exists. exists (category d). split; [apply category_known|].
  rewrite cats_apart by auto. apply str_eqb_refl.
Qed.

Lemma assign_loop_numbered (ents : list ent) (c : str) :
  In c cats ->
  forall st,
    numbered_from_one fmt c (map snd (extracted_map st)) (dict_get_default (counts st) c 0) ->
    exists k,
      numbered_from_one fmt c
        (map snd (extracted_map (fold_left (assign takes category fmt) ents st))) k.
Proof.
  intros Hc. induction ents as [|d ents IH]; intros st H; cbn [fold_left].
  - eexists. exact H.
  - apply IH. now apply assign_numbered.
Qed.

Lemma assign_loop_categories (ents : list ent) :
  forall st,
    Forall (fun ph => existsb (fun c => of_category c ph) cats = true)
           (map snd (extracted_map st)) ->
    Forall (fun ph => existsb (fun c => of_category c ph) cats = true)
           (map snd (extracted_map (fold_left (assign takes category fmt) ents st))).
Proof.
  induction ents as [|d ents IH]; intros st H; cbn [fold_left]; [exact H|].
  apply IH. now apply assign_categories.
Qed.

End Assign.

Lemma fold_left_ext (A B : Type) (f g : A -> B -> A) (l : list B) :
  (forall a b, f a b = g a b) -> forall a, fold_left f l a = fold_left g l a.
Proof.
  intros H. induction l as [|b l IH]; intros a; simpl; [reflexivity|].
  now rewrite H, IH.
Qed.

Lemma qtanon_extract_rows (nlp : str -> list ent) (clean : str -> str) (text_content : str)
      (sel : list str) (rows : list entry) :
  Qtanon.extract_entities_to_csv_data (Some nlp) clean text_content sel = Some rows ->
  rows = map (fun '(entity, placeholder) => (placeholder, entity))
             (extracted_map (fold_left (assign (qtanon_takes sel) qtanon_category PyStr.decimal_03)
                                       (nlp (clean text_content)) Qtanon.initial_extraction)).
Proof.
  unfold Qtanon.extract_entities_to_csv_data, Qtanon.extract_loop.
  rewrite (fold_left_ext _ _ _ (qtanon_extract_step_assign sel)).
  destruct (clean text_content); [discriminate|].
  destruct (PyStr.strip _); [discriminate|].
  now intros [= <-].
Qed.

Lemma fake_plates_extract_rows (nlp : str -> list ent) (clean : str -> str) (text_content : str)
      (rows : list entry) :
  FakePlates.extract_entities_to_csv_data (Some nlp) clean text_content = Some rows ->
  rows = map (fun '(entity, placeholder) => (placeholder, entity))
             (extracted_map (fold_left (assign fake_plates_takes fake_plates_category PyStr.decimal)
                                       (nlp (clean text_content)) FakePlates.initial_extraction)).
Proof.
  unfold FakePlates.extract_entities_to_csv_data, FakePlates.extract_loop.
  rewrite (fold_left_ext _ _ _ fake_plates_extract_step_assign).
  destruct (clean text_content); [discriminate|].
  destruct (PyStr.strip _); [discriminate|].
  now intros [= <-].
Qed.

Lemma entities_of_rows (m : dict str) :
  map snd (map (fun '(entity, placeholder) => (placeholder, entity)) m) = map fst m.
Proof.
  induction m as [|[t ph] m IH]; simpl; [reflexivity|now rewrite IH].
Qed.

(** X1. The entity column of the rows: the trimmed texts of the detections the
    loop takes, in the order of detection, each one once. This holds for
    Qtanon.py, where the loop takes the detections of the selected labels
    whose trimmed text has two characters at least, and for fake-plates.py,
    where it takes those of two characters at least that are not purely
    numeric, unless labelled as a quantity. *)
Theorem extracted_entities_in_order_of_detection :
  (forall nlp clean text_content selected_spacy_labels rows,
      Qtanon.extract_entities_to_csv_data (Some nlp) clean text_content selected_spacy_labels
      = Some rows ->
      map snd rows
      = first_seen [] (map trimmed_text
                           (filter (qtanon_takes selected_spacy_labels)
                                   (nlp (clean text_content)))))
  /\ (forall nlp clean text_content rows,
         FakePlates.extract_entities_to_csv_data (Some nlp) clean text_content = Some rows ->
         map snd rows
         = first_seen [] (map trimmed_text (filter fake_plates_takes (nlp (clean text_content))))).
Proof.
  split.
  - intros nlp clean text_content sel rows H.
    apply qtanon_extract_rows in H. subst rows.
    rewrite entities_of_rows, assign_loop_keys. reflexivity.
  - intros nlp clean text_content rows H.
    apply fake_plates_extract_rows in H. subst rows.
    rewrite entities_of_rows, assign_loop_keys. reflexivity.
Qed.

Lemma extracted_entities_in_order_of_detection_witness :
  map snd [("person_001", "Jane Doe"); ("org_001", "Acme")]
  = first_seen []
      (map trimmed_text
           (filter (qtanon_takes ["PERSON"; "ORG"])
                   [ {| text := " Jane Doe"; label_ := "PERSON" |};
                     {| text := "Acme"; label_ := "ORG" |};
                     {| text := "Jane Doe "; label_ := "ORG" |};
                     {| text := "Paris"; label_ := "GPE" |};
                     {| text := "J"; label_ := "PERSON" |} ]))
  /\ map snd [("person_1", "Jane Doe"); ("org_1", "Acme"); ("place_1", "Paris")]
     = first_seen []
         (map trimmed_text
              (filter fake_plates_takes
                      [ {| text := " Jane Doe"; label_ := "PERSON" |};
                        {| text := "Acme"; label_ := "ORG" |};
                        {| text := "Jane Doe "; label_ := "ORG" |};
                        {| text := "Paris"; label_ := "GPE" |};
                        {| text := "42"; label_ := "PERSON" |} ])).
Proof.
  split.
  - apply (proj1 extracted_entities_in_order_of_detection
                 (fun _ => [ {| text := " Jane Doe"; label_ := "PERSON" |};
                             {| text := "Acme"; label_ := "ORG" |};
                             {| text := "Jane Doe "; label_ := "ORG" |};
                             {| text := "Paris"; label_ := "GPE" |};
                             {| text := "J"; label_ := "PERSON" |} ])
                 (fun t => t) "Jane Doe of Acme, Paris. J"). reflexivity.
  - apply (proj2 extracted_entities_in_order_of_detection
                 (fun _ => [ {| text := " Jane Doe"; label_ := "PERSON" |};
                             {| text := "Acme"; label_ := "ORG" |};
                             {| text := "Jane Doe "; label_ := "ORG" |};
                             {| text := "Paris"; label_ := "GPE" |};
                             {| text := "42"; label_ := "PERSON" |} ])
                 (fun t => t) "Jane Doe of Acme, Paris. 42"). reflexivity.
Defined.

Lemma qtanon_categories_apart (c c' x : str) :
  In c qtanon_categories -> In c' qtanon_categories ->
  of_category c (c' ++ "_" ++ x) = str_eqb c c'.
Proof.
  unfold qtanon_categories. cbn [In]. intros Hc Hc'.
  repeat (destruct Hc as [<-|Hc];
          [repeat (destruct Hc' as [<-|Hc']; [first [reflexivity|now destruct x]|]);
           contradiction|]).
  contradiction.
Qed.

Lemma fake_plates_categories_apart (c c' x : str) :
  In c fake_plates_categories -> In c' fake_plates_categories ->
  of_category c (c' ++ "_" ++ x) = str_eqb c c'.
Proof.
  unfold fake_plates_categories. cbn [In]. intros Hc Hc'.
  repeat (destruct Hc as [<-|Hc];
          [repeat (destruct Hc' as [<-|Hc']; [first [reflexivity|now destruct x]|]);
           contradiction|]).
  contradiction.
Qed.

Lemma qtanon_category_known (d : ent) : In (qtanon_category d) qtanon_categories.
Proof.
  unfold qtanon_category, qtanon_categories.
  destruct (_ && _); [cbn [In]; tauto|].
  unfold dict_get_default, Qtanon.placeholder_prefix_map. cbn [dict_get].
  repeat (destruct (str_eqb (label_ d) _); [cbn [In]; tauto|]).
  cbn [In]; tauto.
Qed.

Lemma fake_plates_category_known (d : ent) : In (fake_plates_category d) fake_plates_categories.
Proof.
  unfold fake_plates_category, fake_plates_categories.
  unfold dict_get_default, FakePlates.target_labels_map. cbn [dict_get].
  repeat (destruct (str_eqb (label_ d) _); [cbn [In]; tauto|]).
  cbn [In]; tauto.
Qed.

(** X2. The placeholders of the rows are numbered by category: each starts
    with one of the categories of its program followed by an underscore, and
    those of one category, read in the order of the rows, carry the numbers 1,
    2, 3, ... without a gap (written with three digits at least by Qtanon.py,
    plainly by fake-plates.py). *)
Theorem placeholders_numbered_from_one :
  (forall nlp clean text_content selected_spacy_labels rows,
      Qtanon.extract_entities_to_csv_data (Some nlp) clean text_content selected_spacy_labels
      = Some rows ->
      Forall (fun ph => existsb (fun c => of_category c ph) qtanon_categories = true)
             (map fst rows)
      /\ forall c, In c qtanon_categories ->
                   exists k, numbered_from_one PyStr.decimal_03 c (map fst rows) k)
  /\ (forall nlp clean text_content rows,
         FakePlates.extract_entities_to_csv_data (Some nlp) clean text_content = Some rows ->
         Forall (fun ph => existsb (fun c => of_category c ph) fake_plates_categories = true)
                (map fst rows)
         /\ forall c, In c fake_plates_categories ->
                      exists k, numbered_from_one PyStr.decimal c (map fst rows) k).
Proof.
  split.
  - intros nlp clean text_content sel rows H.
    apply qtanon_extract_rows in H. subst rows. rewrite placeholders_of_rows. split.
    + apply assign_loop_categories with (cats := qtanon_categories);
        auto using qtanon_categories_apart, qtanon_category_known.
    + intros c Hc.
      apply assign_loop_numbered with (cats := qtanon_categories);
        auto using qtanon_categories_apart, qtanon_category_known.
      unfold qtanon_categories in Hc. cbn [In] in Hc.
      repeat (destruct Hc as [<-|Hc]; [reflexivity|]). contradiction.
  - intros nlp clean text_content rows H.
    apply fake_plates_extract_rows in H. subst rows. rewrite placeholders_of_rows. split.
    + apply assign_loop_categories with (cats := fake_plates_categories);
        auto using fake_plates_categories_apart, fake_plates_category_known.
    + intros c Hc.
      apply assign_loop_numbered with (cats := fake_plates_categories);
        auto using fake_plates_categories_apart, fake_plates_category_known.
      unfold fake_plates_categories in Hc. cbn [In] in Hc.
      repeat (destruct Hc as [<-|Hc]; [reflexivity|]). contradiction.
Qed.

Lemma placeholders_numbered_from_one_witness :
  Qtanon.extract_entities_to_csv_data
    (Some (fun _ => [ {| text := "Jane Doe"; label_ := "PERSON" |};
                      {| text := "Acme"; label_ := "ORG" |};
                      {| text := "Bob"; label_ := "PERSON" |} ]))
    (fun t => t) "Jane Doe and Bob of Acme" ["PERSON"; "ORG"]
  = Some [("person_001", "Jane Doe"); ("org_001", "Acme"); ("person_002", "Bob")]
  /\ exists k,
      numbered_from_one PyStr.decimal_03 "person"
                        (map fst [("person_001", "Jane Doe"); ("org_001", "Acme");
                                  ("person_002", "Bob")]) k.
Proof.
  split; [reflexivity|].
  apply (proj1 placeholders_numbered_from_one
               (fun _ => [ {| text := "Jane Doe"; label_ := "PERSON" |};
                           {| text := "Acme"; label_ := "ORG" |};
                           {| text := "Bob"; label_ := "PERSON" |} ])
               (fun t => t) "Jane Doe and Bob of Acme" ["PERSON"; "ORG"] _ eq_refl).
  cbn [In qtanon_categories]. tauto.
Defined.

(** ** The selection of labels *)

Lemma qtanon_takes_same (sel sel' : list str) (d : ent) :
  same_labels sel sel' -> qtanon_takes sel d = qtanon_takes sel' d.
Proof.
  intros H. unfold qtanon_takes. now rewrite !H.
Qed.

Lemma extract_step_same_takes (sel sel' : list str) (st : extraction) (d : ent) :
  qtanon_takes sel d = qtanon_takes sel' d ->
  Qtanon.extract_step sel st d = Qtanon.extract_step sel' st d.
Proof.
  intros H. rewrite !qtanon_extract_step_assign. unfold assign. now rewrite H.
Qed.

Lemma extract_same_takes (nlp : option (str -> list ent))
      (clean : str -> str) (text_content : str) (sel sel' : list str) :
  (forall d, In d (match nlp with Some f => f (clean text_content) | None => [] end) ->
             qtanon_takes sel d = qtanon_takes sel' d) ->
  Qtanon.extract_entities_to_csv_data nlp clean text_content sel
  = Qtanon.extract_entities_to_csv_data nlp clean text_content sel'.
Proof.
  intros H. unfold Qtanon.extract_entities_to_csv_data, Qtanon.extract_loop.
  destruct nlp as [f|]; [|reflexivity].
  destruct (clean text_content) eqn:Ec; [reflexivity|]. rewrite <- Ec in *.
  destruct (PyStr.strip (clean text_content)); [reflexivity|].
  do 2 f_equal.
  generalize Qtanon.initial_extraction.
  induction (f (clean text_content)) as [|d ents IH]; intros st; [reflexivity|].
  cbn [fold_left]. rewrite (extract_step_same_takes sel sel' st d) by (apply H; now left).
  apply IH. intros d' Hd'. apply H. now right.
Qed.

(** X3. The extraction depends on the selection only through the labels it
    holds: their order and their repetitions do not count (the window passes
    [list(set(...))], whose order is not fixed). *)
Theorem selection_is_a_set
        (nlp : option (str -> list ent)) (clean : str -> str) (text_content : str)
        (selected_spacy_labels selected_spacy_labels' : list str) :
  same_labels selected_spacy_labels selected_spacy_labels' ->
  Qtanon.extract_entities_to_csv_data nlp clean text_content selected_spacy_labels
  = Qtanon.extract_entities_to_csv_data nlp clean text_content selected_spacy_labels'.
Proof.
  intros H. apply extract_same_takes.
  intros d _. now apply qtanon_takes_same.
Qed.

Lemma selection_is_a_set_witness :
  same_labels ["PERSON"; "ORG"] ["ORG"; "PERSON"; "ORG"]
  /\ Qtanon.extract_entities_to_csv_data
       (Some (fun _ => [ {| text := "Jane Doe"; label_ := "PERSON" |};
                         {| text := "Acme"; label_ := "ORG" |};
                         {| text := "Paris"; label_ := "GPE" |} ]))
       (fun t => t) "Jane Doe of Acme, Paris" ["PERSON"; "ORG"]
     = Qtanon.extract_entities_to_csv_data
         (Some (fun _ => [ {| text := "Jane Doe"; label_ := "PERSON" |};
                           {| text := "Acme"; label_ := "ORG" |};
                           {| text := "Paris"; label_ := "GPE" |} ]))
         (fun t => t) "Jane Doe of Acme, Paris" ["ORG"; "PERSON"; "ORG"].
Proof.
  assert (H : same_labels ["PERSON"; "ORG"] ["ORG"; "PERSON"; "ORG"]).
  { intros x. unfold mem. cbn [existsb].
    destruct (str_eqb x "PERSON"), (str_eqb x "ORG"); reflexivity. }
  split; [exact H|].
  exact (@selection_is_a_set _ _ _ _ _ H).
Defined.

Lemma mem_app (x : str) (l1 l2 : list str) : mem x (l1 ++ l2) = mem x l1 || mem x l2.
Proof.
  unfold mem. apply existsb_app.
Qed.

Lemma mem_cons (x y : str) (l : list str) : mem x (y :: l) = str_eqb x y || mem x l.
Proof.
  reflexivity.
Qed.

Lemma str_eqb_sym (a b : str) : str_eqb a b = str_eqb b a.
Proof.
  destruct (str_eqb a b) eqn:E.
  - apply str_eqb_eq in E. subst. symmetry. apply str_eqb_refl.
  - apply str_eqb_neq in E. symmetry. apply str_eqb_neq. congruence.
Qed.

Section Expansion.
Variable isChecked : str -> bool.

Local Abbreviation expand :=
  (fun spacy_label : str =>
     if isChecked spacy_label
     then if str_eqb spacy_label "OTHER_TYPES"
          then Qtanon.OTHER_TYPE_SPACY_LABELS
          else [spacy_label]
     else []).

Lemma expanded_labels (x : str) (l : list str) :
  x <> "OTHER_TYPES" ->
  mem x (flat_map expand l)
  = mem x (filter isChecked l)
    || (mem "OTHER_TYPES" (filter isChecked l) && mem x Qtanon.OTHER_TYPE_SPACY_LABELS).
Proof.
  intros Hx. apply str_eqb_neq in Hx.
  induction l as [|y l IH]; [reflexivity|].
  cbn [flat_map filter]. rewrite mem_app, IH.
  destruct (isChecked y); [|reflexivity].
  destruct (str_eqb y "OTHER_TYPES") eqn:Ey.
  - apply str_eqb_eq in Ey. subst y.
    rewrite !mem_cons, Hx, str_eqb_refl.
    destruct (mem x Qtanon.OTHER_TYPE_SPACY_LABELS), (mem x (filter isChecked l)),
      (mem "OTHER_TYPES" (filter isChecked l)); reflexivity.
  - rewrite !mem_cons, (str_eqb_sym "OTHER_TYPES" y), Ey.
    change (mem x []) with false.
    destruct (str_eqb x y), (mem x Qtanon.OTHER_TYPE_SPACY_LABELS),
      (mem x (filter isChecked l)), (mem "OTHER_TYPES" (filter isChecked l)); reflexivity.
Qed.

Lemma expanded_without_token (l : list str) :
  mem "OTHER_TYPES" (flat_map expand l) = false.
Proof.
  induction l as [|y l IH]; [reflexivity|].
  cbn [flat_map]. rewrite mem_app, IH, orb_false_r.
  destruct (isChecked y); [|reflexivity].
  destruct (str_eqb y "OTHER_TYPES") eqn:Ey; [reflexivity|].
  rewrite mem_cons, str_eqb_sym, Ey. reflexivity.
Qed.

End Expansion.

(** X4. The window never passes "OTHER_TYPES" itself: a checked "Other" box
    adds the seven labels it stands for. The rows are the ones the extraction
    gives for the checked labels as they are, "OTHER_TYPES" among them, as
    long as no detection carries "OTHER_TYPES" as its label. *)
Theorem other_types_box_is_expanded
        (nlp : option (str -> list ent)) (clean : str -> str) (text_content : str)
        (isChecked : str -> bool) (selected_spacy_labels : list str) :
  same_labels selected_spacy_labels (Qtanon.selected_labels_for_extraction isChecked) ->
  (forall d, In d (match nlp with Some f => f (clean text_content) | None => [] end) ->
             label_ d <> "OTHER_TYPES") ->
  Qtanon.extract_entities_to_csv_data nlp clean text_content selected_spacy_labels
  = Qtanon.extract_entities_to_csv_data nlp clean text_content
      (filter isChecked Qtanon.SPACY_ENTITY_LABELS_FOR_UI).
Proof.
  intros Hsame Hlabel. apply extract_same_takes. intros d Hd.
  unfold qtanon_takes. rewrite !Hsame. unfold Qtanon.selected_labels_for_extraction.
  rewrite expanded_without_token, expanded_labels by (apply Hlabel, Hd).
  now rewrite andb_false_l, orb_false_r.
Qed.

Lemma other_types_box_is_expanded_witness :
  Qtanon.extract_entities_to_csv_data
    (Some (fun _ => [ {| text := "Jane Doe"; label_ := "PERSON" |};
                      {| text := "noon"; label_ := "TIME" |};
                      {| text := "Acme"; label_ := "ORG" |} ]))
    (fun t => t) "Jane Doe, noon, Acme"
    ["LAW"; "PERSON"; "TIME"; "PERCENT"; "QUANTITY"; "ORDINAL"; "CARDINAL"; "LANGUAGE"]
  = Qtanon.extract_entities_to_csv_data
      (Some (fun _ => [ {| text := "Jane Doe"; label_ := "PERSON" |};
                        {| text := "noon"; label_ := "TIME" |};
                        {| text := "Acme"; label_ := "ORG" |} ]))
      (fun t => t) "Jane Doe, noon, Acme"
      (filter (fun l => mem l ["PERSON"; "OTHER_TYPES"]) Qtanon.SPACY_ENTITY_LABELS_FOR_UI).
Proof.
  apply other_types_box_is_expanded.
  - intros x. unfold mem. cbn.
    repeat match goal with |- context [str_eqb x ?s] => destruct (str_eqb x s) end;
      reflexivity.
  - cbn [In]. intros d [<-|[<-|[<-|[]]]]; discriminate.
Defined.

(** ** Trimming *)

Lemma lstrip_head (s : str) (c : ascii) (t : str) :
  PyStr.lstrip s = c :: t -> PyStr.is_space c = false.
Proof.
  induction s as [|a s IH]; cbn [PyStr.lstrip]; [discriminate|].
  destruct (PyStr.is_space a) eqn:E; [exact IH|].
  now intros [= <- _].
Qed.

Lemma lstrip_kept (c : ascii) (t : str) :
  PyStr.is_space c = false -> PyStr.lstrip (c :: t) = c :: t.
Proof.
  intros H. cbn [PyStr.lstrip]. now rewrite H.
Qed.

Lemma lstrip_lstrip (s : str) : PyStr.lstrip (PyStr.lstrip s) = PyStr.lstrip s.
Proof.
  destruct (PyStr.lstrip s) as [|c t] eqn:E; [reflexivity|].
  apply lstrip_kept. eapply lstrip_head. exact E.
Qed.

Lemma lstrip_app_kept (s : str) (c : ascii) :
  PyStr.is_space c = false -> PyStr.lstrip (s ++ [c]) = PyStr.lstrip s ++ [c].
Proof.
  intros H. induction s as [|a s IH]; cbn [app PyStr.lstrip].
  - now rewrite H.
  - destruct (PyStr.is_space a); [exact IH|reflexivity].
Qed.

Lemma strip_strip (s : str) : PyStr.strip (PyStr.strip s) = PyStr.strip s.
Proof.
  unfold PyStr.strip.
  destruct (PyStr.lstrip s) as [|c t] eqn:E; [reflexivity|].
  pose proof (lstrip_head _ E) as Hc.
  cbn [rev]. rewrite lstrip_app_kept by exact Hc. rewrite rev_app_distr. cbn [rev app].
  rewrite lstrip_kept by exact Hc. cbn [rev]. rewrite rev_involutive.
  rewrite lstrip_app_kept by exact Hc. rewrite lstrip_lstrip.
  now rewrite rev_app_distr.
Qed.

Lemma lstrip_no_space (s : str) :
  forallb (fun c => negb (PyStr.is_space c)) s = true -> PyStr.lstrip s = s.
Proof.
  destruct s as [|c t]; [reflexivity|]. cbn [forallb]. intros H.
  apply andb_prop in H as [H _]. apply negb_true_iff in H. now apply lstrip_kept.
Qed.

Lemma forallb_rev (A : Type) (f : A -> bool) (l : list A) : forallb f (rev l) = forallb f l.
Proof.
  induction l as [|a l IH]; [reflexivity|].
  cbn [rev forallb]. rewrite forallb_app, IH. cbn [forallb].
  rewrite andb_true_r. apply andb_comm.
Qed.

Lemma strip_no_space (s : str) :
  forallb (fun c => negb (PyStr.is_space c)) s = true -> PyStr.strip s = s.
Proof.
  intros H. unfold PyStr.strip. rewrite (lstrip_no_space s) by exact H.
  rewrite lstrip_no_space by now rewrite forallb_rev.
  apply rev_involutive.
Qed.

Lemma digits_no_space (d : Decimal.uint) :
  forallb (fun c => negb (PyStr.is_space c))
          (String.list_ascii_of_string (DecimalString.NilEmpty.string_of_uint d)) = true.
Proof.
  induction d; [reflexivity|..]; exact IHd.
Qed.

Lemma decimal_no_space (n : nat) :
  forallb (fun c => negb (PyStr.is_space c)) (PyStr.decimal n) = true.
Proof.
  unfold PyStr.decimal.
  destruct (Nat.to_uint n) as [|d|d|d|d|d|d|d|d|d|d]; [reflexivity|..];
    match goal with
    | |- context [DecimalString.NilZero.string_of_uint ?u] => exact (digits_no_space u)
    end.
Qed.

Lemma decimal_03_no_space (n : nat) :
  forallb (fun c => negb (PyStr.is_space c)) (PyStr.decimal_03 n) = true.
Proof.
  unfold PyStr.decimal_03. rewrite forallb_app, decimal_no_space, andb_true_r.
  induction (3 - length (PyStr.decimal n)) as [|k IH]; [reflexivity|exact IH].
Qed.

(** ** The mapping file *)

Lemma valid_entries_trimmed (rows : list (list str)) (p e : str) :
  In (p, e) (valid_entries rows) -> trimmed p /\ trimmed e.
Proof.
  induction rows as [|row rows IH]; cbn [valid_entries]; [intros []|].
  destruct (row_entry row) as [[p0 e0]|] eqn:R; [|exact IH].
  intros [H|H]; [|now apply IH]. injection H as -> ->.
  unfold row_entry in R. destruct row as [|c1 [|c2 row]]; try discriminate.
  destruct (PyStr.strip c1) as [|a col1] eqn:E1; [discriminate|].
  destruct (PyStr.strip c2) as [|b col2] eqn:E2; [discriminate|].
  injection R as <- <-. unfold trimmed.
  rewrite <- E1, <- E2, !strip_strip. rewrite E1, E2. repeat split; discriminate.
Qed.

Lemma loaded_value (rows : list (list str)) (raises has_header : bool) (loaded : list entry) :
  fst (Qtanon.read_csv_mapping_for_gui (Qtanon.Stream rows raises) has_header) = Some loaded ->
  loaded = valid_entries (if has_header then tl rows else rows).
Proof.
  unfold Qtanon.read_csv_mapping_for_gui.
  set (body := if has_header then tl rows else rows).
  destruct raises.
  - destruct has_header; [destruct rows|]; cbn [fst];
      try discriminate;
      match goal with
      | |- context [Qtanon.read_rows ?h ?i ?r ?m ?l] => destruct (Qtanon.read_rows h i r m l)
      end; discriminate.
  - assert (E : exists log0,
               (if has_header
                then match rows with
                     | _ :: rows' => Some (rows', [Qtanon.HeaderSkipped])
                     | [] => if false then None else Some ([], [Qtanon.WarnEmptyAfterHeader])
                     end
                else Some (rows, [])) = Some (body, log0)).
    { subst body. destruct has_header; [destruct rows|]; eexists; reflexivity. }
    destruct E as [log0 E]. rewrite E.
    destruct (read_rows_spec has_header body 0 [] log0) as [E1 _].
    destruct (Qtanon.read_rows has_header 0 body [] log0) as [m log].
    cbn [fst app] in E1. subst m.
    destruct (valid_entries body); cbn [fst]; now intros [= <-].
Qed.

Lemma fake_plates_read_csv_mapping (csvfile : Qtanon.csv_source) (has_header : bool) :
  FakePlates.read_csv_mapping csvfile has_header
  = Qtanon.read_csv_mapping_for_gui csvfile has_header.
Proof.
  reflexivity.
Qed.

(** X5. Every entry the loader returns has a placeholder and a real entity
    that are not empty and carry no white space at either end, in Qtanon.py
    and in fake-plates.py: the substitution loops never meet an empty field
    coming from a mapping file. *)
Theorem loaded_entries_are_trimmed :
  (forall csvfile has_header replacements_map base_placeholder real_entity,
      fst (Qtanon.read_csv_mapping_for_gui csvfile has_header) = Some replacements_map ->
      In (base_placeholder, real_entity) replacements_map ->
      trimmed base_placeholder /\ trimmed real_entity)
  /\ (forall csvfile has_header replacements_map base_placeholder real_entity,
         fst (FakePlates.read_csv_mapping csvfile has_header) = Some replacements_map ->
         In (base_placeholder, real_entity) replacements_map ->
         trimmed base_placeholder /\ trimmed real_entity).
Proof.
  assert (H : forall csvfile has_header replacements_map base_placeholder real_entity,
             fst (Qtanon.read_csv_mapping_for_gui csvfile has_header) = Some replacements_map ->
             In (base_placeholder, real_entity) replacements_map ->
             trimmed base_placeholder /\ trimmed real_entity).
  { intros [|rows raises] has_header m p e Hm Hin; [discriminate|].
    apply loaded_value in Hm. subst m. eapply valid_entries_trimmed. exact Hin. }
  split; [exact H|].
  intros csvfile has_header. rewrite fake_plates_read_csv_mapping. apply H.
Qed.

Lemma loaded_entries_are_trimmed_witness :
  fst (Qtanon.read_csv_mapping_for_gui
         (Qtanon.Stream [["placeholder"; "name"]; [" person_001"; " Jane Doe  "]; ["x"; " "]] false)
         true)
  = Some [("person_001", "Jane Doe")]
  /\ trimmed "person_001" /\ trimmed "Jane Doe".
Proof.
  split; [reflexivity|].
  apply (proj1 loaded_entries_are_trimmed
               (Qtanon.Stream [["placeholder"; "name"]; [" person_001"; " Jane Doe  "]; ["x"; " "]]
                              false)
               true [("person_001", "Jane Doe")] "person_001" "Jane Doe" eq_refl).
  left. reflexivity.
Defined.

Section AssignShape.
Variable takes : ent -> bool.
Variable category : ent -> str.
Variable fmt : nat -> str.

Local Abbreviation assigned :=
  (fun row : str * str =>
     exists d k, takes d = true /\ fst row = trimmed_text d
                 /\ snd row = category d ++ "_" ++ fmt k).

Lemma assign_loop_shape (ents : list ent) :
  forall st,
    Forall assigned (extracted_map st) ->
    Forall assigned (extracted_map (fold_left (assign takes category fmt) ents st)).
Proof.
  induction ents as [|d ents IH]; intros st H; cbn [fold_left]; [exact H|].
  apply IH. unfold assign.
  destruct (takes d && negb (dict_has (extracted_map st) (trimmed_text d))) eqn:E;
    [|exact H].
  apply andb_prop in E as [Ht E]. apply negb_true_iff in E.
  cbn [extracted_map]. rewrite dict_set_absent by exact E.
  apply Forall_app. split; [exact H|].
  constructor; [|constructor]. eexists d, _. cbn [fst snd]. repeat split. exact Ht.
Qed.

End AssignShape.

Lemma trimmed_no_space (s : str) :
  s <> [] -> forallb (fun c => negb (PyStr.is_space c)) s = true -> trimmed s.
Proof.
  intros Hs H. split; [exact Hs|now apply strip_no_space].
Qed.

Lemma trimmed_text_trimmed (d : ent) :
  (2 <=? length (trimmed_text d)) = true -> trimmed (trimmed_text d).
Proof.
  intros H. split.
  - destruct (trimmed_text d); [discriminate|discriminate].
  - apply strip_strip.
Qed.

Lemma numbered_placeholder_trimmed (cats : list str) (fmt : nat -> str) (c : str) (k : nat) :
  (forall n, forallb (fun ch => negb (PyStr.is_space ch)) (fmt n) = true) ->
  forallb (forallb (fun ch => negb (PyStr.is_space ch))) cats = true ->
  In c cats ->
  trimmed (c ++ "_" ++ fmt k).
Proof.
  intros Hfmt Hcats Hc. apply trimmed_no_space.
  - destruct c; discriminate.
  - rewrite forallb_app. cbn [app forallb]. rewrite Hfmt, andb_true_r.
    rewrite forallb_forall in Hcats. now rewrite (Hcats c Hc).
Qed.

Lemma written_rows_load (rows : list entry) :
  Forall (fun row => trimmed (fst row) /\ trimmed (snd row)) rows ->
  valid_entries (map (fun '(placeholder, entity) => [placeholder; entity]) rows) = rows
  /\ dropped_rows (map (fun '(placeholder, entity) => [placeholder; entity]) rows) = 0.
Proof.
  unfold dropped_rows.
  induction 1 as [|[p e] rows [[Hp1 Hp2] [He1 He2]] _ [IH1 IH2]]; [split; reflexivity|].
  cbn [map valid_entries filter fst snd] in *.
  unfold row_entry. rewrite Hp2, He2.
  destruct p; [contradiction|]. destruct e; [contradiction|].
  rewrite IH1. split; [reflexivity|exact IH2].
Qed.

Lemma written_rows_read (rows : list entry) :
  Forall (fun row => trimmed (fst row) /\ trimmed (snd row)) rows ->
  let loaded :=
    Qtanon.read_csv_mapping_for_gui (Qtanon.Stream (Qtanon.rows_written rows) false) true in
  fst loaded = Some rows /\ row_warnings (snd loaded) = 0.
Proof.
  intros H loaded. subst loaded.
  unfold Qtanon.read_csv_mapping_for_gui, Qtanon.rows_written.
  destruct (written_rows_load H) as [E1 E2].
  destruct (read_rows_spec true (map (fun '(placeholder, entity) => [placeholder; entity]) rows)
                           0 [] [Qtanon.HeaderSkipped]) as [R1 R2].
  destruct (Qtanon.read_rows true 0 _ [] [Qtanon.HeaderSkipped]) as [m log].
  cbn [fst snd app] in R1, R2. rewrite E1 in R1. rewrite E2 in R2. subst m.
  destruct rows; cbn [fst snd]; (split; [reflexivity|]).
  - rewrite row_warnings_app, R2. reflexivity.
  - exact R2.
Qed.

Lemma swapped_rows (P : str -> Prop) (Q : str -> Prop) (m : dict str) :
  Forall (fun row => P (snd row) /\ Q (fst row)) m ->
  Forall (fun row => P (fst row) /\ Q (snd row))
         (map (fun '(entity, placeholder) => (placeholder, entity)) m).
Proof.
  induction 1 as [|[t ph] m H _ IH]; constructor; assumption.
Qed.

(** X6. A map that has been generated loads back as it is: the rows written to
    the CSV file, read again with the header box checked, give the same
    entries in the same order, none is dropped and no row draws a warning (the
    file being read back as [csv.writer] was given it). This holds for
    Qtanon.py and for fake-plates.py. *)
Theorem generated_map_loads_back :
  (forall nlp clean text_content selected_spacy_labels rows,
      Qtanon.extract_entities_to_csv_data (Some nlp) clean text_content selected_spacy_labels
      = Some rows ->
      let loaded :=
        Qtanon.read_csv_mapping_for_gui (Qtanon.Stream (Qtanon.rows_written rows) false) true in
      fst loaded = Some rows /\ row_warnings (snd loaded) = 0)
  /\ (forall nlp clean text_content rows,
         FakePlates.extract_entities_to_csv_data (Some nlp) clean text_content = Some rows ->
         let loaded :=
           FakePlates.read_csv_mapping (Qtanon.Stream (FakePlates.rows_written rows) false) true in
         fst loaded = Some rows /\ row_warnings (snd loaded) = 0).
Proof.
  split.
  - intros nlp clean text_content sel rows H.
    apply written_rows_read. apply qtanon_extract_rows in H. subst rows.
    apply swapped_rows.
    eapply Forall_impl; [|apply assign_loop_shape; constructor].
    intros [t ph] (d & k & Ht & E1 & E2). cbn [fst snd] in *. subst t ph. split.
    + apply numbered_placeholder_trimmed with (cats := qtanon_categories);
        auto using decimal_03_no_space, qtanon_category_known.
    + apply trimmed_text_trimmed. unfold qtanon_takes in Ht.
      now apply andb_prop in Ht as [_ Ht].
  - intros nlp clean text_content rows H.
    rewrite fake_plates_read_csv_mapping.
    apply written_rows_read. apply fake_plates_extract_rows in H. subst rows.
    apply swapped_rows.
    eapply Forall_impl; [|apply assign_loop_shape; constructor].
    intros [t ph] (d & k & Ht & E1 & E2). cbn [fst snd] in *. subst t ph. split.
    + apply numbered_placeholder_trimmed with (cats := fake_plates_categories);
        auto using decimal_no_space, fake_plates_category_known.
    + apply trimmed_text_trimmed. unfold fake_plates_takes in Ht.
      now apply andb_prop in Ht as [Ht _].
Qed.

Lemma generated_map_loads_back_witness :
  Qtanon.extract_entities_to_csv_data
    (Some (fun _ => [ {| text := "Jane Doe "; label_ := "PERSON" |};
                      {| text := "Acme"; label_ := "ORG" |} ]))
    (fun t => t) "Jane Doe of Acme" ["PERSON"; "ORG"]
  = Some [("person_001", "Jane Doe"); ("org_001", "Acme")]
  /\ fst (Qtanon.read_csv_mapping_for_gui
            (Qtanon.Stream (Qtanon.rows_written [("person_001", "Jane Doe"); ("org_001", "Acme")])
                           false) true)
     = Some [("person_001", "Jane Doe"); ("org_001", "Acme")].
Proof.
  split; [reflexivity|].
  exact (proj1 (proj1 generated_map_loads_back
                      (fun _ => [ {| text := "Jane Doe "; label_ := "PERSON" |};
                                  {| text := "Acme"; label_ := "ORG" |} ])
                      (fun t => t) "Jane Doe of Acme" ["PERSON"; "ORG"] _ eq_refl)).
Defined.

(** ** Texts the substitution leaves alone *)

Lemma scan_not_found (St : Type) (p : Re.pattern) (repl : St -> str -> str * St) (s : str) :
  forall prev st, found p prev s = false -> Re.scan p repl prev 0 st s = s.
Proof.
  induction s as [|c s IH]; intros prev st H; [reflexivity|].
  cbn [found] in H. apply orb_false_iff in H as [H1 H2].
  rewrite scan_no_match by exact H1. f_equal. now apply IH.
Qed.

Lemma for_each_fixed (step : str -> entry -> outcome str) (rows : list entry) (content : str) :
  (forall row, In row rows -> step content row = Returned content) ->
  Qtanon.for_each step rows content = Returned content.
Proof.
  induction rows as [|row rows IH]; intros H; [reflexivity|].
  cbn [Qtanon.for_each]. rewrite H by now left. apply IH. intros r Hr. apply H. now right.
Qed.

Lemma for_each_returns (step : str -> entry -> outcome str) (rows : list entry) :
  (forall row content, In row rows -> exists content', step content row = Returned content') ->
  forall content, exists content', Qtanon.for_each step rows content = Returned content'.
Proof.
  induction rows as [|row rows IH]; intros H content; [now exists content|].
  cbn [Qtanon.for_each]. destruct (H row content) as [c' E]; [now left|]. rewrite E.
  apply IH. intros r c Hr. apply H. now right.
Qed.

Lemma forallb_sorted (key : entry -> nat) (f : entry -> bool) (rows : list entry) :
  forallb f rows = true -> forall row, In row (sort_desc key rows) -> f row = true.
Proof.
  intros H row Hin. rewrite forallb_forall in H. apply H.
  eapply Permutation_in; [apply Permutation_sym, sort_desc_perm|exact Hin].
Qed.

Lemma scan_ext (St : Type) (p p' : Re.pattern) (repl repl' : St -> str -> str * St) :
  (forall prev s, Re.match_here p prev s = Re.match_here p' prev s) ->
  length (Re.literal p) = length (Re.literal p') ->
  (forall st m, repl st m = repl' st m) ->
  forall s prev skip st, Re.scan p repl prev skip st s = Re.scan p' repl' prev skip st s.
Proof.
  intros Hm Hl Hr. induction s as [|c s IH]; intros prev skip st; [reflexivity|].
  cbn [Re.scan]. destruct skip as [|k]; [|apply IH].
  rewrite Hm, Hl, Hr.
  destruct (Re.match_here p' prev (c :: s)).
  - destruct (repl' st _). now rewrite IH.
  - now rewrite IH.
Qed.

Lemma scan_literal_template (p : Re.pattern) (r : str) (s : str) :
  Re.scan p (fun (_ : unit) m => (Re.expand (literal_template r) m, tt)) None 0 tt s
  = Re.scan p (fun (_ : unit) (_ : str) => (r, tt)) None 0 tt s.
Proof.
  apply scan_ext; try reflexivity.
  intros st m. now rewrite expand_literal_template.
Qed.

Lemma anonymize_step_plain (exclusions_lower : list str) (content p e : str) :
  no_backslash p = true ->
  Qtanon.anonymize_step exclusions_lower content (p, e)
  = Returned (if mem (PyStr.lower e) exclusions_lower then content
              else match e with
                   | [] => content
                   | _ => Re.scan (entity_pattern e) (fun (_ : unit) (_ : str) => ("**" ++ p ++ "**", tt))
                                  None 0 tt content
                   end).
Proof.
  intros Hp. unfold Qtanon.anonymize_step.
  destruct (mem (PyStr.lower e) exclusions_lower); [reflexivity|].
  destruct e as [|a e]; [reflexivity|].
  rewrite sub_literal by now apply no_backslash_bold.
  now rewrite scan_literal_template.
Qed.

Lemma de_anonymize_step_plain (content p e : str) :
  no_backslash e = true ->
  Qtanon.de_anonymize_step content (p, e)
  = Returned (match p with
              | [] => content
              | _ =>
                  if multi_token_person (p, e)
                  then Re.scan (bold_pattern p) Qtanon.PersonNameReplacer_call None 0
                               (Qtanon.PersonNameReplacer_init e (last (PyStr.split e) e)) content
                  else Re.scan (bold_pattern p) (fun (_ : unit) (_ : str) => (e, tt))
                               None 0 tt content
              end).
Proof.
  intros He. unfold Qtanon.de_anonymize_step, multi_token_person. cbn [fst snd].
  destruct p as [|a p]; [reflexivity|].
  destruct (PyStr.startswith (a :: p) "person_").
  - destruct (PyStr.split e) as [|x [|y l]]; cbn [andb length Nat.leb];
      [rewrite sub_literal by exact He; now rewrite scan_literal_template ..|reflexivity].
  - cbn [andb].
    destruct (existsb _ _); rewrite sub_literal by exact He; now rewrite scan_literal_template.
Qed.

(** X7. A text in which no real entity of the list stands as a whole word
    (ignoring case) is returned as it is by the anonymization, and a text in
    which no bolded placeholder of the list occurs (ignoring case) is returned
    as it is by the de-anonymization; the strings put in, the placeholders in
    one direction and the real entities in the other, are taken to hold no
    backslash. An entity that occurs only inside longer words, as "Ann" in
    "Anna", is of the first kind. *)
Theorem unmatched_text_is_unchanged :
  (forall content replacements_data exclusions,
      forallb (fun row => no_backslash (fst row)) replacements_data = true ->
      forallb (fun row => negb (found (entity_pattern (snd row)) None content))
              replacements_data = true ->
      fst (Qtanon.anonymize_text_logic content replacements_data exclusions)
      = Returned content)
  /\ (forall content replacements_data,
         forallb (fun row => no_backslash (snd row)) replacements_data = true ->
         forallb (fun row => negb (occurs_ci ("**" ++ fst row ++ "**") content))
                 replacements_data = true ->
         fst (Qtanon.de_anonymize_text_logic content replacements_data) = Returned content).
Proof.
  split.
  - intros content rows exclusions Hp Hf.
    unfold Qtanon.anonymize_text_logic. cbn [fst].
    apply for_each_fixed. intros [p e] Hin.
    pose proof (forallb_sorted _ _ _ Hp _ Hin) as Hp'.
    pose proof (forallb_sorted _ _ _ Hf _ Hin) as Hf'. cbn [fst snd] in *.
    rewrite anonymize_step_plain by exact Hp'.
    destruct (mem _ _); [reflexivity|]. destruct e as [|a e]; [reflexivity|].
    rewrite scan_not_found; [reflexivity|]. now apply negb_true_iff.
  - intros content rows He Hf.
    unfold Qtanon.de_anonymize_text_logic. cbn [fst].
    apply for_each_fixed. intros [p e] Hin.
    pose proof (forallb_sorted _ _ _ He _ Hin) as He'.
    pose proof (forallb_sorted _ _ _ Hf _ Hin) as Hf'. cbn [fst snd] in *.
    rewrite de_anonymize_step_plain by exact He'.
    destruct p as [|a p]; [reflexivity|].
    apply negb_true_iff in Hf'.
    destruct (multi_token_person _); unfold bold_pattern;
      now rewrite scan_no_occurrence.
Qed.

Lemma unmatched_text_is_unchanged_witness :
  fst (Qtanon.anonymize_text_logic "Anna met Smithers" [("person_001", "Ann"); ("person_002", "Smith")] [])
  = Returned "Anna met Smithers"
  /\ fst (Qtanon.de_anonymize_text_logic "**person_003** and *person_001*"
                                         [("person_001", "Ann"); ("person_002", "Smith")])
     = Returned "**person_003** and *person_001*".
Proof.
  split.
  - apply (proj1 unmatched_text_is_unchanged); reflexivity.
  - apply (proj2 unmatched_text_is_unchanged); reflexivity.
Defined.

Lemma for_each_no_re_error (step : str -> entry -> outcome str) (rows : list entry) :
  (forall row content, step content row <> Raised ReError) ->
  forall content, Qtanon.for_each step rows content <> Raised ReError.
Proof.
  intros H. induction rows as [|row rows IH]; intros content; cbn [Qtanon.for_each];
    [discriminate|].
  destruct (step content row) eqn:E; [apply IH|].
  rewrite <- E. apply H.
Qed.

(** X8. Neither direction lets [re.error] through, and neither raises at all
    when the strings it puts into the text, the placeholders for the
    anonymization and the real entities for the de-anonymization, hold no
    backslash. *)
Theorem substitution_returns :
  (forall content replacements_data exclusions,
      fst (Qtanon.anonymize_text_logic content replacements_data exclusions) <> Raised ReError
      /\ (forallb (fun row => no_backslash (fst row)) replacements_data = true ->
          exists anonymized,
            fst (Qtanon.anonymize_text_logic content replacements_data exclusions)
            = Returned anonymized))
  /\ (forall content replacements_data,
         fst (Qtanon.de_anonymize_text_logic content replacements_data) <> Raised ReError
         /\ (forallb (fun row => no_backslash (snd row)) replacements_data = true ->
             exists restored,
               fst (Qtanon.de_anonymize_text_logic content replacements_data)
               = Returned restored)).
Proof.
  split.
  - intros content rows exclusions. split.
    + unfold Qtanon.anonymize_text_logic. cbn [fst].
      apply for_each_no_re_error. intros [p e] c. unfold Qtanon.anonymize_step.
      destruct (mem _ _); [discriminate|]. destruct e; [discriminate|].
      destruct (Re.sub _ _ _) as [x|[|]]; discriminate.
    + intros Hp. unfold Qtanon.anonymize_text_logic. cbn [fst].
      apply for_each_returns. intros [p e] c Hin.
      pose proof (forallb_sorted _ _ _ Hp _ Hin) as Hp'. cbn [fst] in Hp'.
      rewrite anonymize_step_plain by exact Hp'. eexists. reflexivity.
  - intros content rows. split.
    + unfold Qtanon.de_anonymize_text_logic. cbn [fst].
      apply for_each_no_re_error. intros [p e] c. unfold Qtanon.de_anonymize_step.
      destruct p; [discriminate|].
      match goal with
      | |- match ?r with _ => _ end <> _ => destruct r as [x|[|]]; discriminate
      end.
    + intros He. unfold Qtanon.de_anonymize_text_logic. cbn [fst].
      apply for_each_returns. intros [p e] c Hin.
      pose proof (forallb_sorted _ _ _ He _ Hin) as He'. cbn [snd] in He'.
      rewrite de_anonymize_step_plain by exact He'. eexists. reflexivity.
Qed.

Lemma substitution_returns_witness :
  (exists anonymized,
      fst (Qtanon.anonymize_text_logic "Ann met Bob" [("person_001", "Ann"); ("person_002", "Bob")] [])
      = Returned anonymized)
  /\ (exists restored,
         fst (Qtanon.de_anonymize_text_logic "**person_001** met **person_002**"
                                             [("person_001", "Ann"); ("person_002", "Bob")])
         = Returned restored).
Proof.
  split.
  - apply (proj2 (proj1 substitution_returns "Ann met Bob"
                        [("person_001", "Ann"); ("person_002", "Bob")] [])).
    reflexivity.
  - apply (proj2 (proj2 substitution_returns "**person_001** met **person_002**"
                        [("person_001", "Ann"); ("person_002", "Bob")])).
    reflexivity.
Defined.

(** ** The case of the mapping *)

Lemma prefix_ci_same_lower (e e' s : str) :
  PyStr.lower e = PyStr.lower e' -> Re.prefix_ci e s = Re.prefix_ci e' s.
Proof.
  revert e' s. induction e as [|a e IH]; intros [|a' e'] s H; try discriminate;
    [reflexivity|].
  injection H as Ha H. destruct s as [|c s]; [reflexivity|].
  cbn [Re.prefix_ci]. now rewrite Ha, (IH e' s H).
Qed.

Lemma match_here_same_lower (e e' : str) (prev : option ascii) (s : str) :
  PyStr.lower e = PyStr.lower e' ->
  Re.match_here (entity_pattern e) prev s = Re.match_here (entity_pattern e') prev s.
Proof.
  intros H. unfold Re.match_here, entity_pattern. cbn [Re.literal Re.word_bounded].
  rewrite (lower_length _ _ H).
  destruct (length e'); [reflexivity|]. now rewrite (prefix_ci_same_lower _ _ s H).
Qed.

Lemma anonymize_step_same_lower (exclusions_lower : list str) (content p e e' : str) :
  PyStr.lower e = PyStr.lower e' ->
  Qtanon.anonymize_step exclusions_lower content (p, e)
  = Qtanon.anonymize_step exclusions_lower content (p, e').
Proof.
  intros H. unfold Qtanon.anonymize_step. rewrite H.
  destruct (mem _ _); [reflexivity|].
  destruct e as [|a e], e' as [|a' e']; try discriminate; [reflexivity|].
  unfold Re.sub. destruct (Re.parse_template _); [|reflexivity].
  f_equal. apply scan_ext; try reflexivity.
  - intros prev s. now apply (match_here_same_lower (a :: e) (a' :: e')).
  - cbn [Re.literal]. now apply lower_length.
Qed.

Section SortRelated.
Variable A : Type.
Variable key : A -> nat.
Variable R : A -> A -> Prop.
Hypothesis same_key : forall x y, R x y -> key x = key y.

Lemma insert_desc_related (x y : A) (l l' : list A) :
  R x y -> Forall2 R l l' -> Forall2 R (insert_desc key x l) (insert_desc key y l').
Proof.
  intros Hxy H. induction H as [|a b l l' Hab H IH]; cbn [insert_desc].
  - now repeat constructor.
  - rewrite (same_key Hxy), (same_key Hab).
    destruct (key y <? key b); repeat constructor; assumption.
Qed.

Lemma sort_desc_related (l l' : list A) :
  Forall2 R l l' -> Forall2 R (sort_desc key l) (sort_desc key l').
Proof.
  induction 1 as [|a b l l' Hab H IH]; cbn [sort_desc]; [constructor|].
  now apply insert_desc_related.
Qed.

End SortRelated.

Lemma for_each_related (step : str -> entry -> outcome str) (R : entry -> entry -> Prop)
      (rows rows' : list entry) :
  (forall content row row', R row row' -> step content row = step content row') ->
  Forall2 R rows rows' ->
  forall content, Qtanon.for_each step rows content = Qtanon.for_each step rows' content.
Proof.
  intros Hstep H. induction H as [|row row' rows rows' Hr H IH]; intros content;
    [reflexivity|].
  cbn [Qtanon.for_each]. rewrite (Hstep content _ _ Hr).
  destruct (step content row'); [apply IH|reflexivity].
Qed.

(** X9. For mappings whose real entities are written in characters of the
    Latin-1 range, the anonymized text does not depend on the case in which
    the real entities are written: two lists with the same placeholders,
    whose real entities are equal once lowercased, give the same result on
    every text, with every list of exclusions. *)
Theorem entity_case_is_irrelevant (content : str) (replacements_data replacements_data' : list entry)
        (exclusions : list str) :
  Forall2 (fun row row' => fst row = fst row' /\ PyStr.lower (snd row) = PyStr.lower (snd row'))
          replacements_data replacements_data' ->
  fst (Qtanon.anonymize_text_logic content replacements_data exclusions)
  = fst (Qtanon.anonymize_text_logic content replacements_data' exclusions).
Proof.
  intros H. unfold Qtanon.anonymize_text_logic. cbn [fst].
  apply for_each_related
    with (R := fun row row' => fst row = fst row' /\ PyStr.lower (snd row) = PyStr.lower (snd row')).
  - intros c [p e] [p' e'] [Hp He]. cbn [fst snd] in *. subst p'.
    now apply anonymize_step_same_lower.
  - apply sort_desc_related; [|exact H].
    intros [p e] [p' e'] [_ He]. cbn [snd] in *. now apply lower_length.
Qed.

Lemma entity_case_is_irrelevant_witness :
  fst (Qtanon.anonymize_text_logic "Jane Doe met JANE DOE at Acme"
                                   [("person_001", "Jane Doe"); ("org_001", "ACME")] [])
  = fst (Qtanon.anonymize_text_logic "Jane Doe met JANE DOE at Acme"
                                     [("person_001", "JANE doe"); ("org_001", "acme")] []).
Proof.
  apply entity_case_is_irrelevant.
  repeat constructor.
Defined.

(** ** The two programs *)

Lemma for_each_ext (step step' : str -> entry -> outcome str) (rows : list entry) :
  (forall content row, step content row = step' content row) ->
  forall content, Qtanon.for_each step rows content = Qtanon.for_each step' rows content.
Proof.
  intros H. induction rows as [|row rows IH]; intros content; [reflexivity|].
  cbn [Qtanon.for_each]. rewrite H. destruct (step' content row); [apply IH|reflexivity].
Qed.

Lemma fake_plates_de_anonymize_step (content : str) (row : entry) :
  FakePlates.de_anonymize_step content row = Qtanon.de_anonymize_step content row.
Proof.
  destruct row as [p e]. unfold FakePlates.de_anonymize_step, Qtanon.de_anonymize_step.
  destruct p as [|a p]; [reflexivity|].
  destruct (PyStr.startswith (a :: p) "person_").
  - destruct (PyStr.split e) as [|x [|y l]]; reflexivity.
  - destruct (existsb _ FakePlates.known_prefixes), (existsb _ Qtanon.known_prefixes);
      reflexivity.
Qed.

(** X10. fake-plates.py and Qtanon.py substitute alike: on every text and
    every list, [anonymize_text] returns what [anonymize_text_logic] returns
    and [de_anonymize_text] what [de_anonymize_text_logic] returns, and they
    leave the caller's list in the same order. The prefixes each program knows
    ("thing_" in one, "entity_", "fac_" and "event_" in the other) only choose
    between replacements that are the same. *)
Theorem fake_plates_substitutes_alike :
  (forall content replacements_data exclusions,
      FakePlates.anonymize_text content replacements_data exclusions
      = Qtanon.anonymize_text_logic content replacements_data exclusions)
  /\ (forall content replacements_data,
         FakePlates.de_anonymize_text content replacements_data
         = Qtanon.de_anonymize_text_logic content replacements_data).
Proof.
  split; [reflexivity|].
  intros content rows. unfold FakePlates.de_anonymize_text, Qtanon.de_anonymize_text_logic.
  f_equal. apply for_each_ext. apply fake_plates_de_anonymize_step.
Qed.

(** ** The exclusions *)

Lemma split_at_cur (sep : ascii) (s cur : str) :
  PyStr.split_at sep cur s
  = (rev cur ++ hd [] (PyStr.split_at sep [] s)) :: tl (PyStr.split_at sep [] s).
Proof.
  revert cur. induction s as [|c s IH]; intros cur; cbn [PyStr.split_at].
  - cbn [hd tl rev]. now rewrite app_nil_r.
  - destruct (Ascii.eqb c sep).
    + cbn [hd tl rev]. now rewrite app_nil_r.
    + rewrite (IH (c :: cur)), (IH [c]). cbn [hd tl rev app].
      now rewrite <- app_assoc.
Qed.

Lemma split_sep_cons (sep c : ascii) (s : str) :
  PyStr.split_sep (c :: s) sep
  = if Ascii.eqb c sep then [] :: PyStr.split_sep s sep
    else (c :: hd [] (PyStr.split_sep s sep)) :: tl (PyStr.split_sep s sep).
Proof.
  unfold PyStr.split_sep. cbn [PyStr.split_at].
  destruct (Ascii.eqb c sep); [reflexivity|]. now rewrite split_at_cur.
Qed.

Lemma split_sep_not_nil (sep : ascii) (s : str) : PyStr.split_sep s sep <> [].
Proof.
  destruct s as [|c s]; [discriminate|]. rewrite split_sep_cons.
  destruct (Ascii.eqb c sep); discriminate.
Qed.

Lemma split_sep_snoc (sep c : ascii) (s : str) :
  PyStr.split_sep (s ++ [c]) sep
  = if Ascii.eqb c sep then PyStr.split_sep s sep ++ [[]]
    else removelast (PyStr.split_sep s sep) ++ [last (PyStr.split_sep s sep) [] ++ [c]].
Proof.
  induction s as [|d s IH].
  - cbn [app]. rewrite split_sep_cons. destruct (Ascii.eqb c sep); reflexivity.
  - cbn [app]. rewrite !split_sep_cons, IH.
    pose proof (split_sep_not_nil sep s) as Hn.
    destruct (PyStr.split_sep s sep) as [|h t]; [contradiction|].
    destruct (Ascii.eqb c sep), (Ascii.eqb d sep); cbn [hd tl app]; try reflexivity.
    destruct t as [|h' t]; reflexivity.
Qed.

Lemma split_sep_rev (sep : ascii) (s : str) :
  PyStr.split_sep (rev s) sep = rev (map (@rev ascii) (PyStr.split_sep s sep)).
Proof.
  induction s as [|c s IH]; [reflexivity|].
  cbn [rev]. rewrite split_sep_snoc, split_sep_cons, IH.
  pose proof (split_sep_not_nil sep s) as Hn.
  destruct (Ascii.eqb c sep); [reflexivity|].
  destruct (PyStr.split_sep s sep) as [|h t]; [contradiction|].
  cbn [hd tl map rev].
  now rewrite removelast_last, last_last.
Qed.

Lemma space_not_comma (c : ascii) : PyStr.is_space c = true -> Ascii.eqb c "," = false.
Proof.
  intros H. destruct (Ascii.eqb c ",") eqn:E; [|reflexivity].
  apply Ascii.eqb_eq in E. subst c. discriminate.
Qed.

Lemma strip_space_cons (c : ascii) (s : str) :
  PyStr.is_space c = true -> PyStr.strip (c :: s) = PyStr.strip s.
Proof.
  intros H. unfold PyStr.strip. cbn [PyStr.lstrip]. now rewrite H.
Qed.

Lemma lstrip_app_kept_tail (u : str) (c : ascii) (v : str) :
  PyStr.is_space c = false -> PyStr.lstrip (u ++ c :: v) = PyStr.lstrip u ++ c :: v.
Proof.
  intros H. induction u as [|a u IH]; cbn [app PyStr.lstrip].
  - now rewrite H.
  - destruct (PyStr.is_space a); [exact IH|reflexivity].
Qed.

Lemma lstrip_spaces (sp x : str) :
  forallb PyStr.is_space sp = true -> PyStr.lstrip (sp ++ x) = PyStr.lstrip x.
Proof.
  induction sp as [|a sp IH]; [reflexivity|].
  cbn [forallb app PyStr.lstrip]. intros H. apply andb_prop in H as [Ha H].
  rewrite Ha. now apply IH.
Qed.

Lemma lstrip_cut (s : str) :
  exists sp, s = sp ++ PyStr.lstrip s /\ forallb PyStr.is_space sp = true.
Proof.
  induction s as [|a s (sp & E & Hsp)]; [now exists []|].
  cbn [PyStr.lstrip]. destruct (PyStr.is_space a) eqn:Ea.
  - exists (a :: sp). cbn [forallb app]. rewrite Ea, Hsp. split; [now f_equal|reflexivity].
  - now exists [].
Qed.

Lemma strip_rev (s : str) : PyStr.strip (rev s) = rev (PyStr.strip s).
Proof.
  unfold PyStr.strip. rewrite rev_involutive.
  destruct (lstrip_cut s) as (sp & E & Hsp).
  destruct (PyStr.lstrip s) as [|c t] eqn:El.
  - rewrite app_nil_r in E. subst sp.
    replace (PyStr.lstrip (rev s)) with (@nil ascii); [reflexivity|].
    symmetry. rewrite <- (app_nil_r (rev s)). rewrite lstrip_spaces; [reflexivity|].
    now rewrite forallb_rev.
  - pose proof (lstrip_head _ El) as Hc.
    rewrite E at 1. rewrite rev_app_distr. cbn [rev]. rewrite <- app_assoc. cbn [app].
    rewrite lstrip_app_kept_tail by exact Hc.
    rewrite rev_app_distr. cbn [rev]. rewrite rev_involutive, <- app_assoc. cbn [app].
    rewrite lstrip_spaces by exact Hsp. rewrite lstrip_kept by exact Hc.
    cbn [rev]. rewrite rev_involutive.
    now rewrite lstrip_app_kept by exact Hc.
Qed.

Lemma split_lstrip (s : str) :
  map PyStr.strip (PyStr.split_sep (PyStr.lstrip s) ",")
  = map PyStr.strip (PyStr.split_sep s ",").
Proof.
  induction s as [|c s IH]; [reflexivity|].
  cbn [PyStr.lstrip]. destruct (PyStr.is_space c) eqn:Ec; [|reflexivity].
  rewrite IH, split_sep_cons, (space_not_comma _ Ec).
  pose proof (split_sep_not_nil "," s) as Hn.
  destruct (PyStr.split_sep s ",") as [|h t]; [contradiction|].
  cbn [hd tl map]. now rewrite strip_space_cons.
Qed.

Lemma map_strip_rev (l : list str) :
  map PyStr.strip (rev (map (@rev ascii) l)) = rev (map (@rev ascii) (map PyStr.strip l)).
Proof.
  rewrite map_rev, !map_map. f_equal. apply map_ext. intros p. apply strip_rev.
Qed.

Lemma split_strip (s : str) :
  map PyStr.strip (PyStr.split_sep (PyStr.strip s) ",")
  = map PyStr.strip (PyStr.split_sep s ",").
Proof.
  change (PyStr.strip s) with (rev (PyStr.lstrip (rev (PyStr.lstrip s)))).
  rewrite split_sep_rev, map_strip_rev, split_lstrip.
  rewrite split_sep_rev, map_strip_rev, split_lstrip.
  rewrite map_rev, rev_involutive, map_map.
  rewrite <- (map_id (map PyStr.strip (PyStr.split_sep s ","))) at 2.
  apply map_ext. intros p. apply rev_involutive.
Qed.

Lemma mem_lower_nonempty (x : str) (l : list str) :
  x <> [] ->
  mem x (map PyStr.lower
             (filter (fun term => negb (match term with [] => true | _ => false end)) l))
  = mem x (map PyStr.lower l).
Proof.
  intros Hx. induction l as [|y l IH]; [reflexivity|].
  cbn [filter map]. destruct y as [|a y]; cbn [negb].
  - cbn [map PyStr.lower]. rewrite mem_cons, IH.
    apply str_eqb_neq in Hx. now rewrite Hx.
  - cbn [map]. now rewrite !mem_cons, IH.
Qed.

Lemma filter_strip (l : list str) :
  map PyStr.strip
      (filter (fun term => negb (match PyStr.strip term with [] => true | _ => false end)) l)
  = filter (fun term => negb (match term with [] => true | _ => false end))
           (map PyStr.strip l).
Proof.
  induction l as [|y l IH]; [reflexivity|].
  cbn [filter map]. destruct (PyStr.strip y) eqn:E; cbn [negb map filter]; rewrite ?E, IH;
    reflexivity.
Qed.

Lemma exclusions_read_alike (line x : str) :
  x <> [] ->
  mem x (map PyStr.lower (FakePlates.exclusions_of_input line))
  = mem x (map PyStr.lower (Qtanon.exclusions_of_form line)).
Proof.
  intros Hx. unfold FakePlates.exclusions_of_input, Qtanon.exclusions_of_form.
  destruct line as [|c line]; [reflexivity|].
  rewrite filter_strip, mem_lower_nonempty by exact Hx.
  rewrite <- (split_strip (c :: line)).
  destruct (PyStr.strip (c :: line)) as [|a t] eqn:E; [|reflexivity].
  cbn. apply str_eqb_neq in Hx. now rewrite Hx.
Qed.

Lemma anonymize_same_exclusions (content : str) (replacements_data : list entry)
      (exclusions exclusions' : list str) :
  (forall x, x <> [] ->
             mem x (map PyStr.lower exclusions) = mem x (map PyStr.lower exclusions')) ->
  fst (Qtanon.anonymize_text_logic content replacements_data exclusions)
  = fst (Qtanon.anonymize_text_logic content replacements_data exclusions').
Proof.
  intros H. unfold Qtanon.anonymize_text_logic. cbn [fst].
  apply for_each_ext. intros c [p e]. unfold Qtanon.anonymize_step.
  destruct e as [|a e].
  - now destruct (mem _ _), (mem _ _).
  - rewrite H by discriminate. reflexivity.
Qed.

(** X11. The two programs read the exclusions from a line of text in different
    ways (fake-plates.py trims the line and keeps the empty terms, Qtanon.py
    drops the terms that are blank), and yet anonymize alike: for every line,
    the text anonymized with the exclusions fake-plates.py reads from it is
    the text anonymized with those Qtanon.py reads from it. *)
Theorem exclusions_are_read_alike (content : str) (replacements_data : list entry)
        (line : str) :
  fst (FakePlates.anonymize_text content replacements_data (FakePlates.exclusions_of_input line))
  = fst (Qtanon.anonymize_text_logic content replacements_data (Qtanon.exclusions_of_form line)).
Proof.
  change (FakePlates.anonymize_text content replacements_data
                                    (FakePlates.exclusions_of_input line))
    with (Qtanon.anonymize_text_logic content replacements_data
                                      (FakePlates.exclusions_of_input line)).
  apply anonymize_same_exclusions. intros x Hx. now apply exclusions_read_alike.
Qed.

(** ** What the anonymized text shows *)

Lemma match_here_nil (p : Re.pattern) (prev : option ascii) : Re.match_here p prev [] = false.
Proof.
  unfold Re.match_here. destruct (Re.literal p); reflexivity.
Qed.

Lemma match_here_at_star (e : str) (prev : option ascii) (s : str) :
  plain e = true -> Re.match_here (entity_pattern e) prev ("*"%char :: s) = false.
Proof.
  intros He. destruct e as [|a e]; [reflexivity|].
  destruct (Re.match_here _ _ _) eqn:E; [|reflexivity].
  apply match_here_prefix in E. cbn [entity_pattern Re.literal] in E.
  now rewrite prefix_ci_at_star in E.
Qed.

Lemma found_at_star (e : str) (prev : option ascii) (s : str) :
  plain e = true ->
  found (entity_pattern e) prev ("*"%char :: s) = found (entity_pattern e) (Some "*"%char) s.
Proof.
  intros He. cbn [found]. now rewrite match_here_at_star.
Qed.

Lemma found_over_run (e q Y : str) :
  plain e = true ->
  forall prev,
    found (entity_pattern e) prev (q ++ "**") = false ->
    found (entity_pattern e) prev (q ++ "*"%char :: Y)
    = found (entity_pattern e) (last_char prev q) ("*"%char :: Y).
Proof.
  intros He. induction q as [|c q IH]; intros prev H; [reflexivity|].
  cbn [app found] in *. apply orb_false_iff in H as [H1 H2].
  change (c :: q ++ "*"%char :: Y) with ((c :: q) ++ "*"%char :: Y) at 1.
  rewrite (match_here_run e (c :: q) Y ["*"%char] prev He). cbn [app].
  rewrite H1. cbn [orb]. now apply IH.
Qed.

Lemma found_over_placeholder (e q Y : str) (prev : option ascii) :
  plain e = true ->
  found (entity_pattern e) None ("**" ++ q ++ "**") = false ->
  found (entity_pattern e) prev ("**" ++ q ++ "**" ++ Y)
  = found (entity_pattern e) (Some "*"%char) Y.
Proof.
  intros He H. cbn [app] in *.
  rewrite !found_at_star in H by exact He.
  rewrite !found_at_star by exact He.
  change (q ++ "*"%char :: "*"%char :: Y) with (q ++ "*"%char :: ("*"%char :: Y)).
  rewrite found_over_run by assumption.
  now rewrite !found_at_star by exact He.
Qed.

Lemma found_suffix (p : Re.pattern) (a b : str) :
  forall prev, found p prev (a ++ b) = false -> found p (last_char prev a) b = false.
Proof.
  induction a as [|c a IH]; intros prev H; [exact H|].
  cbn [app found] in H. apply orb_false_iff in H as [_ H]. now apply IH.
Qed.

Lemma found_head (p : Re.pattern) (prev : option ascii) (s : str) :
  found p prev s = false -> Re.match_here p prev s = false.
Proof.
  destruct s; cbn [found]; intros H; now apply orb_false_iff in H as [H _].
Qed.

Lemma last_char_app (prev : option ascii) (a b : str) :
  last_char prev (a ++ b) = last_char (last_char prev a) b.
Proof.
  unfold last_char. apply fold_left_app.
Qed.

Lemma covered_suffix (cand pat : Re.pattern) (prev : option ascii) (a b : str) :
  covered cand pat prev (a ++ b) -> covered cand pat (last_char prev a) b.
Proof.
  intros H a' b' -> Hm. rewrite <- last_char_app in *.
  apply H; [now rewrite app_assoc|exact Hm].
Qed.

Lemma covered_head (cand pat : Re.pattern) (prev : option ascii) (s : str) :
  covered cand pat prev s ->
  Re.match_here cand prev s = true -> Re.match_here pat prev s = true.
Proof.
  intros H. apply (H [] s). reflexivity.
Qed.

Lemma covered_self (pat : Re.pattern) (prev : option ascii) (s : str) :
  covered pat pat prev s.
Proof.
  intros a b _ H. exact H.
Qed.

Lemma covered_not_found (cand pat : Re.pattern) (prev : option ascii) (s : str) :
  found cand prev s = false -> covered cand pat prev s.
Proof.
  intros H a b -> Hm. apply found_suffix, found_head in H. congruence.
Qed.

Section HidesEntity.
Variable ej : str.             (* the entity being replaced *)
Variable q : str.              (* by this placeholder *)
Variable ei : str.             (* the entity looked for in the result *)
Hypothesis ej_not_empty : ej <> [].
Hypothesis ei_plain : plain ei = true.
Hypothesis not_in_bold : found (entity_pattern ei) None ("**" ++ q ++ "**") = false.

Local Abbreviation pat := (entity_pattern ej).
Local Abbreviation cand := (entity_pattern ei).
Local Abbreviation repl := (fun (_ : unit) (_ : str) => ("**" ++ q ++ "**", tt)).

Lemma match_here_start (prev : option ascii) (s : str) :
  Re.match_here pat prev s = true -> Re.boundary prev (hd_error s) = true.
Proof.
  unfold Re.match_here. cbn [entity_pattern Re.literal Re.word_bounded].
  destruct (length ej); [discriminate|]. intros E.
  apply andb_prop in E as [_ E]. cbn [negb orb] in E. now apply andb_prop in E as [E _].
Qed.

Lemma scan_head_boundary (prev : option ascii) (s : str) :
  Re.boundary prev (hd_error (Re.scan pat repl prev 0 tt s)) = true ->
  Re.boundary prev (hd_error s) = true.
Proof.
  destruct s as [|c s]; [exact (fun H => H)|].
  cbn [Re.scan]. destruct (Re.match_here pat prev (c :: s)) eqn:E.
  - intros _. now apply match_here_start.
  - exact (fun H => H).
Qed.

Lemma prefix_through_scan (lit : str) :
  plain lit = true ->
  forall prev s,
    Re.prefix_ci lit (Re.scan pat repl prev 0 tt s) = true ->
    Re.prefix_ci lit s = true
    /\ forall k, length lit = S k ->
                 Re.boundary (nth_error (Re.scan pat repl prev 0 tt s) k)
                             (nth_error (Re.scan pat repl prev 0 tt s) (S k)) = true ->
                 Re.boundary (nth_error s k) (nth_error s (S k)) = true.
Proof.
  intros Hlit. induction lit as [|a lit IH]; intros prev s H.
  - split; [reflexivity|discriminate].
  - pose proof Hlit as Hlit0.
    apply plain_cons in Hlit as [Ha Hlit]. specialize (IH Hlit).
    destruct s as [|c s]; [discriminate|].
    cbn [Re.scan] in *. destruct (Re.match_here pat prev (c :: s)) eqn:E.
    + cbn [app] in H. rewrite prefix_ci_at_star in H by (discriminate || exact Hlit0).
      discriminate.
    + cbn [Re.prefix_ci] in *. apply andb_prop in H as [Hc H].
      destruct (IH (Some c) s H) as [IH1 IH2]. split; [now rewrite Hc, IH1|].
      intros k [= Hk]. destruct lit as [|a' lit].
      * cbn [length] in Hk. subst k. cbn [nth_error].
        change (nth_error (Re.scan pat repl (Some c) 0 tt s) 0)
          with (hd_error (Re.scan pat repl (Some c) 0 tt s)).
        change (nth_error s 0) with (hd_error s).
        apply scan_head_boundary.
      * cbn [length] in Hk. subst k. cbn [nth_error]. now apply IH2.
Qed.

Lemma match_through_scan (prev prev' : option ascii) (s : str) :
  written_edge prev prev' s ->
  Re.match_here cand prev' (Re.scan pat repl prev 0 tt s) = true ->
  Re.match_here cand prev s = true.
Proof.
  intros Hedge. unfold Re.match_here. cbn [entity_pattern Re.literal Re.word_bounded].
  destruct (length ei) as [|k] eqn:Hk; [discriminate|].
  cbn [negb orb]. intros H.
  apply andb_prop in H as [Hpre H]. apply andb_prop in H as [Hb1 Hb2].
  destruct (prefix_through_scan ei ei_plain prev s Hpre) as [Hpre' Hend].
  rewrite Hpre', (Hend k Hk Hb2), andb_true_r. cbn [andb].
  destruct Hedge as [->|[-> Hedge]].
  - (* nothing was replaced just before: the first character is the same *)
    destruct s as [|c s]; [destruct ei; discriminate|].
    cbn [Re.scan] in Hb1, Hpre. destruct (Re.match_here pat prev (c :: s)) eqn:E.
    + now apply match_here_start.
    + exact Hb1.
  - exact Hedge.
Qed.

Lemma scan_hides (s : str) :
  forall prev prev',
    written_edge prev prev' s ->
    covered cand pat prev s ->
    found cand prev' (Re.scan pat repl prev 0 tt s) = false.
Proof.
  induction s as [s IH] using (induction_ltof1 _ (@length ascii)). unfold ltof in IH.
  intros prev prev' Hedge Hcov.
  destruct s as [|c s]; [cbn; apply orb_false_iff; split; [apply match_here_nil|reflexivity]|].
  destruct (Re.match_here pat prev (c :: s)) eqn:E.
  - (* an occurrence of the entity being replaced *)
    pose proof (match_here_prefix _ _ _ E) as Hpre. cbn [entity_pattern Re.literal] in Hpre.
    destruct (prefix_ci_split _ _ Hpre) as (m & rest & Es & Hl & Hm).
    rewrite Es in *. clear Es.
    rewrite scan_match by assumption. cbn [fst snd].
    rewrite <- !app_assoc. rewrite found_over_placeholder by assumption.
    assert (Hm0 : m <> []) by (destruct m; [destruct ej; [contradiction|discriminate]|discriminate]).
    apply IH.
    + rewrite length_app. destruct m; [contradiction|cbn; lia].
    + right. split; [reflexivity|].
      rewrite match_here_bounded in E by assumption.
      apply andb_prop in E as [_ E]. apply andb_prop in E as [_ E].
      destruct m as [|x m]; [contradiction|]. exact E.
    + now apply covered_suffix.
  - (* a character that is kept *)
    rewrite scan_no_match by exact E. cbn [found]. apply orb_false_iff. split.
    + destruct (Re.match_here cand prev' (c :: Re.scan pat repl (Some c) 0 tt s)) eqn:Ec;
        [|reflexivity].
      rewrite <- (scan_no_match pat repl prev tt c s E) in Ec.
      apply (match_through_scan Hedge) in Ec.
      apply (covered_head Hcov) in Ec. congruence.
    + apply IH.
      * cbn. lia.
      * now left.
      * apply (@covered_suffix cand pat prev [c] s Hcov).
Qed.

End HidesEntity.

Lemma found_empty (prev : option ascii) (s : str) : found (entity_pattern []) prev s = false.
Proof.
  revert prev. induction s as [|c s IH]; intros prev; cbn [found]; [reflexivity|].
  now rewrite IH.
Qed.

Lemma hiding_spec (replacements_data : list entry) :
  hiding replacements_data = true ->
  forall row, In row replacements_data ->
    no_backslash (fst row) = true
    /\ plain (snd row) = true
    /\ forall q, In q replacements_data ->
                 found (entity_pattern (snd row)) None ("**" ++ fst q ++ "**") = false.
Proof.
  unfold hiding. intros H row Hin.
  apply andb_prop in H as [H H3]. apply andb_prop in H as [H1 H2].
  rewrite forallb_forall in H1, H2, H3.
  split; [now apply H1|]. split; [now apply H2|].
  intros q Hq. specialize (H3 row Hin). rewrite forallb_forall in H3.
  apply negb_true_iff. now apply H3.
Qed.

Lemma anonymize_loop_hides (all : list entry) (exclusions_lower : list str) (rows : list entry) :
  hiding all = true ->
  incl rows all ->
  forall done content,
    incl done all ->
    (forall r, In r done -> mem (PyStr.lower (snd r)) exclusions_lower = false ->
               found (entity_pattern (snd r)) None content = false) ->
    exists anonymized,
      Qtanon.for_each (Qtanon.anonymize_step exclusions_lower) rows content = Returned anonymized
      /\ forall r, In r (done ++ rows) ->
                   mem (PyStr.lower (snd r)) exclusions_lower = false ->
                   found (entity_pattern (snd r)) None anonymized = false.
Proof.
  intros Hall. induction rows as [|[p e] rows IH]; intros Hrows done content Hdone Hhid.
  - exists content. split; [reflexivity|]. rewrite app_nil_r. exact Hhid.
  - cbn [Qtanon.for_each].
    destruct (hiding_spec _ Hall (p, e)) as (Hp & He & Hq); [apply Hrows; now left|].
    cbn [fst snd] in Hp, He, Hq.
    rewrite anonymize_step_plain by exact Hp.
    set (content' := if mem (PyStr.lower e) exclusions_lower then content
                     else match e with
                          | [] => content
                          | _ => Re.scan (entity_pattern e)
                                         (fun (_ : unit) (_ : str) => ("**" ++ p ++ "**", tt))
                                         None 0 tt content
                          end).
    destruct (IH (fun r Hr => Hrows r (or_intror Hr)) (done ++ [(p, e)]) content')
      as (A & EA & HA).
    + intros r Hr. apply in_app_or in Hr as [Hr|[<-|[]]]; [now apply Hdone|].
      apply Hrows. now left.
    + intros r Hr Hex. subst content'.
      apply in_app_or in Hr as [Hr|[<-|[]]].
      * (* an entity replaced before *)
        destruct (mem (PyStr.lower e) exclusions_lower); [now apply Hhid|].
        destruct e as [|a e]; [now apply Hhid|].
        destruct (hiding_spec _ Hall r (Hdone r Hr)) as (_ & Hr2 & Hr3).
        apply scan_hides.
        -- discriminate.
        -- exact Hr2.
        -- apply (Hr3 (p, (a :: e))). apply Hrows. now left.
        -- now left.
        -- apply covered_not_found. now apply Hhid.
      * (* the entity replaced now *)
        cbn [snd] in *. rewrite Hex.
        destruct e as [|a e]; [apply found_empty|].
        apply scan_hides.
        -- discriminate.
        -- exact He.
        -- apply (Hq (p, (a :: e))). apply Hrows. now left.
        -- now left.
        -- apply covered_self.
    + exists A. split; [exact EA|].
      intros r Hr. apply HA. rewrite <- app_assoc. exact Hr.
Qed.

Lemma anonymize_hides (content : str) (replacements_data : list entry) (exclusions : list str) :
  hiding replacements_data = true ->
  exists anonymized,
    fst (Qtanon.anonymize_text_logic content replacements_data exclusions) = Returned anonymized
    /\ forall row, In row replacements_data ->
                   excluded exclusions row = false ->
                   found (entity_pattern (snd row)) None anonymized = false.
Proof.
  intros H. unfold Qtanon.anonymize_text_logic. cbn [fst].
  destruct (anonymize_loop_hides (map PyStr.lower exclusions)
              (rows := sort_desc (fun x : entry => length (snd x)) replacements_data)
              H) with (done := @nil entry) (content := content) as (A & EA & HA).
  - intros r Hr. eapply Permutation_in; [apply Permutation_sym, sort_desc_perm|exact Hr].
  - intros r [].
  - intros r [].
  - exists A. split; [exact EA|]. intros row Hin Hex. apply HA; [|exact Hex].
    cbn [app]. eapply Permutation_in; [apply sort_desc_perm|exact Hin].
Qed.

(** X12. The anonymized text hides the real entities: when no placeholder
    holds a backslash, no real entity holds an asterisk and no real entity
    stands as a whole word inside a bolded placeholder of the list, the text
    returned holds no real entity of the list as a whole word, in whatever
    case, except those left in by the exclusions. *)
Theorem anonymized_text_hides_entities
        (content : str) (replacements_data : list entry) (exclusions : list str) :
  hiding replacements_data = true ->
  exists anonymized,
    fst (Qtanon.anonymize_text_logic content replacements_data exclusions) = Returned anonymized
    /\ forall row, In row replacements_data ->
                   excluded exclusions row = false ->
                   found (entity_pattern (snd row)) None anonymized = false.
Proof.
  apply anonymize_hides.
Qed.

Lemma anonymized_text_hides_entities_witness :
  exists anonymized,
    fst (Qtanon.anonymize_text_logic
           "Ann Lee met ann at Acme; Lee-Ann and ANN LEE left with Leeann."
           [("person_001", "Ann"); ("person_002", "Ann Lee"); ("org_001", "Acme")] ["acme"])
    = Returned anonymized
    /\ forall row, In row [("person_001", "Ann"); ("person_002", "Ann Lee"); ("org_001", "Acme")] ->
                   excluded ["acme"] row = false ->
                   found (entity_pattern (snd row)) None anonymized = false.
Proof.
  apply anonymized_text_hides_entities. reflexivity.
Defined.

(** X13. Anonymizing twice is anonymizing once: under the same condition, the
    text returned is returned as it is when it is anonymized again with the
    same list and the same exclusions. *)
Theorem anonymization_is_idempotent
        (content : str) (replacements_data : list entry) (exclusions : list str) :
  hiding replacements_data = true ->
  exists anonymized,
    fst (Qtanon.anonymize_text_logic content replacements_data exclusions) = Returned anonymized
    /\ fst (Qtanon.anonymize_text_logic anonymized replacements_data exclusions)
       = Returned anonymized.
Proof.
  intros H. destruct (@anonymize_hides content replacements_data exclusions H) as (A & EA & HA).
  exists A. split; [exact EA|].
  unfold Qtanon.anonymize_text_logic. cbn [fst].
  apply for_each_fixed. intros [p e] Hin.
  assert (Hin' : In (p, e) replacements_data)
    by (eapply Permutation_in; [apply Permutation_sym, sort_desc_perm|exact Hin]).
  destruct (hiding_spec _ H (p, e) Hin') as (Hp & _ & _). cbn [fst] in Hp.
  rewrite anonymize_step_plain by exact Hp.
  destruct (mem (PyStr.lower e) (map PyStr.lower exclusions)) eqn:Hex; [reflexivity|].
  destruct e as [|a e]; [reflexivity|].
  rewrite scan_not_found; [reflexivity|].
  apply (HA (p, a :: e) Hin' Hex).
Qed.

Lemma anonymization_is_idempotent_witness :
  exists anonymized,
    fst (Qtanon.anonymize_text_logic
           "Ann Lee met ann at Acme; Lee-Ann and ANN LEE left with Leeann."
           [("person_001", "Ann"); ("person_002", "Ann Lee"); ("org_001", "Acme")] ["acme"])
    = Returned anonymized
    /\ fst (Qtanon.anonymize_text_logic
              anonymized
              [("person_001", "Ann"); ("person_002", "Ann Lee"); ("org_001", "Acme")] ["acme"])
       = Returned anonymized.
Proof.
  apply anonymization_is_idempotent. reflexivity.
Defined.

(** ** Markdown cleaning *)

Lemma clean_text_trimmed (pk : Qtanon.packages) (raw_text : str) :
  PyStr.strip (Qtanon.clean_text_from_markdown pk raw_text)
  = Qtanon.clean_text_from_markdown pk raw_text.
Proof.
  unfold Qtanon.clean_text_from_markdown, Qtanon.clean_without_markdown.
  destruct (Qtanon.markdown pk) as [md|]; [|apply strip_strip].
  destruct (md raw_text); apply strip_strip.
Qed.

(** X14. Whatever the Markdown package does (absent, failing or converting),
    the cleaned text carries no white space at either end; the extraction
    therefore gives up on a text exactly when its cleaned text is empty, the
    second half of its test, [not cleaned_text.strip()], adding nothing. *)
Theorem cleaned_text_is_trimmed :
  (forall pk raw_text,
      PyStr.strip (Qtanon.clean_text_from_markdown pk raw_text)
      = Qtanon.clean_text_from_markdown pk raw_text)
  /\ (forall nlp pk text_content selected_spacy_labels,
         Qtanon.extract_entities_to_csv_data
           (Some nlp) (Qtanon.clean_text_from_markdown pk) text_content selected_spacy_labels
         = None
         <-> Qtanon.clean_text_from_markdown pk text_content = []).
Proof.
  split; [exact clean_text_trimmed|].
  intros nlp pk text_content sel. unfold Qtanon.extract_entities_to_csv_data.
  cbv zeta.
  destruct (Qtanon.clean_text_from_markdown pk text_content) as [|a l] eqn:E;
    [split; reflexivity|].
  rewrite <- E at 1. rewrite clean_text_trimmed, E. split; discriminate.
Qed.

Lemma forallb_lstrip (f : ascii -> bool) (s : str) :
  forallb f s = true -> forallb f (PyStr.lstrip s) = true.
Proof.
  induction s as [|c s IH]; [reflexivity|].
  cbn [PyStr.lstrip]. destruct (PyStr.is_space c); [|exact (fun H => H)].
  cbn [forallb]. intros H. apply andb_prop in H as [_ H]. now apply IH.
Qed.

Lemma forallb_strip (f : ascii -> bool) (s : str) :
  forallb f s = true -> forallb f (PyStr.strip s) = true.
Proof.
  intros H. unfold PyStr.strip. rewrite forallb_rev. apply forallb_lstrip.
  rewrite forallb_rev. now apply forallb_lstrip.
Qed.

Lemma drop_markup_clean (s : str) :
  forallb (fun c => negb (Patterns.is_markup c)) (Patterns.drop_markup s) = true.
Proof.
  unfold Patterns.drop_markup. induction s as [|c s IH]; [reflexivity|].
  cbn [filter]. destruct (Patterns.is_markup c) eqn:E; cbn [negb]; [exact IH|].
  cbn [forallb]. now rewrite E, IH.
Qed.

Lemma drop_markup_id (s : str) :
  forallb (fun c => negb (Patterns.is_markup c)) s = true -> Patterns.drop_markup s = s.
Proof.
  unfold Patterns.drop_markup. induction s as [|c s IH]; [reflexivity|].
  cbn [forallb filter]. intros H. apply andb_prop in H as [Hc H].
  rewrite Hc. now rewrite IH.
Qed.

Lemma link_text_id (s : str) :
  forallb (fun c => negb (Ascii.eqb c "[")) s = true -> Patterns.link_text s = s.
Proof.
  unfold Patterns.link_text. induction s as [|c s IH]; [reflexivity|].
  cbn [forallb Patterns.link_text_from]. intros H. apply andb_prop in H as [Hc H].
  apply negb_true_iff in Hc. rewrite Hc. now rewrite IH.
Qed.

Lemma span_app (f : ascii -> bool) (a : str) (c : ascii) (b : str) :
  forallb f a = true -> f c = false -> Patterns.span f (a ++ c :: b) = (a, c :: b).
Proof.
  intros Ha Hc. induction a as [|x a IH]; cbn [app Patterns.span].
  - now rewrite Hc.
  - cbn [forallb] in Ha. apply andb_prop in Ha as [Hx Ha]. rewrite Hx, (IH Ha). reflexivity.
Qed.

Lemma link_text_skip (m rest : str) :
  Patterns.link_text_from (length m) (m ++ rest) = Patterns.link_text_from 0 rest.
Proof.
  induction m as [|c m IH]; [destruct rest; reflexivity|exact IH].
Qed.

Lemma link_text_before (pre s : str) :
  forallb (fun c => negb (Ascii.eqb c "[")) pre = true ->
  Patterns.link_text_from 0 (pre ++ s) = pre ++ Patterns.link_text_from 0 s.
Proof.
  induction pre as [|c pre IH]; [reflexivity|].
  cbn [forallb app Patterns.link_text_from]. intros H. apply andb_prop in H as [Hc H].
  apply negb_true_iff in Hc. rewrite Hc. now rewrite IH.
Qed.

Lemma link_text_link (label target post : str) :
  label <> [] -> target <> [] ->
  forallb (Patterns.is_not "]") label = true ->
  forallb (Patterns.is_not ")") target = true ->
  Patterns.link_text_from 0 ("[" ++ label ++ "](" ++ target ++ ")" ++ post)
  = label ++ Patterns.link_text_from 0 post.
Proof.
  intros Hl Ht Hl' Ht'.
  cbn [app Patterns.link_text_from]. cbn [Ascii.eqb Bool.eqb].
  rewrite span_app by (exact Hl' || reflexivity).
  destruct label as [|a label]; [contradiction|].
  rewrite span_app by (exact Ht' || reflexivity).
  destruct target as [|b target]; [contradiction|].
  f_equal.
  assert (E : (a :: label) ++ "]"%char :: "("%char :: (b :: target) ++ ")"%char :: post
               = ((a :: label) ++ "](" ++ (b :: target) ++ ")") ++ post).
  { rewrite <- (app_assoc (a :: label)). f_equal. cbn [app]. do 3 f_equal.
    now rewrite <- app_assoc. }
  rewrite E.
  replace (length (a :: label) + 2 + length (b :: target) + 1)
    with (length ((a :: label) ++ "](" ++ (b :: target) ++ ")"))
    by (cbn [app length]; rewrite !length_app; cbn [length]; rewrite ?length_app; cbn [length]; lia).
  apply link_text_skip.
Qed.

Lemma forallb_and (A : Type) (f g : A -> bool) (l : list A) :
  forallb (fun x => f x && g x) l = forallb f l && forallb g l.
Proof.
  induction l as [|x l IH]; [reflexivity|].
  cbn [forallb]. rewrite IH. destruct (f x), (g x), (forallb f l); reflexivity.
Qed.

(** X15. Without the Markdown package the cleaner falls back on two
    substitutions: the cleaned text then holds none of the characters
    asterisk, hash, backquote, underscore and tilde, and a text that holds
    none of them and no opening bracket is only trimmed. *)
Theorem cleaning_without_markdown (html_unescape : option (str -> str)) (raw_text : str) :
  let pk := {| Qtanon.markdown := None; Qtanon.html_unescape := html_unescape |} in
  forallb (fun c => negb (Patterns.is_markup c)) (Qtanon.clean_text_from_markdown pk raw_text)
  = true
  /\ (forallb (fun c => negb (Patterns.is_markup c) && negb (Ascii.eqb c "[")) raw_text = true ->
      Qtanon.clean_text_from_markdown pk raw_text = PyStr.strip raw_text).
Proof.
  cbv zeta. unfold Qtanon.clean_text_from_markdown, Qtanon.clean_without_markdown.
  cbn [Qtanon.markdown]. split.
  - apply forallb_strip, drop_markup_clean.
  - rewrite forallb_and. intros H. apply andb_prop in H as [H1 H2].
    now rewrite link_text_id, drop_markup_id.
Qed.

Lemma cleaning_without_markdown_witness :
  Qtanon.clean_text_from_markdown {| Qtanon.markdown := None; Qtanon.html_unescape := None |}
                                  "  Ann (see note 3) met Bob.  "
  = PyStr.strip "  Ann (see note 3) met Bob.  ".
Proof.
  apply (proj2 (cleaning_without_markdown None "  Ann (see note 3) met Bob.  ")).
  reflexivity.
Defined.

(** X16. In that fallback a link keeps its text only: in a text otherwise free
    of markup characters and opening brackets, [[label](target)] is replaced
    by [label], whatever the target (any text without a closing parenthesis). *)
Theorem link_keeps_its_text (html_unescape : option (str -> str))
        (pre label target post : str) :
  forallb (fun c => negb (Patterns.is_markup c) && negb (Ascii.eqb c "[")) (pre ++ label ++ post)
  = true ->
  label <> [] -> target <> [] ->
  forallb (Patterns.is_not "]") label = true ->
  forallb (Patterns.is_not ")") target = true ->
  Qtanon.clean_text_from_markdown
    {| Qtanon.markdown := None; Qtanon.html_unescape := html_unescape |}
    (pre ++ "[" ++ label ++ "](" ++ target ++ ")" ++ post)
  = PyStr.strip (pre ++ label ++ post).
Proof.
  intros H Hl Ht Hl' Ht'.
  unfold Qtanon.clean_text_from_markdown, Qtanon.clean_without_markdown.
  cbn [Qtanon.markdown].
  rewrite forallb_and in H. apply andb_prop in H as [H1 H2].
  rewrite !forallb_app in H2. apply andb_prop in H2 as [Hpre H2].
  apply andb_prop in H2 as [_ Hpost].
  unfold Patterns.link_text.
  rewrite link_text_before by exact Hpre.
  rewrite link_text_link by assumption.
  fold (Patterns.link_text post). rewrite link_text_id by exact Hpost.
  now rewrite drop_markup_id.
Qed.

Lemma link_keeps_its_text_witness :
  Qtanon.clean_text_from_markdown
    {| Qtanon.markdown := None; Qtanon.html_unescape := None |}
    ("See " ++ "[" ++ "Jane Doe" ++ "](" ++ "https://example.org/a_b#c" ++ ")" ++ " today. ")
  = PyStr.strip ("See " ++ "Jane Doe" ++ " today. ").
Proof.
  apply link_keeps_its_text; (reflexivity || discriminate).
Defined.

(** ** The model cache *)

Lemma dict_has_set (V : Type) (d : dict V) (k : str) (v : V) : dict_has (dict_set d k v) k = true.
Proof.
  unfold dict_has. induction d as [|[k' v'] d IH]; cbn [dict_set dict_get].
  - now rewrite str_eqb_refl.
  - destruct (str_eqb k k') eqn:E; cbn [dict_get]; now rewrite E.
Qed.



(** ** The download sequence *)

Lemma download_until_success (Model : Type) (worker : Qtanon.download_worker)
      (_model_cache : dict (option Model)) (pre : list str) (model : str) (post : list str) :
  forall k,
    all_fail worker k pre = true ->
    worker (k + length pre) model = Some true ->
    Qtanon.download_model_sequence worker k _model_cache (pre ++ model :: post)
    = (Some (Qtanon.DownloadFinished true model),
       if dict_has _model_cache model then dict_del _model_cache model else _model_cache,
       pre ++ [model]).
Proof.
  induction pre as [|x pre IH]; intros k Hfail Hok.
  - cbn [app Qtanon.download_model_sequence length] in *. rewrite Nat.add_0_r in Hok.
    rewrite Hok. reflexivity.
  - cbn [app Qtanon.download_model_sequence all_fail length] in *.
    destruct (worker k x) as [[|]|]; try discriminate.
    unfold Qtanon._handle_download_worker_finished.
    rewrite IH; [|exact Hfail|now rewrite Nat.add_succ_comm].
    destruct (pre ++ model :: post) eqn:E; [destruct pre; discriminate|reflexivity].
Qed.

Lemma download_all_fail (Model : Type) (worker : Qtanon.download_worker)
      (_model_cache : dict (option Model)) (models : list str) :
  forall k,
    models <> [] ->
    all_fail worker k models = true ->
    Qtanon.download_model_sequence worker k _model_cache models
    = (Some (Qtanon.DownloadFinished false (last models [])), _model_cache, models).
Proof.
  induction models as [|x models IH]; intros k Hne Hfail; [contradiction|].
  cbn [Qtanon.download_model_sequence all_fail] in *.
  destruct (worker k x) as [[|]|]; try discriminate.
  unfold Qtanon._handle_download_worker_finished.
  destruct models as [|y models]; [reflexivity|].
  rewrite IH; [reflexivity|discriminate|exact Hfail].
Qed.

(** X18. The models are tried in the order of the list and the sequence stops
    at the first download that succeeds: the models after it are not tried,
    the signal names it, and its entry leaves the cache. When every download
    fails the signal reports the failure and names the last model of the list. *)
Theorem download_falls_back_in_order (Model : Type) (worker : Qtanon.download_worker)
        (k : nat) (_model_cache : dict (option Model)) :
  (forall pre model post,
      all_fail worker k pre = true ->
      worker (k + length pre) model = Some true ->
      Qtanon.download_model_sequence worker k _model_cache (pre ++ model :: post)
      = (Some (Qtanon.DownloadFinished true model),
         if dict_has _model_cache model then dict_del _model_cache model else _model_cache,
         pre ++ [model]))
  /\ (forall models,
         models <> [] ->
         all_fail worker k models = true ->
         Qtanon.download_model_sequence worker k _model_cache models
         = (Some (Qtanon.DownloadFinished false (last models [])), _model_cache, models)).
Proof.
  split.
  - intros pre model post. apply download_until_success.
  - intros models. apply download_all_fail.
Qed.

Lemma download_falls_back_in_order_witness :
  Qtanon.download_model_sequence
    (fun _ model => Some (str_eqb model "en_core_web_md")) 0
    [("en_core_web_md", Some 7)]
    (["en_core_web_lg"] ++ "en_core_web_md" :: ["en_core_web_sm"])
  = (Some (Qtanon.DownloadFinished true "en_core_web_md"), [],
     ["en_core_web_lg"] ++ ["en_core_web_md"]).
Proof.
  apply (proj1 (download_falls_back_in_order
                  (fun _ model => Some (str_eqb model "en_core_web_md")) 0
                  [("en_core_web_md", Some 7)])
               ["en_core_web_lg"] "en_core_web_md" ["en_core_web_sm"]); reflexivity.
Defined.

(** ** Paths *)

Lemma rfind_absent (s : str) (c : ascii) :
  ~ In c s -> PyStr.rfind s c = None.
Proof.
  induction s as [|d s IH]; [reflexivity|].
  cbn [PyStr.rfind In]. intros H. rewrite IH by tauto.
  destruct (Ascii.eqb d c) eqn:E; [|reflexivity].
  apply Ascii.eqb_eq in E. tauto.
Qed.

Lemma rfind_last (a b : str) (c : ascii) :
  ~ In c b -> PyStr.rfind (a ++ c :: b) c = Some (length a).
Proof.
  intros H. induction a as [|d a IH]; cbn [app PyStr.rfind length].
  - rewrite rfind_absent by exact H. now rewrite Ascii.eqb_refl.
  - now rewrite IH.
Qed.

Lemma rfind_cut (s : str) (c : ascii) :
  match PyStr.rfind s c with
  | Some i => exists a b, s = a ++ c :: b /\ length a = i /\ ~ In c b
  | None => ~ In c s
  end.
Proof.
  induction s as [|d s IH]; cbn [PyStr.rfind]; [tauto|].
  destruct (PyStr.rfind s c) as [i|].
  - destruct IH as (a & b & -> & <- & Hb). now exists (d :: a), b.
  - destruct (Ascii.eqb d c) eqn:E.
    + apply Ascii.eqb_eq in E. subst d. now exists [], s.
    + apply Ascii.eqb_neq in E. cbn [In]. intros [H|H]; [congruence|tauto].
Qed.

(** A path is a head, empty or ending with a slash, and a last component
    without slash. *)
Lemma path_cut (p : str) :
  exists h t,
    p = h ++ t /\ PosixPath.after_last_sep p = length h /\ ~ In PosixPath.sep t
    /\ (h = [] \/ exists h', h = h' ++ [PosixPath.sep]).
Proof.
  unfold PosixPath.after_last_sep. pose proof (rfind_cut p PosixPath.sep) as H.
  destruct (PyStr.rfind p PosixPath.sep) as [i|].
  - destruct H as (a & b & -> & <- & Hb).
    exists (a ++ [PosixPath.sep]), b. rewrite <- app_assoc, length_app. cbn [app length].
    repeat split; [exact Hb|]. right. now exists a.
  - exists [], p. repeat split; [exact H|now left].
Qed.

Lemma after_last_sep_app (h t : str) :
  ~ In PosixPath.sep t ->
  (h = [] \/ exists h', h = h' ++ [PosixPath.sep]) ->
  PosixPath.after_last_sep (h ++ t) = length h.
Proof.
  intros Ht [->|[h' ->]]; unfold PosixPath.after_last_sep.
  - cbn [app length]. now rewrite rfind_absent.
  - rewrite <- app_assoc. cbn [app]. rewrite rfind_last by exact Ht.
    rewrite length_app. reflexivity.
Qed.

Lemma basename_app (h t : str) :
  ~ In PosixPath.sep t ->
  (h = [] \/ exists h', h = h' ++ [PosixPath.sep]) ->
  PosixPath.basename (h ++ t) = t.
Proof.
  intros Ht Hh. unfold PosixPath.basename. rewrite after_last_sep_app by assumption.
  rewrite skipn_app, Nat.sub_diag, skipn_all. reflexivity.
Qed.

Lemma basename_no_sep (p : str) : ~ In PosixPath.sep (PosixPath.basename p).
Proof.
  destruct (path_cut p) as (h & t & E & Hi & Ht & Hh).
  rewrite E at 1. now rewrite basename_app.
Qed.

Lemma split_tail (p : str) : snd (PosixPath.split p) = PosixPath.basename p.
Proof.
  reflexivity.
Qed.

Lemma splitext_whole (p : str) :
  fst (PosixPath.splitext p) ++ snd (PosixPath.splitext p) = p.
Proof.
  unfold PosixPath.splitext.
  destruct (PyStr.rfind p PosixPath.extsep) as [dotIndex|]; [|apply app_nil_r].
  destruct (_ && _); [apply firstn_skipn|apply app_nil_r].
Qed.

(** The extension is empty or starts with a dot. *)
Lemma splitext_ext (p : str) :
  snd (PosixPath.splitext p) = [] \/ exists e, snd (PosixPath.splitext p) = "."%char :: e.
Proof.
  unfold PosixPath.splitext. pose proof (rfind_cut p PosixPath.extsep) as H.
  destruct (PyStr.rfind p PosixPath.extsep) as [dotIndex|]; [|now left].
  destruct (_ && _); [|now left].
  destruct H as (a & b & -> & <- & _). right. exists b. cbn [snd].
  rewrite skipn_app, Nat.sub_diag, skipn_all. reflexivity.
Qed.

Lemma endswith_sep (d : str) :
  PyStr.endswith d [PosixPath.sep] = true -> exists h', d = h' ++ [PosixPath.sep].
Proof.
  unfold PyStr.endswith. cbn [rev app]. intros H.
  destruct (rev d) as [|c r] eqn:E; [discriminate|].
  cbn [PyStr.startswith] in H. apply andb_prop in H as [H _].
  apply Ascii.eqb_eq in H. subst c. exists (rev r).
  rewrite <- (rev_involutive d), E. reflexivity.
Qed.

(** Joining a directory and a component without slash puts the component
    last. *)
Lemma join_cut (d f : str) :
  f <> [] -> ~ In PosixPath.sep f ->
  exists x, PosixPath.join d f = x ++ f /\ (x = [] \/ exists h', x = h' ++ [PosixPath.sep]).
Proof.
  intros Hf Hs. unfold PosixPath.join.
  destruct f as [|c f]; [contradiction|].
  cbn [PyStr.startswith]. destruct (Ascii.eqb PosixPath.sep c) eqn:E.
  { apply Ascii.eqb_eq in E. subst c. exfalso. apply Hs. now left. }
  cbn [andb]. destruct d as [|a d]; [exists []; split; [reflexivity|now left]|].
  destruct (PyStr.endswith (a :: d) [PosixPath.sep]) eqn:Ee.
  - exists (a :: d). split; [reflexivity|]. right. now apply endswith_sep.
  - exists ((a :: d) ++ [PosixPath.sep]). split; [now rewrite <- app_assoc|].
    right. now exists (a :: d).
Qed.

Lemma basename_join (d f : str) :
  f <> [] -> ~ In PosixPath.sep f -> PosixPath.basename (PosixPath.join d f) = f.
Proof.
  intros Hf Hs. destruct (@join_cut d f Hf Hs) as (x & -> & Hx). now apply basename_app.
Qed.

Lemma not_in_app (c : ascii) (a b : str) : ~ In c (a ++ b) <-> ~ In c a /\ ~ In c b.
Proof.
  rewrite in_app_iff. tauto.
Qed.

(** A suggestion made of the name of the file, a suffix that starts with
    an underscore and an extension is never the path of the file. *)
Lemma suggestion_differs (p d suffix ext' : str) :
  ~ In PosixPath.sep suffix -> ~ In PosixPath.sep ext' ->
  PosixPath.join d (fst (PosixPath.splitext (PosixPath.basename p))
                    ++ ("_"%char :: suffix) ++ ext') <> p.
Proof.
  intros Hs He Heq.
  pose proof (basename_no_sep p) as Hb.
  pose proof (splitext_whole (PosixPath.basename p)) as Hw.
  destruct (PosixPath.splitext (PosixPath.basename p)) as [name ext] eqn:Ex.
  cbn [fst snd] in *.
  assert (Hn : ~ In PosixPath.sep name /\ ~ In PosixPath.sep ext)
    by (apply not_in_app; now rewrite Hw).
  apply (f_equal PosixPath.basename) in Heq.
  rewrite basename_join in Heq.
  - rewrite <- Hw in Heq. apply app_inv_head in Heq.
    destruct (splitext_ext (PosixPath.basename p)) as [E|[e E]];
      rewrite Ex in E; cbn [snd] in E; rewrite E in Heq; discriminate.
  - destruct name; discriminate.
  - rewrite !not_in_app. repeat split; try tauto.
    cbn [In]. intros [H|H]; [discriminate|tauto].
Qed.

(** X19. The output path that is suggested is never the path of the input
    file, so that accepting it cannot overwrite the input: this holds for
    [get_output_file_path] of fake-plates.py in every mode, when the user
    answers nothing, and for the two suggestions of the window of Qtanon.py,
    in the anonymize and de-anonymize tabs. *)
Theorem suggested_output_is_not_the_input :
  (forall input_text_file_path operation_mode,
      FakePlates.get_output_file_path input_text_file_path operation_mode None
      <> input_text_file_path)
  /\ (forall file_path,
         Qtanon.suggested_output file_path "_anonymized" <> file_path
         /\ Qtanon.suggested_output file_path "_de-anonymized" <> file_path
         /\ Qtanon.suggested_output_on_tab file_path <> file_path).
Proof.
  split.
  - intros p mode. unfold FakePlates.get_output_file_path.
    rewrite (surjective_pairing (PosixPath.split p)), split_tail.
    pose proof (basename_no_sep p) as Hb.
    pose proof (splitext_whole (PosixPath.basename p)) as Hw.
    pose proof (@suggestion_differs p) as Hd.
    destruct (PosixPath.splitext (PosixPath.basename p)) as [name ext] eqn:Ex.
    cbn [fst snd] in *.
    assert (Hn : ~ In PosixPath.sep name /\ ~ In PosixPath.sep ext)
      by (apply not_in_app; now rewrite Hw).
    unfold dict_get_default, FakePlates.suffix_map. cbn [dict_get].
    destruct (str_eqb mode "anonymize") eqn:E1;
      [|destruct (str_eqb mode "de_anonymize") eqn:E2];
      [..|destruct (str_eqb mode "generate_csv") eqn:E3].
    + apply str_eqb_eq in E1. subst mode. apply Hd; [|tauto].
      cbn [In]. intros H. repeat (destruct H as [H|H]; [discriminate|]). exact H.
    + apply str_eqb_eq in E2. subst mode. apply Hd; [|tauto].
      cbn [In]. intros H. repeat (destruct H as [H|H]; [discriminate|]). exact H.
    + apply Hd; cbn [In]; intros H; repeat (destruct H as [H|H]; [discriminate|]); exact H.
    + apply Hd; [|tauto].
      cbn [In]. intros H. repeat (destruct H as [H|H]; [discriminate|]). exact H.
  - intros p. unfold Qtanon.suggested_output, Qtanon.suggested_output_on_tab.
    pose proof (@suggestion_differs p (PosixPath.dirname p)) as Hd.
    destruct (PosixPath.splitext (PosixPath.basename p)) as [name ext] eqn:Ex.
    cbn [fst snd] in *.
    assert (Hmd : ~ In PosixPath.sep ".md")
      by (cbn [In]; intros H; repeat (destruct H as [H|H]; [discriminate|]); exact H).
    assert (Htxt : ~ In PosixPath.sep ".txt")
      by (cbn [In]; intros H; repeat (destruct H as [H|H]; [discriminate|]); exact H).
    repeat split.
    + destruct (str_eqb (PyStr.lower ext) ".md"); apply Hd; try assumption;
        cbn [In]; intros H; repeat (destruct H as [H|H]; [discriminate|]); exact H.
    + destruct (str_eqb (PyStr.lower ext) ".md"); apply Hd; try assumption;
        cbn [In]; intros H; repeat (destruct H as [H|H]; [discriminate|]); exact H.
    + destruct (PyStr.endswith (PyStr.lower p) ".md"); apply Hd; try assumption;
        cbn [In]; intros H; repeat (destruct H as [H|H]; [discriminate|]); exact H.
Qed.

(** *** Splitting what was joined *)

Lemma split_app (h t : str) :
  ~ In PosixPath.sep t ->
  (h = [] \/ exists h', h = h' ++ [PosixPath.sep]) ->
  PosixPath.split (h ++ t)
  = (match h with
     | [] => []
     | _ => if str_eqb h (repeat PosixPath.sep (length h)) then h
            else PyStr.rstrip_char PosixPath.sep h
     end, t).
Proof.
  intros Ht Hh. unfold PosixPath.split. rewrite after_last_sep_app by assumption.
  rewrite firstn_app, Nat.sub_diag, firstn_all, skipn_app, Nat.sub_diag, skipn_all.
  cbn [firstn skipn app]. rewrite !app_nil_r. now destruct h.
Qed.

Lemma lstrip_char_kept (c d : ascii) (s : str) :
  d <> c -> PyStr.lstrip_char c (d :: s) = d :: s.
Proof.
  intros H. cbn [PyStr.lstrip_char]. apply Ascii.eqb_neq in H. now rewrite H.
Qed.

Lemma lstrip_char_head (c : ascii) (s : str) :
  match PyStr.lstrip_char c s with
  | [] => True
  | d :: _ => d <> c
  end.
Proof.
  induction s as [|a s IH]; [exact I|].
  cbn [PyStr.lstrip_char]. destruct (Ascii.eqb a c) eqn:E; [exact IH|].
  now apply Ascii.eqb_neq.
Qed.

Lemma lstrip_char_all (c : ascii) (s : str) :
  PyStr.lstrip_char c s = [] -> s = repeat c (length s).
Proof.
  induction s as [|a s IH]; [reflexivity|].
  cbn [PyStr.lstrip_char]. destruct (Ascii.eqb a c) eqn:E; [|discriminate].
  apply Ascii.eqb_eq in E. subst a. intros H. cbn [length repeat]. now rewrite <- IH.
Qed.

Lemma rev_repeat (c : ascii) (n : nat) : rev (repeat c n) = repeat c n.
Proof.
  induction n as [|n IH]; [reflexivity|].
  cbn [repeat rev]. rewrite IH. clear IH.
  induction n as [|n IH]; [reflexivity|]. cbn [repeat app]. now rewrite IH.
Qed.

(** The shapes of a directory name: empty, made of slashes, or ending
    with another character. *)
Lemma dirname_shape (p : str) :
  PosixPath.dirname p = []
  \/ (PosixPath.dirname p <> []
      /\ PosixPath.dirname p = repeat PosixPath.sep (length (PosixPath.dirname p)))
  \/ exists d c, PosixPath.dirname p = d ++ [c] /\ c <> PosixPath.sep.
Proof.
  unfold PosixPath.dirname.
  destruct (path_cut p) as (h & t & E & _ & Ht & Hh). rewrite E.
  rewrite split_app by assumption. cbn [fst].
  destruct h as [|a h]; [now left|]. right.
  destruct (str_eqb (a :: h) (repeat PosixPath.sep (length (a :: h)))) eqn:Ea.
  - left. apply str_eqb_eq in Ea. split; [discriminate|exact Ea].
  - right. unfold PyStr.rstrip_char.
    pose proof (lstrip_char_head PosixPath.sep (rev (a :: h))) as Hhead.
    destruct (PyStr.lstrip_char PosixPath.sep (rev (a :: h))) as [|c r] eqn:El.
    + apply lstrip_char_all in El. apply (f_equal (@rev ascii)) in El.
      rewrite rev_involutive, rev_repeat, length_rev in El.
      apply str_eqb_neq in Ea. contradiction.
    + exists (rev r), c. split; [reflexivity|exact Hhead].
Qed.

Lemma repeat_sep_ends (n : nat) :
  PyStr.endswith (repeat PosixPath.sep (S n)) [PosixPath.sep] = true.
Proof.
  unfold PyStr.endswith. rewrite rev_repeat. cbn [rev app repeat PyStr.startswith].
  rewrite Ascii.eqb_refl. now destruct (repeat PosixPath.sep n).
Qed.

Lemma repeat_snoc (c : ascii) (n : nat) : repeat c (S n) = repeat c n ++ [c].
Proof.
  induction n as [|n IH]; [reflexivity|]. cbn [repeat app] in *. now rewrite <- IH.
Qed.

Lemma startswith_sep (f : str) :
  f <> [] -> ~ In PosixPath.sep f -> PyStr.startswith f [PosixPath.sep] = false.
Proof.
  intros Hf Hs. destruct f as [|c f]; [contradiction|]. cbn [PyStr.startswith].
  destruct (Ascii.eqb PosixPath.sep c) eqn:E; [|reflexivity].
  apply Ascii.eqb_eq in E. subst c. exfalso. apply Hs. now left.
Qed.

Lemma join_split_seps (n : nat) (f : str) :
  f <> [] -> ~ In PosixPath.sep f ->
  PosixPath.split (PosixPath.join (repeat PosixPath.sep (S n)) f)
  = (repeat PosixPath.sep (S n), f).
Proof.
  intros Hf Hs. unfold PosixPath.join. rewrite startswith_sep by assumption.
  rewrite repeat_sep_ends.
  change (match repeat PosixPath.sep (S n) with
          | [] => f
          | _ :: _ => repeat PosixPath.sep (S n) ++ f
          end) with (repeat PosixPath.sep (S n) ++ f).
  rewrite split_app; [|exact Hs|right; exists (repeat PosixPath.sep n); apply repeat_snoc].
  rewrite repeat_length, str_eqb_refl. reflexivity.
Qed.

Lemma join_split_other (d0 : str) (c : ascii) (f : str) :
  f <> [] -> ~ In PosixPath.sep f -> c <> PosixPath.sep ->
  PosixPath.split (PosixPath.join (d0 ++ [c]) f) = (d0 ++ [c], f).
Proof.
  intros Hf Hs Hc. unfold PosixPath.join. rewrite startswith_sep by assumption.
  assert (Hend : PyStr.endswith (d0 ++ [c]) [PosixPath.sep] = false).
  { unfold PyStr.endswith. rewrite rev_app_distr. cbn [rev app PyStr.startswith].
    apply Ascii.eqb_neq in Hc. rewrite Ascii.eqb_sym. now rewrite Hc. }
  rewrite Hend.
  assert (E : match d0 ++ [c] with
              | [] => f
              | _ :: _ => (d0 ++ [c]) ++ [PosixPath.sep] ++ f
              end = ((d0 ++ [c]) ++ [PosixPath.sep]) ++ f).
  { destruct (d0 ++ [c]) eqn:Ed; [destruct d0; discriminate|]. now rewrite <- app_assoc. }
  rewrite E.
  rewrite split_app; [|exact Hs|right; now exists (d0 ++ [c])].
  f_equal.
  destruct ((d0 ++ [c]) ++ [PosixPath.sep]) as [|x' y'] eqn:Ed'; [destruct d0; discriminate|].
  rewrite <- Ed'.
  replace (str_eqb ((d0 ++ [c]) ++ [PosixPath.sep])
                   (repeat PosixPath.sep (length ((d0 ++ [c]) ++ [PosixPath.sep]))))
    with false.
  - unfold PyStr.rstrip_char. rewrite rev_app_distr. cbn [rev app PyStr.lstrip_char].
    rewrite Ascii.eqb_refl. rewrite rev_app_distr. cbn [rev app].
    rewrite lstrip_char_kept by exact Hc.
    change (c :: rev d0) with ([c] ++ rev d0). rewrite rev_app_distr, rev_involutive.
    reflexivity.
  - symmetry. apply str_eqb_neq. intros Heq.
    assert (Hin : In c (repeat PosixPath.sep (length ((d0 ++ [c]) ++ [PosixPath.sep])))).
    { rewrite <- Heq. rewrite !in_app_iff. left. right. now left. }
    apply repeat_spec in Hin. contradiction.
Qed.

Lemma join_split (d f : str) :
  f <> [] -> ~ In PosixPath.sep f ->
  d <> [] ->
  (d = repeat PosixPath.sep (length d) \/ exists d0 c, d = d0 ++ [c] /\ c <> PosixPath.sep) ->
  PosixPath.split (PosixPath.join d f) = (d, f).
Proof.
  intros Hf Hs Hd [Hall|(d0 & c & -> & Hc)].
  - rewrite Hall. destruct d as [|a d]; [contradiction|]. cbn [length].
    now apply join_split_seps.
  - now apply join_split_other.
Qed.

Lemma join_dirname_split (p f : str) :
  f <> [] -> ~ In PosixPath.sep f ->
  PosixPath.split (PosixPath.join (PosixPath.dirname p) f) = (PosixPath.dirname p, f).
Proof.
  intros Hf Hs. destruct (dirname_shape p) as [E|[[Hne Hall]|Hother]].
  - rewrite E. unfold PosixPath.join. rewrite startswith_sep by assumption.
    apply (@split_app [] f Hs). now left.
  - apply join_split; auto.
  - apply join_split; auto. destruct Hother as (d0 & c & -> & _). destruct d0; discriminate.
Qed.

Lemma join_dir_or_dot_split (p f : str) :
  f <> [] -> ~ In PosixPath.sep f ->
  PosixPath.split
    (PosixPath.join (match PosixPath.dirname p with [] => "." | _ => PosixPath.dirname p end) f)
  = (match PosixPath.dirname p with [] => "." | _ => PosixPath.dirname p end, f).
Proof.
  intros Hf Hs. destruct (PosixPath.dirname p) as [|a d] eqn:E.
  - apply (@join_split_other [] "."%char f Hf Hs). discriminate.
  - rewrite <- E. now apply join_dirname_split.
Qed.

Lemma no_sep_literal (s : str) :
  forallb (fun c => negb (Ascii.eqb c PosixPath.sep)) s = true -> ~ In PosixPath.sep s.
Proof.
  intros H Hin. rewrite forallb_forall in H. specialize (H _ Hin).
  now rewrite Ascii.eqb_refl in H.
Qed.

(** X20. The suggestion stays beside the input file: split again, the path
    suggested by [get_output_file_path] gives back the directory of the input
    file (a dot when it has none) and, as its last component, the name of the
    input file with the suffix of the mode put before its extension; the
    suggestions of the window of Qtanon.py give back the directory of the
    chosen file and its base name followed by the suffix and ".md" or ".txt". *)
Theorem suggested_output_stays_beside_the_input :
  (forall input_text_file_path operation_mode,
      PosixPath.split (FakePlates.get_output_file_path input_text_file_path operation_mode None)
      = (match PosixPath.dirname input_text_file_path with
         | [] => "."
         | _ => PosixPath.dirname input_text_file_path
         end,
         fst (PosixPath.splitext (PosixPath.basename input_text_file_path))
         ++ dict_get_default FakePlates.suffix_map operation_mode "_processed_output"
         ++ (if str_eqb operation_mode "generate_csv" then ".csv"
             else snd (PosixPath.splitext (PosixPath.basename input_text_file_path)))))
  /\ (forall file_path,
         PosixPath.split (Qtanon.suggested_output file_path "_anonymized")
         = (PosixPath.dirname file_path,
            fst (PosixPath.splitext (PosixPath.basename file_path)) ++ "_anonymized"
            ++ (if str_eqb (PyStr.lower (snd (PosixPath.splitext (PosixPath.basename file_path))))
                           ".md"
                then ".md" else ".txt"))).
Proof.
  split.
  - intros p mode. unfold FakePlates.get_output_file_path.
    rewrite (surjective_pairing (PosixPath.split p)), split_tail.
    change (fst (PosixPath.split p)) with (PosixPath.dirname p).
    pose proof (basename_no_sep p) as Hb.
    pose proof (splitext_whole (PosixPath.basename p)) as Hw.
    destruct (PosixPath.splitext (PosixPath.basename p)) as [name ext] eqn:Ex.
    cbn [fst snd] in *.
    assert (Hn : ~ In PosixPath.sep name /\ ~ In PosixPath.sep ext)
      by (apply not_in_app; now rewrite Hw).
    assert (Hsuffix : forall x, In x (map snd FakePlates.suffix_map) \/ x = "_processed_output" ->
                                x <> [] /\ ~ In PosixPath.sep x).
    { cbn [FakePlates.suffix_map map snd In]. intros x [H| ->].
      - repeat (destruct H as [<-|H]; [split; [discriminate|now apply no_sep_literal]|]).
        contradiction.
      - split; [discriminate|now apply no_sep_literal]. }
    assert (Hs : dict_get_default FakePlates.suffix_map mode "_processed_output" <> []
                 /\ ~ In PosixPath.sep
                         (dict_get_default FakePlates.suffix_map mode "_processed_output")).
    { apply Hsuffix. unfold dict_get_default, FakePlates.suffix_map. cbn [dict_get map snd In].
      repeat (destruct (str_eqb mode _); [tauto|]). tauto. }
    destruct Hs as [Hs1 Hs2].
    apply join_dir_or_dot_split.
    + destruct name; [|discriminate]. cbn [app].
      destruct (dict_get_default FakePlates.suffix_map mode "_processed_output");
        [contradiction|discriminate].
    + rewrite !not_in_app. repeat split; try tauto.
      destruct (str_eqb mode "generate_csv"); [now apply no_sep_literal|tauto].
  - intros p. unfold Qtanon.suggested_output.
    pose proof (basename_no_sep p) as Hb.
    pose proof (splitext_whole (PosixPath.basename p)) as Hw.
    destruct (PosixPath.splitext (PosixPath.basename p)) as [name ext] eqn:Ex.
    cbn [fst snd] in *.
    assert (Hn : ~ In PosixPath.sep name /\ ~ In PosixPath.sep ext)
      by (apply not_in_app; now rewrite Hw).
    apply join_dirname_split.
    + destruct name; discriminate.
    + rewrite !not_in_app. repeat split; try tauto.
      * now apply no_sep_literal.
      * destruct (str_eqb (PyStr.lower ext) ".md"); now apply no_sep_literal.
Qed.

(** *** The two suggestions of the window *)

Lemma startswith_app (s t : str) : PyStr.startswith (s ++ t) s = true.
Proof.
  induction s as [|c s IH]; [now destruct t|].
  cbn [app PyStr.startswith]. now rewrite Ascii.eqb_refl, IH.
Qed.

Lemma endswith_app (a s : str) : PyStr.endswith (a ++ s) s = true.
Proof.
  unfold PyStr.endswith. rewrite rev_app_distr. apply startswith_app.
Qed.

Lemma extension_ends_path (p : str) :
  exists a, p = a ++ snd (PosixPath.splitext (PosixPath.basename p)).
Proof.
  exists (firstn (PosixPath.after_last_sep p) p
          ++ fst (PosixPath.splitext (PosixPath.basename p))).
  rewrite <- app_assoc, splitext_whole. unfold PosixPath.basename.
  now rewrite firstn_skipn.
Qed.

Lemma md_extension_ends_path (p : str) :
  str_eqb (PyStr.lower (snd (PosixPath.splitext (PosixPath.basename p)))) ".md" = true ->
  PyStr.endswith (PyStr.lower p) ".md" = true.
Proof.
  intros H. apply str_eqb_eq in H.
  destruct (extension_ends_path p) as [a E]. rewrite E at 1.
  rewrite lower_app, H. apply endswith_app.
Qed.

(** X21. The two places where the window suggests an output path for the
    anonymize tab test the extension differently, one on the extension of the
    file name and the other on the end of the whole path. They agree on every
    path whose extension is ".md" in any case and on every path that does not
    end with ".md"; a file named ".md", which has no extension, is given
    ".txt" by the first and ".md" by the second. *)
Theorem tab_and_browse_suggestions :
  (forall file_path,
      PyStr.lower (snd (PosixPath.splitext (PosixPath.basename file_path))) = ".md" ->
      Qtanon.suggested_output_on_tab file_path = Qtanon.suggested_output file_path "_anonymized")
  /\ (forall file_path,
         PyStr.endswith (PyStr.lower file_path) ".md" = false ->
         Qtanon.suggested_output_on_tab file_path
         = Qtanon.suggested_output file_path "_anonymized")
  /\ Qtanon.suggested_output "notes/.md" "_anonymized" = "notes/.md_anonymized.txt"
  /\ Qtanon.suggested_output_on_tab "notes/.md" = "notes/.md_anonymized.md".
Proof.
  split; [|split; [|split; reflexivity]].
  - intros p H. unfold Qtanon.suggested_output_on_tab, Qtanon.suggested_output.
    assert (H' : str_eqb (PyStr.lower (snd (PosixPath.splitext (PosixPath.basename p)))) ".md"
                 = true) by (rewrite H; reflexivity).
    rewrite (md_extension_ends_path p H').
    destruct (PosixPath.splitext (PosixPath.basename p)) as [name ext].
    cbn [fst snd] in *. now rewrite H'.
  - intros p H. unfold Qtanon.suggested_output_on_tab, Qtanon.suggested_output.
    rewrite H.
    destruct (str_eqb (PyStr.lower (snd (PosixPath.splitext (PosixPath.basename p)))) ".md")
      eqn:E.
    + apply md_extension_ends_path in E. congruence.
    + destruct (PosixPath.splitext (PosixPath.basename p)) as [name ext].
      cbn [fst snd] in *. now rewrite E.
Qed.

Lemma tab_and_browse_suggestions_witness :
  Qtanon.suggested_output_on_tab "docs/Report.MD"
  = Qtanon.suggested_output "docs/Report.MD" "_anonymized"
  /\ Qtanon.suggested_output_on_tab "docs/report.docx"
     = Qtanon.suggested_output "docs/report.docx" "_anonymized".
Proof.
  split.
  - apply (proj1 tab_and_browse_suggestions). reflexivity.
  - apply (proj1 (proj2 tab_and_browse_suggestions)). reflexivity.
Defined.

(** ** Reading a document *)

Lemma rfind_app_absent (h t : str) (c : ascii) :
  ~ In c t -> PyStr.rfind (h ++ t) c = PyStr.rfind h c.
Proof.
  intros Ht. induction h as [|d h IH]; cbn [app PyStr.rfind].
  - now apply rfind_absent.
  - now rewrite IH.
Qed.

Lemma rfind_bound (s : str) (c : ascii) (i : nat) :
  PyStr.rfind s c = Some i -> i < length s.
Proof.
  revert i. induction s as [|d s IH]; intros i; cbn [PyStr.rfind length]; [discriminate|].
  destruct (PyStr.rfind s c) as [j|].
  - intros [= <-]. specialize (IH j eq_refl). lia.
  - destruct (Ascii.eqb d c); [intros [= <-]; lia|discriminate].
Qed.

Lemma splitext_no_dot (p : str) :
  ~ In PosixPath.extsep (PosixPath.basename p) -> PosixPath.splitext p = (p, []).
Proof.
  intros H. destruct (path_cut p) as (h & t & E & Hi & Ht & Hh).
  rewrite E in H. rewrite basename_app in H by assumption.
  unfold PosixPath.splitext. rewrite Hi. rewrite E at 1.
  rewrite rfind_app_absent by exact H.
  destruct (PyStr.rfind h PosixPath.extsep) as [dotIndex|] eqn:Er; [|reflexivity].
  apply rfind_bound in Er.
  replace (length h <=? dotIndex) with false; [reflexivity|].
  symmetry. apply Nat.leb_gt. exact Er.
Qed.

(** X22. Every path is read as UTF-8 text, and nothing else is tried, unless
    its extension in lower case is ".docx", ".odt" or ".doc"; a ".doc" file is
    never read. The extension is that of the last component: a file without a
    dot in its name is read as text, whatever the directories above it are
    called. *)
Theorem documents_read_as_text (r : Qtanon.file_readers) (file_path : str) :
  let file_extension := PyStr.lower (snd (PosixPath.splitext file_path)) in
  (mem file_extension [".docx"; ".odt"; ".doc"] = false ->
   Qtanon.read_document_content r file_path = Qtanon.read_text r file_path)
  /\ (file_extension = ".doc" -> Qtanon.read_document_content r file_path = None)
  /\ (~ In PosixPath.extsep (PosixPath.basename file_path) ->
      Qtanon.read_document_content r file_path = Qtanon.read_text r file_path).
Proof.
  cbv zeta.
  assert (H1 : mem (PyStr.lower (snd (PosixPath.splitext file_path))) [".docx"; ".odt"; ".doc"]
               = false ->
               Qtanon.read_document_content r file_path = Qtanon.read_text r file_path).
  { unfold Qtanon.read_document_content. rewrite !mem_cons.
    destruct (str_eqb _ ".docx"), (str_eqb _ ".odt"), (str_eqb _ ".doc");
      try discriminate. intros _. now destruct (_ || _). }
  split; [exact H1|]. split.
  - intros E. unfold Qtanon.read_document_content. rewrite E. reflexivity.
  - intros H. apply H1. now rewrite splitext_no_dot.
Qed.

Lemma documents_read_as_text_witness :
  Qtanon.read_document_content
    {| Qtanon.read_text := fun _ => Some "Ann met Bob.";
       Qtanon.docx_paragraphs := None;
       Qtanon.odt_paragraphs := None |}
    "archive.docx/notes"
  = Some "Ann met Bob.".
Proof.
  apply (proj2 (proj2 (documents_read_as_text
                         {| Qtanon.read_text := fun _ => Some "Ann met Bob.";
                            Qtanon.docx_paragraphs := None;
                            Qtanon.odt_paragraphs := None |}
                         "archive.docx/notes"))).
  cbn. intros H. repeat (destruct H as [H|H]; [discriminate|]). exact H.
Defined.

(** ** The prompts of the command line *)

Lemma get_file_path_checked (isfile : str -> bool) (prompt_message : str) (lines : list str)
      (file_path : str) :
  PyStr.contains (PyStr.lower prompt_message) "output" = false ->
  PyStr.contains (PyStr.lower prompt_message) "csv entity map" = false ->
  FakePlates.get_file_path isfile prompt_message lines = Some file_path ->
  isfile file_path = true /\ trimmed file_path.
Proof.
  intros H1 H2. induction lines as [|line lines IH]; cbn [FakePlates.get_file_path];
    [discriminate|].
  rewrite H1, H2. cbn [negb andb].
  destruct (PyStr.strip line) as [|c t] eqn:E; [exact IH|].
  destruct (isfile (c :: t)) eqn:Ef; cbn [negb]; [|exact IH].
  intros [= <-]. split; [exact Ef|]. split; [discriminate|].
  rewrite <- E. apply strip_strip.
Qed.

(** X23. With each of the prompts [main] uses, [get_file_path] only returns
    the path of an existing file, trimmed and not empty: none of these prompts
    holds the words by which the function takes a prompt to ask for an output
    file, for which it would not look at the file system. *)
Theorem prompted_paths_exist (isfile : str -> bool) (prompt_message : str) (lines : list str)
        (file_path : str) :
  In prompt_message FakePlates.input_prompts ->
  FakePlates.get_file_path isfile prompt_message lines = Some file_path ->
  isfile file_path = true /\ trimmed file_path.
Proof.
  intros Hin. apply get_file_path_checked;
    unfold FakePlates.input_prompts in Hin; cbn [In] in Hin;
    repeat (destruct Hin as [<-|Hin]; [vm_compute; reflexivity|]); contradiction.
Qed.

Lemma prompted_paths_exist_witness :
  str_eqb "map.csv" "map.csv" = true /\ trimmed "map.csv".
Proof.
  apply (@prompted_paths_exist (fun path => str_eqb path "map.csv")
                               "Enter path to the CSV mapping file: "
                               [" "; "missing.csv"; " map.csv "; "other.csv"] "map.csv").
  - right. left. reflexivity.
  - reflexivity.
Defined.
